(** * SimpleArchiver: the archive engine (package [archiver])

    A shallow embedding of [internal/archiver]: exclusion matching, file
    collection, the compress and extract pipelines with their progress
    callbacks, archive-format detection and the extraction path check.

    Go strings are byte strings and are modelled by [string]; [int] counters
    are [Z]; [int64] byte sizes are [Z] with the wrap-around of the addition
    written out ([wrap64]); [float64] is the kernel's binary64.  The
    operating system and the codec libraries are an explicit environment
    ([Env]) that answers every call the engine makes; what the engine does
    to the outside world is recorded, in order, as a list of [event]s.  The
    caller's context is the answer it gives each time it is polled: [ctx n]
    tells whether it is cancelled at the poll made with [n] entries
    processed.  [filepath.Match] is a parameter of the compress side.

    Around the engine: the tables of package [config], the language
    detection of package [i18n], and the screens of the interface
    (package [main]) with their key handlers, as a function from messages
    to models and commands.

    The engine as given takes no password, while the interface hands one
    to it; the adapters that read a password are not among the sources and
    are modelled from the specification, apart from the embedding of the
    code (section "The password of a request"). *)

From Stdlib Require Import String Ascii List ZArith Lia Bool.
From Stdlib Require Import PrimFloat SpecFloat FloatOps.
Set Warnings "-register-all".
Import ListNotations.
Open Scope list_scope.
Open Scope string_scope.

(** ** Go's [strings] package (the functions the engine calls) *)

Module strings.

(** [len(s) >= len(prefix) && s[:len(prefix)] == prefix] *)
Definition HasPrefix (s prefix : string) : bool :=
  (String.length prefix <=? String.length s)%nat
  && (substring 0 (String.length prefix) s =? prefix).

(** [len(s) >= len(suffix) && s[len(s)-len(suffix):] == suffix] *)
Definition HasSuffix (s suffix : string) : bool :=
  (String.length suffix <=? String.length s)%nat
  && (substring (String.length s - String.length suffix)
                (String.length suffix) s =? suffix).

(** [Index(s, substr) >= 0]: [substr] starts at some offset of [s]. *)
Fixpoint Contains (s substr : string) : bool :=
  HasPrefix s substr
  || match s with
     | EmptyString => false
     | String _ s' => Contains s' substr
     end.

Definition lower_byte (c : ascii) : ascii :=
  let n := nat_of_ascii c in
  if ((65 <=? n) && (n <=? 90))%nat then ascii_of_nat (n + 32) else c.

(** [ToLower] for ASCII strings: the letters [A]-[Z] are lowered, every
    other byte is kept (Go lowers the runes of a non-ASCII string through
    the Unicode tables, which are not modelled). *)
Fixpoint ToLower (s : string) : string :=
  match s with
  | EmptyString => EmptyString
  | String c s' => String (lower_byte c) (ToLower s')
  end.

(** The test Go's [ToLower] makes for its fast path: no byte of the string
    is [utf8.RuneSelf] (128) or above.  On such a string Go's [ToLower] is
    [ToLower] above, byte for byte; statements about which names or values
    are recognised after lower-casing are made for such strings. *)
Definition isASCII (s : string) : bool :=
  forallb (fun c => (nat_of_ascii c <? 128)%nat) (list_ascii_of_string s).

(** [Split(s, "/")] *)
Fixpoint SplitSep (s : string) : list string :=
  match s with
  | EmptyString => [EmptyString]
  | String c s' =>
      if Ascii.eqb c "/" then EmptyString :: SplitSep s'
      else match SplitSep s' with
           | h :: t => String c h :: t
           | [] => [String c EmptyString]
           end
  end.

(** [Join(elems, "/")] *)
Fixpoint JoinSep (elems : list string) : string :=
  match elems with
  | [] => ""
  | [e] => e
  | e :: rest => e ++ "/" ++ JoinSep rest
  end.

(** [TrimSuffix]: [s] without the trailing [suffix] when it has it. *)
Definition TrimSuffix (s suffix : string) : string :=
  if HasSuffix s suffix
  then substring 0 (String.length s - String.length suffix) s
  else s.

End strings.

(** ** Go's [path/filepath] on Unix ([Separator] is the slash) *)

Module filepath.
Import strings.

Definition Separator : string := "/".

(** One path element pushed on the (reversed) stack of kept elements:
    empty and [.] elements vanish, [..] removes the element before it
    when there is one, is dropped at the root, and is kept otherwise. *)
Definition clean_step (rooted : bool) (stack : list string) (e : string)
  : list string :=
  if (e =? "") || (e =? ".") then stack
  else if e =? ".." then
    match stack with
    | top :: rest =>
        if top =? ".." then (if rooted then stack else e :: stack) else rest
    | [] => if rooted then [] else [e]
    end
  else e :: stack.

Definition Clean (path : string) : string :=
  let rooted := HasPrefix path "/" in
  let kept := rev (fold_left (clean_step rooted) (SplitSep path) []) in
  let body := JoinSep kept in
  if rooted then "/" ++ body
  else if body =? "" then "." else body.

(** [Join(elem...)]: the elements from the first non-empty one on are
    joined with slashes and cleaned; all empty gives the empty string. *)
Fixpoint Join (elem : list string) : string :=
  match elem with
  | [] => ""
  | e :: rest => if e =? "" then Join rest else Clean (JoinSep elem)
  end.

Fixpoint last_nonempty (elems : list string) (acc : option string)
  : option string :=
  match elems with
  | [] => acc
  | e :: rest => last_nonempty rest (if e =? "" then acc else Some e)
  end.

(** [Base]: the last element, trailing slashes removed first. *)
Definition Base (path : string) : string :=
  if path =? "" then "."
  else match last_nonempty (SplitSep path) None with
       | Some e => e
       | None => Separator
       end.

(** [path[:i+1]] for [i] the index of the last separator. *)
Fixpoint upto_last_sep (s : string) : string :=
  match s with
  | EmptyString => EmptyString
  | String c s' => if Contains s "/" then String c (upto_last_sep s') else ""
  end.

Definition Dir (path : string) : string := Clean (upto_last_sep path).

(** The elements of a cleaned path; a rooted path starts with an empty
    element, the root alone is that element only. *)
Definition elements (p : string) : list string :=
  match rev (SplitSep p) with
  | e :: r => if e =? "" then rev r else SplitSep p
  | [] => []
  end.

Fixpoint strip_common (b t : list string) : list string * list string :=
  match b, t with
  | x :: b', y :: t' => if x =? y then strip_common b' t' else (b, t)
  | _, _ => (b, t)
  end.

(** [Rel(basepath, targpath)]; [None] is the error return: one path is
    rooted and the other is not, or the base, where it parts from the
    target, goes on with [..], whose name is not known. *)
Definition Rel (basepath targpath : string) : option string :=
  let base := Clean basepath in
  let targ := Clean targpath in
  if targ =? base then Some "."
  else
    let base := if base =? "." then "" else base in
    if negb (Bool.eqb (HasPrefix base "/") (HasPrefix targ "/")) then None
    else
      let '(rb, rt) := strip_common (elements base) (elements targ) in
      match rb, rt with
      | [], _ => Some (JoinSep rt)
      | x :: _, _ :: _ =>
          if x =? ".." then None
          else Some (JoinSep (map (fun _ => "..") rb ++ rt)%list)
      | x :: _, [] =>
          if x =? ".." then None
          else Some (JoinSep (map (fun _ => "..") rb))
      end.

(** The loop of [Ext] from the last byte backwards: it stops at a
    separator with the empty answer and at a dot with the suffix that
    starts there; [acc] is the part of the path already passed. *)
Fixpoint ext_scan (reversed : list ascii) (acc : string) : string :=
  match reversed with
  | [] => ""
  | c :: rest =>
      if Ascii.eqb c "/" then ""
      else if Ascii.eqb c "." then String c acc
      else ext_scan rest (String c acc)
  end.

(** [Ext]: the suffix beginning at the final dot in the final element of
    the path, empty if there is no dot. *)
Definition Ext (path : string) : string :=
  ext_scan (rev (list_ascii_of_string path)) "".

End filepath.

(** ** Archive-format detection *)

(** [DetectArchiveFormat]: the switch over the suffixes of the lower-cased
    file name; the empty string is the "unknown" answer. *)
Definition DetectArchiveFormat (filename : string) : string :=
  let lower := strings.ToLower filename in
  if strings.HasSuffix lower ".zip" then ".zip"
  else if strings.HasSuffix lower ".tar.gz" || strings.HasSuffix lower ".tgz"
  then ".tar.gz"
  else if strings.HasSuffix lower ".tar.bz2" || strings.HasSuffix lower ".tbz2"
  then ".tar.bz2"
  else if strings.HasSuffix lower ".tar.xz" || strings.HasSuffix lower ".txz"
  then ".tar.xz"
  else if strings.HasSuffix lower ".tar.zst" || strings.HasSuffix lower ".tzst"
  then ".tar.zst"
  else if strings.HasSuffix lower ".tar.lz4" then ".tar.lz4"
  else if strings.HasSuffix lower ".tar" then ".tar"
  else "".

(** [IsArchiveFile] *)
Definition IsArchiveFile (filename : string) : bool :=
  negb (DetectArchiveFormat filename =? "").


(** ** Values shared by both pipelines *)

(** An error value handed back by the operating system or by a codec
    library; the engine only wraps it. *)
Definition oserr := string.

Inductive result (A : Type) : Type :=
| Ok (a : A)
| Fail (e : oserr).
Arguments Ok {A} a.
Arguments Fail {A} e.

(** What [os.Stat], [os.Lstat] and [os.ReadDir] show of the file tree.
    A non-directory carries the size its [Info()] reports ([None] when
    [Info()] fails); a directory carries its own size, the error of its
    [ReadDir] if any, and the entries [ReadDir] returns, in its order. *)
Inductive node : Type :=
| File (info : option Z)
| Dir (size : Z) (readErr : option oserr) (entries : list (string * node)).

Definition IsDir (d : node) : bool :=
  match d with
  | File _ => false
  | Dir _ _ _ => true
  end.

Definition Size (d : node) : Z :=
  match d with
  | File (Some n) => n
  | File None => 0
  | Dir n _ _ => n
  end.

(** [int64] arithmetic wraps around. *)
Definition wrap64 (z : Z) : Z := ((z + 2 ^ 63) mod 2 ^ 64 - 2 ^ 63)%Z.

(** [float64(x)] for an [int64] [x]: the nearest double, ties to even. *)
Definition float64 (x : Z) : float :=
  SF2Prim (SpecFloat.binary_normalize 53 1024 x 0 false).

(** The error values the engine returns, one constructor per return site. *)
Inductive error : Type :=
| ErrSourceMissing (cause : oserr)
| ErrCollect (cause : oserr)
| ErrNoFiles
| ErrUnsupportedFormat (format : string)
| ErrCreateOutput (cause : oserr)
| ErrNewWriter (codec : string) (cause : oserr)
| ErrAddFile (relPath : string) (cause : oserr)
| ErrCancelled
| ErrArchiveMissing (cause : oserr)
| ErrUnsupportedArchive (format : option string)
| ErrMkOutput (cause : oserr)
| ErrOpenZip (cause : oserr)
| ErrOpenArchive (cause : oserr)
| ErrNewReader (codec : string) (cause : oserr)
| ErrTarHeader (cause : oserr)
| ErrIllegalPath (name : string)
| ErrMkdir (name : string) (cause : oserr)
| ErrMkParent (cause : oserr)
| ErrExtractFile (name : string) (cause : oserr)
| ErrCreateFile (name : string) (cause : oserr)
| ErrWriteFile (name : string) (cause : oserr).

(** [CompressStats] *)
Record CompressStats : Type := mkCompressStats {
  TotalFiles : Z;
  ProcessedFiles : Z;
  TotalSize : Z;
  CompressedSize : Z;
  ExcludedFiles : Z;
  CurrentFile : string;
  CompressionRate : float
}.

(** [CompressOptions]; a callback field says whether the callback is set. *)
Record CompressOptions : Type := mkCompressOptions {
  Source : string;
  Output : string;
  Format : string;
  Excludes : list string;
  OnProgress : bool;
  OnStats : bool
}.

(** [ExtractStats] (fields prefixed, the names being taken above). *)
Record ExtractStats : Type := mkExtractStats {
  xTotalFiles : Z;
  xProcessedFiles : Z;
  xTotalSize : Z;
  xExtractedSize : Z;
  xCurrentFile : string
}.

(** [ExtractOptions] *)
Record ExtractOptions : Type := mkExtractOptions {
  xSource : string;
  xOutput : string;
  xOnProgress : bool;
  xOnStats : bool
}.

(** The header of a ZIP entry as [addFileToZip] completes it. *)
Record zip_FileHeader : Type := mkZipHeader {
  zhName : string;
  zhMethod : Z
}.

(** [zip.Deflate] *)
Definition zip_Deflate : Z := 8.

(** A ZIP entry as [zip.OpenReader] lists it. *)
Record zip_File : Type := mkZipFile {
  zName : string;
  zIsDir : bool;
  zMode : Z;
  zUncompressedSize64 : Z
}.

Inductive tar_Typeflag : Type :=
| TypeReg
| TypeDir
| TypeSymlink
| TypeOther.

(** A TAR entry as [tarReader.Next] returns it. *)
Record tar_Header : Type := mkTarHeader {
  hName : string;
  hTypeflag : tar_Typeflag;
  hMode : Z;
  hLinkname : string;
  hSize : Z
}.

(** What the engine does to the outside world, in the order it does it:
    the calls of the two callbacks with their arguments; on the compress
    side the creation of the output file, the header and the body of each
    archive entry, the deferred closes and the final stat of the output;
    on the extract side the directories, files and links it makes. *)
Inductive event : Type :=
| CallOnProgress (current total : Z) (currentFile : string)
| CallOnStats (snapshot : CompressStats)
| CallOnStatsX (snapshot : ExtractStats)
| CreateOutput (path : string)
| ZipCreateHeader (h : zip_FileHeader)
| TarWriteHeader (name : string)
| CopyIn (name : string)
| CloseWriter (which : string)
| StatOutput (path : string)
| MkdirAll (path : string) (perm : Z)
| OpenFile (path : string) (perm : Z)
| CopyOut (path : string) (written : Z)
| Symlink (oldname newname : string).

(** Where [addFileToZip] / [addFileToTar] can fail: opening the file,
    its [Stat], [FileInfoHeader], writing the header, copying the bytes. *)
Inductive add_stage : Type :=
| AtOpen
| AtStat
| AtInfoHeader
| AtHeader
| AtCopy.

(** The environment: the answer to every call the engine makes.  [None]
    and [Ok] are the successes.
    - [Stat], [Lstat]: the file tree at a path;
    - [Create]: [os.Create] of the output; [NewWriter]: the constructor of
      a codec writer, by codec; [AddFault]: the first failing step, if
      any, of adding the file at a path to the archive that the run
      writes (one run writes one archive; what fails in one container
      need not fail in another);
    - [StatOutputSize]: the size [os.Stat] reports for the output once the
      adapter has returned;
    - [OsMkdirAll], [OsOpenFile], [IoCopy], [OsSymlink]: making a
      directory, creating a file, copying into it, linking, by target path;
    - [ZipOpenReader]: the entries of the ZIP archive at a path;
      [ZipFileOpen]: opening the content of a ZIP entry, by entry name;
    - [OsOpen]: opening the archive; [NewReader]: the constructor of a
      codec reader, by codec; [TarEntries]: the headers the TAR reader
      yields for the archive at a path and how the stream ends, [None] for
      [io.EOF]. *)
Record Env : Type := mkEnv {
  Stat : string -> result node;
  Lstat : string -> result node;
  Create : string -> option oserr;
  NewWriter : string -> option oserr;
  AddFault : string -> option (add_stage * oserr);
  StatOutputSize : string -> result Z;
  OsMkdirAll : string -> option oserr;
  ZipOpenReader : string -> result (list zip_File);
  OsOpen : string -> option oserr;
  NewReader : string -> option oserr;
  TarEntries : string -> list tar_Header * option oserr;
  ZipFileOpen : string -> option oserr;
  OsOpenFile : string -> option oserr;
  IoCopy : string -> option oserr;
  OsSymlink : string -> option oserr
}.

(** ** Exclusion matching and file collection *)

Section Compressor.

(** [filepath.Match], of which the engine keeps the boolean result only
    (the error of a malformed pattern is discarded by [shouldExclude]). *)
Variable Match : string -> string -> bool.

(** The loop of [shouldExclude] over the patterns; [name] is
    [filepath.Base(path)], computed once before the loop. *)
Fixpoint excludeLoop (path name : string) (excludes : list string) : bool :=
  match excludes with
  | [] => false
  | pattern :: rest =>
      if strings.Contains pattern "*" then
        if Match pattern name then true else excludeLoop path name rest
      else if name =? pattern then true
      else if strings.Contains path
                (filepath.Separator ++ pattern ++ filepath.Separator)
              || strings.HasSuffix path (filepath.Separator ++ pattern)
      then true
      else excludeLoop path name rest
  end.

(** [shouldExclude] *)
Definition shouldExclude (path : string) (excludes : list string) : bool :=
  excludeLoop path (filepath.Base path) excludes.

(** What a [WalkDirFunc] returns: [nil], [filepath.SkipDir] or an error. *)
Inductive walk_ctl : Type :=
| Continue
| SkipDir
| Abort (e : oserr).

(** [filepath.walkDir]: the callback is run on the node first; a directory
    that was not skipped is read and its entries are walked in order. *)
Fixpoint walkDir {S : Type}
  (fn : string -> node -> option oserr -> S -> walk_ctl * S)
  (path : string) (d : node) (st : S) {struct d} : walk_ctl * S :=
  match fn path d None st with
  | (Continue, st1) =>
      match d with
      | File _ => (Continue, st1)
      | Dir _ readErr entries =>
          let walkEntries :=
            fix walkEntries (es : list (string * node)) (st : S)
              : walk_ctl * S :=
              match es with
              | [] => (Continue, st)
              | (name, d1) :: es' =>
                  match walkDir fn (filepath.Join [path; name]) d1 st with
                  | (Continue, st') => walkEntries es' st'
                  | (SkipDir, st') => (Continue, st')
                  | (Abort e, st') => (Abort e, st')
                  end
              end in
          match readErr with
          | None => walkEntries entries st1
          | Some e =>
              match fn path d (Some e) st1 with
              | (Continue, st2) => walkEntries entries st2
              | (SkipDir, st2) => (Continue, st2)
              | (Abort e', st2) => (Abort e', st2)
              end
          end
      end
  | (SkipDir, st1) => if IsDir d then (Continue, st1) else (SkipDir, st1)
  | (Abort e, st1) => (Abort e, st1)
  end.

(** [filepath.WalkDir]: the root is [Lstat]ed; [SkipDir] at the top is not
    an error. *)
Definition WalkDir {S : Type} (env : Env) (root : string)
  (fn : string -> node -> option oserr -> S -> walk_ctl * S) (st : S)
  : option oserr * S :=
  let '(ctl, st') :=
    match Lstat env root with
    | Fail e => fn root (File None) (Some e) st
    | Ok d => walkDir fn root d st
    end in
  match ctl with
  | Abort e => (Some e, st')
  | _ => (None, st')
  end.

(** The variables the callback of [collectFiles] closes over. *)
Record collected : Type := mkCollected {
  files : list string;
  totalSize : Z;
  excludedCount : Z
}.

(** The callback handed to [WalkDir] by [collectFiles]. *)
Definition collectFn (source : string) (excludes : list string)
  (path : string) (d : node) (err : option oserr) (c : collected)
  : walk_ctl * collected :=
  match err with
  | Some e => (Abort e, c)
  | None =>
      let relPath :=
        match filepath.Rel (filepath.Dir source) path with
        | Some r => r
        | None => path
        end in
      if shouldExclude relPath excludes || shouldExclude path excludes then
        if IsDir d then
          (SkipDir, mkCollected (files c) (totalSize c) (excludedCount c + 1))
        else
          (Continue, mkCollected (files c) (totalSize c) (excludedCount c + 1))
      else if negb (IsDir d) then
        (Continue,
         mkCollected (files c ++ [path])%list
           (match d with
            | File (Some n) => wrap64 (totalSize c + n)
            | _ => totalSize c
            end)
           (excludedCount c))
      else (Continue, c)
  end.

(** [collectFiles]: the four values it returns. *)
Definition collectFiles (env : Env) (source : string) (excludes : list string)
  : list string * Z * Z * option oserr :=
  match Stat env source with
  | Fail e => ([], 0%Z, 0%Z, Some e)
  | Ok sourceInfo =>
      if negb (IsDir sourceInfo) then ([source], Size sourceInfo, 0%Z, None)
      else
        let '(err, c) :=
          WalkDir env source (collectFn source excludes)
            (mkCollected [] 0 0) in
        (files c, totalSize c, excludedCount c, err)
  end.

(** ** The compress pipeline *)

Definition setProgress (s : CompressStats) (processed : Z) (current : string)
  : CompressStats :=
  mkCompressStats (TotalFiles s) processed (TotalSize s) (CompressedSize s)
    (ExcludedFiles s) current (CompressionRate s).

(** The two callbacks of one entry, each called when it is set. *)
Definition notify (opts : CompressOptions) (current total : Z)
  (relPath : string) (stats : CompressStats) : list event :=
  ((if OnProgress opts then [CallOnProgress current total relPath] else [])
   ++ (if OnStats opts then [CallOnStats stats] else []))%list.

(** [filepath.Rel(baseDir, file)], or the base name when it fails. *)
Definition relOrBase (baseDir file : string) : string :=
  match filepath.Rel baseDir file with
  | Some r => r
  | None => filepath.Base file
  end.

(** [addFileToZip]: open, stat, build the header, name it and set
    [Deflate], create it in the archive, copy the bytes. *)
Definition addFileToZip (env : Env) (filePath archivePath : string)
  : option oserr * list event :=
  let header := mkZipHeader archivePath zip_Deflate in
  match AddFault env filePath with
  | Some (AtCopy, e) => (Some e, [ZipCreateHeader header])
  | Some (_, e) => (Some e, [])
  | None => (None, [ZipCreateHeader header; CopyIn archivePath])
  end.

(** [addFileToTar] *)
Definition addFileToTar (env : Env) (filePath archivePath : string)
  : option oserr * list event :=
  match AddFault env filePath with
  | Some (AtCopy, e) => (Some e, [TarWriteHeader archivePath])
  | Some (_, e) => (Some e, [])
  | None => (None, [TarWriteHeader archivePath; CopyIn archivePath])
  end.

(** The [for i, file := range files] loop of [compressZip], from index [i]
    on: the context is polled, the statistics are updated and reported,
    then the file is added. *)
Fixpoint compressZipLoop (ctx : nat -> bool) (env : Env)
  (opts : CompressOptions) (baseDir : string) (len : Z) (i : nat)
  (rest : list string) (stats : CompressStats)
  : option error * CompressStats * list event :=
  match rest with
  | [] => (None, stats, [])
  | file :: rest' =>
      if ctx i then (Some ErrCancelled, stats, [])
      else
        let relPath := relOrBase baseDir file in
        let stats1 := setProgress stats (Z.of_nat i + 1) relPath in
        let called := notify opts (Z.of_nat i + 1) len relPath stats1 in
        match addFileToZip env file relPath with
        | (Some e, evs) =>
            (Some (ErrAddFile relPath e), stats1, (called ++ evs)%list)
        | (None, evs) =>
            let '(err, stats2, evs') :=
              compressZipLoop ctx env opts baseDir len (S i) rest' stats1 in
            (err, stats2, (called ++ evs ++ evs')%list)
        end
  end.

(** [compressZip]; the deferred closes run when it returns. *)
Definition compressZip (ctx : nat -> bool) (env : Env) (fs : list string)
  (opts : CompressOptions) (stats : CompressStats)
  : option error * CompressStats * list event :=
  match Create env (Output opts) with
  | Some e => (Some (ErrCreateOutput e), stats, [])
  | None =>
      let '(err, stats', evs) :=
        compressZipLoop ctx env opts (filepath.Dir (Source opts))
          (Z.of_nat (List.length fs)) 0 fs stats in
      (err, stats',
       (CreateOutput (Output opts) :: evs
        ++ [CloseWriter "zip"; CloseWriter "file"])%list)
  end.

(** The loop of [compressTar]. *)
Fixpoint compressTarLoop (ctx : nat -> bool) (env : Env)
  (opts : CompressOptions) (baseDir : string) (len : Z) (i : nat)
  (rest : list string) (stats : CompressStats)
  : option error * CompressStats * list event :=
  match rest with
  | [] => (None, stats, [])
  | file :: rest' =>
      if ctx i then (Some ErrCancelled, stats, [])
      else
        let relPath := relOrBase baseDir file in
        let stats1 := setProgress stats (Z.of_nat i + 1) relPath in
        let called := notify opts (Z.of_nat i + 1) len relPath stats1 in
        match addFileToTar env file relPath with
        | (Some e, evs) =>
            (Some (ErrAddFile relPath e), stats1, (called ++ evs)%list)
        | (None, evs) =>
            let '(err, stats2, evs') :=
              compressTarLoop ctx env opts baseDir len (S i) rest' stats1 in
            (err, stats2, (called ++ evs ++ evs')%list)
        end
  end.

(** [compressTar]: the TAR writer over the codec's writer. *)
Definition compressTar (ctx : nat -> bool) (env : Env) (fs : list string)
  (opts : CompressOptions) (stats : CompressStats)
  : option error * CompressStats * list event :=
  let '(err, stats', evs) :=
    compressTarLoop ctx env opts (filepath.Dir (Source opts))
      (Z.of_nat (List.length fs)) 0 fs stats in
  (err, stats', (evs ++ [CloseWriter "tar"])%list).

(** The five codec wrappers: create the output, set up the codec writer
    (which can fail for bzip2, xz and zstd), run [compressTar], and close
    the codec and the file on return. *)
Definition compressTarWith (codec : string) (fallible : bool)
  (ctx : nat -> bool) (env : Env) (fs : list string)
  (opts : CompressOptions) (stats : CompressStats)
  : option error * CompressStats * list event :=
  match Create env (Output opts) with
  | Some e => (Some (ErrCreateOutput e), stats, [])
  | None =>
      match (if fallible then NewWriter env codec else None) with
      | Some e =>
          (Some (ErrNewWriter codec e), stats,
           [CreateOutput (Output opts); CloseWriter "file"])
      | None =>
          let '(err, stats', evs) := compressTar ctx env fs opts stats in
          (err, stats',
           (CreateOutput (Output opts) :: evs
            ++ [CloseWriter codec; CloseWriter "file"])%list)
      end
  end.

Definition compressTarGz := compressTarWith "gzip" false.
Definition compressTarBz2 := compressTarWith "bzip2" true.
Definition compressTarXz := compressTarWith "xz" true.
Definition compressTarZstd := compressTarWith "zstd" true.
Definition compressTarLz4 := compressTarWith "lz4" false.

(** The adapter [Compress] selects for a format, if any. *)
Definition compressorFor (format : string)
  : option (list string -> CompressOptions -> CompressStats ->
            (nat -> bool) -> Env ->
            option error * CompressStats * list event) :=
  let flip f := fun fs opts stats ctx env => f ctx env fs opts stats in
  if format =? ".zip" then Some (flip compressZip)
  else if format =? ".tar.gz" then Some (flip compressTarGz)
  else if format =? ".tar.bz2" then Some (flip compressTarBz2)
  else if format =? ".tar.xz" then Some (flip compressTarXz)
  else if format =? ".tar.zst" then Some (flip compressTarZstd)
  else if format =? ".tar.lz4" then Some (flip compressTarLz4)
  else None.

(** The statistics after the output file has been statted. *)
Definition setCompressed (s : CompressStats) (size : Z) : CompressStats :=
  mkCompressStats (TotalFiles s) (ProcessedFiles s) (TotalSize s) size
    (ExcludedFiles s) (CurrentFile s)
    (if (TotalSize s >? 0)%Z
     then (float64 (wrap64 (TotalSize s - size)) / float64 (TotalSize s)
           * float64 100)%float
     else CompressionRate s).

(** [Compress]: the statistics pointer and the error it returns, and what
    it did. *)
Definition Compress (ctx : nat -> bool) (env : Env) (opts : CompressOptions)
  : (option CompressStats * option error) * list event :=
  match Stat env (Source opts) with
  | Fail e => ((None, Some (ErrSourceMissing e)), [])
  | Ok _ =>
      match collectFiles env (Source opts) (Excludes opts) with
      | (_, _, _, Some e) => ((None, Some (ErrCollect e)), [])
      | (fs, size, excluded, None) =>
          let stats :=
            mkCompressStats (Z.of_nat (List.length fs)) 0 size 0 excluded ""
              0%float in
          if (TotalFiles stats =? 0)%Z then ((None, Some ErrNoFiles), [])
          else
            match compressorFor (Format opts) with
            | None =>
                ((None, Some (ErrUnsupportedFormat (Format opts))), [])
            | Some run =>
                match run fs opts stats ctx env with
                | (Some e, _, evs) => ((None, Some e), evs)
                | (None, stats', evs) =>
                    let evs' := (evs ++ [StatOutput (Output opts)])%list in
                    match StatOutputSize env (Output opts) with
                    | Ok n => ((Some (setCompressed stats' n), None), evs')
                    | Fail _ => ((Some stats', None), evs')
                    end
                end
            end
      end
  end.

End Compressor.

(** ** The extract pipeline *)

Definition setProgressX (s : ExtractStats) (processed : Z) (current : string)
  : ExtractStats :=
  mkExtractStats (xTotalFiles s) processed (xTotalSize s) (xExtractedSize s)
    current.

Definition addExtracted (s : ExtractStats) (n : Z) : ExtractStats :=
  mkExtractStats (xTotalFiles s) (xProcessedFiles s) (xTotalSize s)
    (wrap64 (xExtractedSize s + n)) (xCurrentFile s).

Definition setTotalFiles (s : ExtractStats) (n : Z) : ExtractStats :=
  mkExtractStats n (xProcessedFiles s) (xTotalSize s) (xExtractedSize s)
    (xCurrentFile s).

Definition notifyX (opts : ExtractOptions) (current total : Z)
  (name : string) (stats : ExtractStats) : list event :=
  ((if xOnProgress opts then [CallOnProgress current total name] else [])
   ++ (if xOnStats opts then [CallOnStatsX stats] else []))%list.

(** The safety check both extraction loops make on an entry name:
    [strings.HasPrefix(filepath.Clean(targetPath), filepath.Clean(opts.Output))]
    for [targetPath := filepath.Join(opts.Output, name)]. *)
Definition targetPathOf (output name : string) : string :=
  filepath.Join [output; name].

Definition pathAllowed (output name : string) : bool :=
  strings.HasPrefix (filepath.Clean (targetPathOf output name))
    (filepath.Clean output).

(** [extractZipFile]: open the entry, create the target, copy. *)
Definition extractZipFile (env : Env) (file : zip_File) (targetPath : string)
  : option oserr * list event :=
  match ZipFileOpen env (zName file) with
  | Some e => (Some e, [])
  | None =>
      match OsOpenFile env targetPath with
      | Some e => (Some e, [])
      | None =>
          match IoCopy env targetPath with
          | Some e => (Some e, [OpenFile targetPath (zMode file)])
          | None =>
              (None, [OpenFile targetPath (zMode file);
                      CopyOut targetPath (zUncompressedSize64 file)])
          end
      end
  end.

(** One ZIP entry after the progress report: the path check, then the
    directory or the file.  [inl] is an error return, [inr] the statistics
    the next iteration starts from. *)
Definition extractZipEntry (env : Env) (opts : ExtractOptions)
  (file : zip_File) (stats : ExtractStats)
  : (error + ExtractStats) * list event :=
  let targetPath := targetPathOf (xOutput opts) (zName file) in
  if negb (pathAllowed (xOutput opts) (zName file)) then
    (inl (ErrIllegalPath (zName file)), [])
  else if zIsDir file then
    match OsMkdirAll env targetPath with
    | Some e => (inl (ErrMkdir (zName file) e), [])
    | None => (inr stats, [MkdirAll targetPath (zMode file)])
    end
  else
    match OsMkdirAll env (filepath.Dir targetPath) with
    | Some e => (inl (ErrMkParent e), [])
    | None =>
        let made := MkdirAll (filepath.Dir targetPath) 493 in
        match extractZipFile env file targetPath with
        | (Some e, evs) => (inl (ErrExtractFile (zName file) e), made :: evs)
        | (None, evs) =>
            (inr (addExtracted stats (wrap64 (zUncompressedSize64 file))),
             made :: evs)
        end
    end.

(** The loop of [extractZip] from index [i] on. *)
Fixpoint extractZipLoop (ctx : nat -> bool) (env : Env)
  (opts : ExtractOptions) (len : Z) (i : nat) (rest : list zip_File)
  (stats : ExtractStats) : option error * ExtractStats * list event :=
  match rest with
  | [] => (None, stats, [])
  | file :: rest' =>
      if ctx i then (Some ErrCancelled, stats, [])
      else
        let stats1 := setProgressX stats (Z.of_nat i + 1) (zName file) in
        let called := notifyX opts (Z.of_nat i + 1) len (zName file) stats1 in
        match extractZipEntry env opts file stats1 with
        | (inl e, evs) => (Some e, stats1, (called ++ evs)%list)
        | (inr stats2, evs) =>
            let '(err, stats3, evs') :=
              extractZipLoop ctx env opts len (S i) rest' stats2 in
            (err, stats3, (called ++ evs ++ evs')%list)
        end
  end.

(** [extractZip] *)
Definition extractZip (ctx : nat -> bool) (env : Env) (opts : ExtractOptions)
  (stats : ExtractStats) : option error * ExtractStats * list event :=
  match ZipOpenReader env (xSource opts) with
  | Fail e => (Some (ErrOpenZip e), stats, [])
  | Ok zfiles =>
      let len := Z.of_nat (List.length zfiles) in
      extractZipLoop ctx env opts len 0 zfiles (setTotalFiles stats len)
  end.

(** One TAR entry after the progress report: the path check, then the
    switch on the type flag.  A symbolic link that cannot be made is
    skipped; entries of other types are passed over. *)
Definition extractTarEntry (env : Env) (opts : ExtractOptions)
  (header : tar_Header) (stats : ExtractStats)
  : (error + ExtractStats) * list event :=
  let targetPath := targetPathOf (xOutput opts) (hName header) in
  if negb (pathAllowed (xOutput opts) (hName header)) then
    (inl (ErrIllegalPath (hName header)), [])
  else
    match hTypeflag header with
    | TypeDir =>
        match OsMkdirAll env targetPath with
        | Some e => (inl (ErrMkdir (hName header) e), [])
        | None => (inr stats, [MkdirAll targetPath (hMode header)])
        end
    | TypeReg =>
        match OsMkdirAll env (filepath.Dir targetPath) with
        | Some e => (inl (ErrMkParent e), [])
        | None =>
            let made := MkdirAll (filepath.Dir targetPath) 493 in
            match OsOpenFile env targetPath with
            | Some e => (inl (ErrCreateFile (hName header) e), [made])
            | None =>
                let opened := OpenFile targetPath (hMode header) in
                match IoCopy env targetPath with
                | Some e =>
                    (inl (ErrWriteFile (hName header) e), [made; opened])
                | None =>
                    (inr (addExtracted stats (hSize header)),
                     [made; opened; CopyOut targetPath (hSize header)])
                end
            end
        end
    | TypeSymlink =>
        match OsMkdirAll env (filepath.Dir targetPath) with
        | Some e => (inl (ErrMkParent e), [])
        | None =>
            let made := MkdirAll (filepath.Dir targetPath) 493 in
            match OsSymlink env targetPath with
            | Some _ => (inr stats, [made])
            | None =>
                (inr stats, [made; Symlink (hLinkname header) targetPath])
            end
        end
    | TypeOther => (inr stats, [])
    end.

(** The [for] loop of [extractTarReader]: [fileCount] entries have been
    processed, [rest] are still to come from the reader, which then
    reports [io.EOF] ([None]) or an error. *)
Fixpoint extractTarLoop (ctx : nat -> bool) (env : Env)
  (opts : ExtractOptions) (fileCount : nat) (rest : list tar_Header)
  (last : option oserr) (stats : ExtractStats)
  : option error * ExtractStats * list event :=
  if ctx fileCount then (Some ErrCancelled, stats, [])
  else
    match rest with
    | [] =>
        match last with
        | None => (None, setTotalFiles stats (Z.of_nat fileCount), [])
        | Some e => (Some (ErrTarHeader e), stats, [])
        end
    | header :: rest' =>
        let count := (Z.of_nat fileCount + 1)%Z in
        let stats1 := setProgressX stats count (hName header) in
        let called := notifyX opts count 0 (hName header) stats1 in
        match extractTarEntry env opts header stats1 with
        | (inl e, evs) => (Some e, stats1, (called ++ evs)%list)
        | (inr stats2, evs) =>
            let '(err, stats3, evs') :=
              extractTarLoop ctx env opts (S fileCount) rest' last stats2 in
            (err, stats3, (called ++ evs ++ evs')%list)
        end
    end.

(** [extractTarReader] over the entries the reader yields. *)
Definition extractTarReader (ctx : nat -> bool) (env : Env)
  (entries : list tar_Header * option oserr) (opts : ExtractOptions)
  (stats : ExtractStats) : option error * ExtractStats * list event :=
  extractTarLoop ctx env opts 0 (fst entries) (snd entries) stats.

(** The six TAR wrappers: open the archive, set up the codec reader (which
    can fail for gzip, bzip2, xz and zstd), run [extractTarReader]. *)
Definition extractTarWith (codec : string) (fallible : bool)
  (ctx : nat -> bool) (env : Env) (opts : ExtractOptions)
  (stats : ExtractStats) : option error * ExtractStats * list event :=
  match OsOpen env (xSource opts) with
  | Some e => (Some (ErrOpenArchive e), stats, [])
  | None =>
      match (if fallible then NewReader env codec else None) with
      | Some e => (Some (ErrNewReader codec e), stats, [])
      | None =>
          extractTarReader ctx env (TarEntries env (xSource opts)) opts stats
      end
  end.

Definition extractTarGz := extractTarWith "gzip" true.
Definition extractTarBz2 := extractTarWith "bzip2" true.
Definition extractTarXz := extractTarWith "xz" true.
Definition extractTarZstd := extractTarWith "zstd" true.
Definition extractTarLz4 := extractTarWith "lz4" false.
Definition extractTar := extractTarWith "tar" false.

(** [Extract]: the statistics pointer and the error it returns, and what
    it did. *)
Definition Extract (ctx : nat -> bool) (env : Env) (opts : ExtractOptions)
  : (option ExtractStats * option error) * list event :=
  match Stat env (xSource opts) with
  | Fail e => ((None, Some (ErrArchiveMissing e)), [])
  | Ok sourceInfo =>
      let stats := mkExtractStats 0 0 (Size sourceInfo) 0 "" in
      let format := DetectArchiveFormat (xSource opts) in
      if format =? "" then ((None, Some (ErrUnsupportedArchive None)), [])
      else
        match OsMkdirAll env (xOutput opts) with
        | Some e => ((None, Some (ErrMkOutput e)), [])
        | None =>
            let made := MkdirAll (xOutput opts) 493 in
            let run :=
              if format =? ".zip" then Some extractZip
              else if format =? ".tar.gz" then Some extractTarGz
              else if format =? ".tar.bz2" then Some extractTarBz2
              else if format =? ".tar.xz" then Some extractTarXz
              else if format =? ".tar.zst" then Some extractTarZstd
              else if format =? ".tar.lz4" then Some extractTarLz4
              else if format =? ".tar" then Some extractTar
              else None in
            match run with
            | None =>
                ((None, Some (ErrUnsupportedArchive (Some format))), [made])
            | Some f =>
                match f ctx env opts stats with
                | (Some e, _, evs) => ((None, Some e), made :: evs)
                | (None, stats', evs) => ((Some stats', None), made :: evs)
                end
            end
        end
  end.

(** ** Vocabulary of the properties *)

(** The suffixes of the switch in [DetectArchiveFormat]. *)
Definition recognizedSuffixes : list string :=
  [".zip"; ".tar.gz"; ".tgz"; ".tar.bz2"; ".tbz2"; ".tar.xz"; ".txz";
   ".tar.zst"; ".tzst"; ".tar.lz4"; ".tar"].


(** A file name ends, case-insensitively, with one of the suffixes. *)
Definition endsWithOneOf (suffixes : list string) (filename : string) : Prop :=
  exists suffix front,
    In suffix suffixes /\ strings.ToLower filename = front ++ suffix.

(** When one pattern of an exclusion list matches a path: a pattern with a
    star is a glob for the final segment; another pattern must be the final
    segment, or stand in the path between two separators, or end the path
    after a separator. *)
Definition patternMatches (Match : string -> string -> bool)
  (path pattern : string) : Prop :=
  if strings.Contains pattern "*" then
    Match pattern (filepath.Base path) = true
  else
    filepath.Base path = pattern
    \/ (exists front back, path = front ++ "/" ++ pattern ++ "/" ++ back)
    \/ (exists front, path = front ++ "/" ++ pattern).

(** A path leaves the directory [root] when it cannot be written relative
    to [root] without climbing out of it. *)
Definition escapes (root path : string) : bool :=
  match filepath.Rel root path with
  | None => true
  | Some r => (r =? "..") || strings.HasPrefix r "../"
  end.

(** The entry count and entry name a callback call reports. *)
Definition reportOf (e : event) : option (Z * string) :=
  match e with
  | CallOnProgress current _ name => Some (current, name)
  | CallOnStats s => Some (ProcessedFiles s, CurrentFile s)
  | CallOnStatsX s => Some (xProcessedFiles s, xCurrentFile s)
  | _ => None
  end.

(** An event that writes the entry [name] into an archive, or that
    materialises it under the output root [output]. *)
Definition worksOn (output name : string) (e : event) : Prop :=
  match e with
  | ZipCreateHeader h => zhName h = name
  | TarWriteHeader n => n = name
  | CopyIn n => n = name
  | MkdirAll p _ =>
      p = targetPathOf output name
      \/ p = filepath.Dir (targetPathOf output name)
  | OpenFile p _ => p = targetPathOf output name
  | CopyOut p _ => p = targetPathOf output name
  | Symlink _ p => p = targetPathOf output name
  | _ => False
  end.

(** The fields of the statistics that the entry loops leave alone. *)
Definition sameTotals (s s' : CompressStats) : Prop :=
  TotalFiles s' = TotalFiles s
  /\ TotalSize s' = TotalSize s
  /\ CompressedSize s' = CompressedSize s
  /\ ExcludedFiles s' = ExcludedFiles s
  /\ CompressionRate s' = CompressionRate s.

(** An event that is not the writing of a ZIP header, or writes one whose
    method is [Deflate]. *)
Definition deflated (e : event) : Prop :=
  match e with
  | ZipCreateHeader h => zhMethod h = zip_Deflate
  | _ => True
  end.

(** A TAR entry that the environment lets the engine extract. *)
Definition materialises (env : Env) (opts : ExtractOptions)
  (header : tar_Header) : Prop :=
  forall stats, exists stats' evs,
    extractTarEntry env opts header stats = (inr stats', evs).

(** Some event satisfying [later] occurs after one satisfying [earlier]. *)
Fixpoint occursAfter (earlier later : event -> bool) (tr : list event)
  : bool :=
  match tr with
  | [] => false
  | e :: tr' =>
      (earlier e && existsb later tr') || occursAfter earlier later tr'
  end.

Definition isSnapshot (e : event) : bool :=
  match e with
  | CallOnStats _ => true
  | CallOnStatsX _ => true
  | _ => false
  end.

Definition isCompletion (e : event) : bool :=
  match e with
  | CopyIn _ => true
  | CopyOut _ _ => true
  | _ => false
  end.

(** The calls of the callbacks for the entry numbered [k]: the call of
    [OnProgress] when it is set, then the snapshot [s] when [OnStats] is
    set. *)
Definition reportsOf (progress snapshot : bool) (k total : Z) (name : string)
  (s : event) : list event :=
  ((if progress then [CallOnProgress k total name] else [])
   ++ (if snapshot then [s] else []))%list.

(** A trace that goes entry by entry over the entries named [names], the
    first of them numbered [k + 1]: for each entry the calls of the
    callbacks that are set, the snapshot carrying the number and the name
    of the entry; then the work on that entry, as [W] describes it; then
    the next entry.  There is one block for each name, no more and no
    less. *)
Inductive entryBlocks (W : string -> list event -> Prop)
  (progress snapshot : bool) : nat -> list string -> list event -> Prop :=
| blocks_done : forall k, entryBlocks W progress snapshot k [] []
| blocks_entry : forall k name names total s work rest,
    isSnapshot s = true ->
    reportOf s = Some ((Z.of_nat k + 1)%Z, name) ->
    W name work ->
    entryBlocks W progress snapshot (S k) names rest ->
    entryBlocks W progress snapshot k (name :: names)
      (reportsOf progress snapshot (Z.of_nat k + 1) total name s
       ++ work ++ rest)%list.

(** Work on the entry [name], whatever was done of it: events that write
    the entry or materialise it under [output]. *)
Definition partOf (output name : string) (work : list event) : Prop :=
  Forall (worksOn output name) work.

(** The work of compression on the entry [name] done in full: its header
    (of a ZIP or of a TAR archive), then its bytes. *)
Definition written (name : string) (work : list event) : Prop :=
  work = [ZipCreateHeader (mkZipHeader name zip_Deflate); CopyIn name]
  \/ work = [TarWriteHeader name; CopyIn name].

(** The entry counts of the snapshots of a trace, in the order in which
    they were handed over. *)
Definition snapshotNumbers (tr : list event) : list Z :=
  flat_map (fun e => match e with
                     | CallOnStats s => [ProcessedFiles s]
                     | CallOnStatsX s => [xProcessedFiles s]
                     | _ => []
                     end) tr.

(** What follows the entries in the trace of a compression: the deferred
    closes and the stat of the output. *)
Definition afterEntries (output : string) (e : event) : Prop :=
  match e with
  | CloseWriter _ => True
  | StatOutput p => p = output
  | _ => False
  end.

(** The names of the entries of the archive [Extract] is given, in the
    order in which the reader of the detected format yields them. *)
Definition archiveNames (env : Env) (opts : ExtractOptions) : list string :=
  if DetectArchiveFormat (xSource opts) =? ".zip" then
    match ZipOpenReader env (xSource opts) with
    | Ok zfiles => map zName zfiles
    | Fail _ => []
    end
  else map hName (fst (TarEntries env (xSource opts))).

(** The poll of the context made with [N] entries processed is the first
    to find it cancelled. *)
Definition firstSeenAt (ctx : nat -> bool) (N : nat) : Prop :=
  (forall j, (j < N)%nat -> ctx j = false) /\ ctx N = true.

(** A ZIP entry that the environment lets the engine extract. *)
Definition materialisesZip (env : Env) (opts : ExtractOptions)
  (file : zip_File) : Prop :=
  forall stats, exists stats' evs,
    extractZipEntry env opts file stats = (inr stats', evs).

(** The polls of the context that an extraction of the archive can make:
    one before each entry and, for a TAR stream, one more before its end
    is read. *)
Definition extractionPolls (env : Env) (opts : ExtractOptions) : nat :=
  if DetectArchiveFormat (xSource opts) =? ".zip"
  then List.length (archiveNames env opts)
  else S (List.length (archiveNames env opts)).

(** The archive names of the files [Compress] collects, in the order in
    which it adds them: the paths relative to the parent of the source. *)
Definition entryNames (Match : string -> string -> bool) (env : Env)
  (opts : CompressOptions) : list string :=
  map (relOrBase (filepath.Dir (Source opts)))
    (fst (fst (fst (collectFiles Match env (Source opts) (Excludes opts))))).

(** An event the caller has asked for, if it is a call of a callback: a
    call of [OnProgress] needs the progress callback to be set, the handing
    over of a snapshot needs [OnStats] to be set. *)
Definition asked (progress snapshot : bool) (e : event) : Prop :=
  match e with
  | CallOnProgress _ _ _ => progress = true
  | CallOnStats _ => snapshot = true
  | CallOnStatsX _ => snapshot = true
  | _ => True
  end.

(** The exclusion test [collectFiles] makes on a visited path: on its form
    relative to the parent of the source, and on the path itself. *)
Definition excludedPath (Match : string -> string -> bool)
  (source : string) (excludes : list string) (path : string) : bool :=
  shouldExclude Match
    (match filepath.Rel (filepath.Dir source) path with
     | Some r => r
     | None => path
     end) excludes
  || shouldExclude Match path excludes.

(** One more excluded path, the collected files as they were. *)
Definition countExcluded (c : collected) : collected :=
  mkCollected (files c) (totalSize c) (excludedCount c + 1).

(** ** Sample environments *)

(** An environment in which every call succeeds: [tree] is what [Stat] and
    [Lstat] show, [zfiles] and [entries] what the archive readers yield,
    [outSize] the size of the written output. *)
Definition calmEnv (tree : string -> result node) (zfiles : list zip_File)
  (entries : list tar_Header) (outSize : Z) : Env :=
  mkEnv tree tree (fun _ => None) (fun _ => None) (fun _ => None)
    (fun _ => Ok outSize) (fun _ => None) (fun _ => Ok zfiles)
    (fun _ => None) (fun _ => None) (fun _ => (entries, None))
    (fun _ => None) (fun _ => None) (fun _ => None) (fun _ => None).

(** A context that is never cancelled, and one cancelled once [n] entries
    have been processed. *)
Definition background : nat -> bool := fun _ => false.
Definition cancelledAfter (n : nat) : nat -> bool := fun i => (n <=? i)%nat.

(** A matcher for the patterns [*suffix], enough to run the examples. *)
Definition suffixGlob (pattern name : string) : bool :=
  match pattern with
  | String "*" suffix => strings.HasSuffix name suffix
  | _ => pattern =? name
  end.

(** A file tree with one regular file. *)
Definition oneFile (path : string) (size : Z) : string -> result node :=
  fun p => if p =? path then Ok (File (Some size)) else Fail "ENOENT".

(** The project tree of the exclusion example, under [/data/proj]. *)
Definition projTree (sub : list (string * node)) : node :=
  Dir 4096 None
    [("a.log", File (Some 10%Z)); ("keep.txt", File (Some 20%Z));
     ("node_modules", Dir 4096 None sub)].

Definition projFs (sub : list (string * node)) : string -> result node :=
  fun p => if p =? "/data/proj" then Ok (projTree sub) else Fail "ENOENT".

(** A sample compression: the file [/data/a.txt] of 1000 bytes zipped
    into 400 bytes, both callbacks set. *)
Definition sampleEnv : Env := calmEnv (oneFile "/data/a.txt" 1000) [] [] 400.

Definition sampleZipOptions : CompressOptions :=
  mkCompressOptions "/data/a.txt" "/data/a.zip" ".zip" [] true true.

Definition sampleZipRun
  : (option CompressStats * option error) * list event :=
  Compress suffixGlob background sampleEnv sampleZipOptions.

(** A directory of two pages and a log file, zipped without the log file,
    with [OnStats] set and no progress callback. *)
Definition siteFs : string -> result node :=
  fun p =>
    if p =? "/data/site" then
      Ok (Dir 4096 None
            [("a.txt", File (Some 1000%Z)); ("b.txt", File (Some 500%Z));
             ("c.log", File (Some 7%Z))])
    else Fail "ENOENT".

Definition siteEnv : Env := calmEnv siteFs [] [] 600.

Definition siteOptions : CompressOptions :=
  mkCompressOptions "/data/site" "/data/site.zip" ".zip" ["*.log"] false true.

(** A ZIP archive of 50 bytes whose second entry is named to leave the
    output root, extracted with [OnStats] set. *)
Definition leavingEnv : Env :=
  calmEnv (oneFile "a.zip" 50)
    [mkZipFile "x.txt" false 420 30; mkZipFile "../evil" false 420 20] [] 0.

Definition leavingOptions : ExtractOptions :=
  mkExtractOptions "a.zip" "/out" false true.

(** ** The configuration tables (package [config]) *)

Module config.

(** [DefaultExcludes] *)
Definition DefaultExcludes : list string :=
  ["venv"; ".venv"; "__pycache__"; "*.pyc"; "*.pyo";
   ".pytest_cache"; ".mypy_cache"; "*.egg-info"; ".eggs";
   "node_modules"; ".npm"; ".pnpm-store";
   ".idea"; ".vscode"; "*.swp"; "*.swo"; "*~";
   ".git";
   "dist"; "build"; "target"; "out";
   ".DS_Store"; "Thumbs.db"; "desktop.ini";
   "*.log"; ".cache"; ".temp"; ".tmp";
   "vendor";
   "target";
   ".gradle"; ".m2"].

Record ExcludeCategory : Type := mkExcludeCategory {
  Name : string;
  Patterns : list string;
  Selected : bool
}.

(** [GetExcludeCategories] *)
Definition GetExcludeCategories : list ExcludeCategory :=
  [mkExcludeCategory "Python 相关"
     ["venv"; ".venv"; "__pycache__"; "*.pyc"; "*.pyo"; ".pytest_cache";
      ".mypy_cache"; "*.egg-info"; ".eggs"] true;
   mkExcludeCategory "Node.js 相关" ["node_modules"; ".npm"; ".pnpm-store"]
     true;
   mkExcludeCategory "IDE/编辑器配置"
     [".idea"; ".vscode"; "*.swp"; "*.swo"; "*~"] true;
   mkExcludeCategory "Git 版本控制" [".git"] true;
   mkExcludeCategory "构建产物" ["dist"; "build"; "target"; "out"] true;
   mkExcludeCategory "系统文件" [".DS_Store"; "Thumbs.db"; "desktop.ini"]
     true;
   mkExcludeCategory "日志和缓存" ["*.log"; ".cache"; ".temp"; ".tmp"] true;
   mkExcludeCategory "Go 依赖" ["vendor"] true;
   mkExcludeCategory "Java/Gradle 相关" [".gradle"; ".m2"] true].

(** [ArchiveFormat]; its field [Name] is [FormatName] here, the name
    being taken by the field of [ExcludeCategory]. *)
Record ArchiveFormat : Type := mkArchiveFormat {
  FormatName : string;
  Extension : string;
  Description : string
}.

(** [GetArchiveFormats] *)
Definition GetArchiveFormats : list ArchiveFormat :=
  [mkArchiveFormat "ZIP" ".zip" "通用压缩格式，兼容性最好";
   mkArchiveFormat "TAR.GZ" ".tar.gz" "Linux 常用格式，压缩率中等";
   mkArchiveFormat "TAR.BZ2" ".tar.bz2" "压缩率较高，速度较慢";
   mkArchiveFormat "TAR.XZ" ".tar.xz" "压缩率最高，速度最慢";
   mkArchiveFormat "TAR.ZST" ".tar.zst"
     "Zstandard 压缩，速度和压缩率平衡";
   mkArchiveFormat "TAR.LZ4" ".tar.lz4" "LZ4 压缩，速度最快"].

End config.

(** ** The language of the interface (package [i18n]) *)

Module i18n.

Definition Language : Type := string.
Definition LangEN : Language := "en".
Definition LangZH : Language := "zh".

(** The loop of [detectSystemLanguage] over the names of the variables;
    [Getenv] is [os.Getenv]. *)
Fixpoint detectLoop (Getenv : string -> string) (envVars : list string)
  : Language :=
  match envVars with
  | [] => LangEN
  | env :: rest =>
      let val := Getenv env in
      if negb (val =? "") then
        let lowerVal := strings.ToLower val in
        if strings.HasPrefix lowerVal "zh"
           || strings.Contains lowerVal "chinese"
           || strings.Contains lowerVal "china"
        then LangZH
        else detectLoop Getenv rest
      else detectLoop Getenv rest
  end.

(** [detectSystemLanguage] *)
Definition detectSystemLanguage (Getenv : string -> string) : Language :=
  detectLoop Getenv ["LANGUAGE"; "LC_ALL"; "LC_MESSAGES"; "LANG"].

(** The package variable [currentLang] is threaded through [SetLanguage],
    [Init], [T] and [IsZH]. *)
Definition SetLanguage (lang : Language) (currentLang : Language)
  : Language := lang.

Definition Init (Getenv : string -> string) (currentLang : Language)
  : Language :=
  SetLanguage (detectSystemLanguage Getenv) currentLang.

(** The two message tables [T] can point to. *)
Inductive Messages : Type :=
| messagesEN
| messagesZH.

Definition T (currentLang : Language) : Messages :=
  if currentLang =? LangZH then messagesZH else messagesEN.

Definition IsZH (currentLang : Language) : bool := currentLang =? LangZH.

End i18n.

(** ** The interface (package [main]): the screens and their keys

    The model of the bubbletea program, with the fields its key handlers
    read and write; the styles, the spinner, the progress bar and the
    speed statistics are left out.  An index expression that is out of
    range panics: a handler answers [None] then.  The commands a handler
    returns are kept as values; the options of a started operation are
    the ones [startCompress] and [startExtract] build. *)

Module tui.

Inductive appState : Type :=
| stateSelectMode
| stateSelectFile
| stateSelectFormat
| stateSelectExcludes
| stateInputPassword
| stateConfirm
| stateCompressing
| stateExtracting
| stateDone
| stateError.

Inductive opMode : Type :=
| modeCompress
| modeExtract.

Record fileEntry : Type := mkFileEntry {
  name : string;
  path : string;
  isDir : bool;
  isArchive : bool;
  size : Z
}.

(** An [os.DirEntry] as [os.ReadDir] returns it; [deInfo] is the size
    [entry.Info()] reports, [None] when it fails. *)
Record DirEntry : Type := mkDirEntry {
  deName : string;
  deIsDir : bool;
  deInfo : option Z
}.

(** What the interface asks of the outside world. *)
Record World : Type := mkWorld {
  Getwd : result string;
  ReadDir : string -> result (list DirEntry);
  Is7zAvailable : bool
}.

Record model : Type := mkModel {
  state : appState;
  mode : opMode;
  modeCursor : Z;
  entries : list fileEntry;
  cursor : Z;
  cwd : string;
  formatCursor : Z;
  formats : list config.ArchiveFormat;
  excludeCategories : list config.ExcludeCategory;
  excludeCursor : Z;
  selectedPath : string;
  selectedFormat : config.ArchiveFormat;
  outputPath : string;
  password : string;
  passwordInput : string;
  usePassword : bool;
  passwordCursor : Z;
  errorMsg : string
}.

(** Assignments to the fields of the model. *)
Definition set_state (m : model) (v : appState) : model :=
  mkModel v (mode m) (modeCursor m) (entries m) (cursor m) (cwd m)
    (formatCursor m) (formats m) (excludeCategories m) (excludeCursor m)
    (selectedPath m) (selectedFormat m) (outputPath m) (password m)
    (passwordInput m) (usePassword m) (passwordCursor m) (errorMsg m).

Definition set_mode (m : model) (v : opMode) : model :=
  mkModel (state m) v (modeCursor m) (entries m) (cursor m) (cwd m)
    (formatCursor m) (formats m) (excludeCategories m) (excludeCursor m)
    (selectedPath m) (selectedFormat m) (outputPath m) (password m)
    (passwordInput m) (usePassword m) (passwordCursor m) (errorMsg m).

Definition set_modeCursor (m : model) (v : Z) : model :=
  mkModel (state m) (mode m) v (entries m) (cursor m) (cwd m) (formatCursor m)
    (formats m) (excludeCategories m) (excludeCursor m) (selectedPath m)
    (selectedFormat m) (outputPath m) (password m) (passwordInput m)
    (usePassword m) (passwordCursor m) (errorMsg m).

Definition set_entries (m : model) (v : list fileEntry) : model :=
  mkModel (state m) (mode m) (modeCursor m) v (cursor m) (cwd m)
    (formatCursor m) (formats m) (excludeCategories m) (excludeCursor m)
    (selectedPath m) (selectedFormat m) (outputPath m) (password m)
    (passwordInput m) (usePassword m) (passwordCursor m) (errorMsg m).

Definition set_cursor (m : model) (v : Z) : model :=
  mkModel (state m) (mode m) (modeCursor m) (entries m) v (cwd m)
    (formatCursor m) (formats m) (excludeCategories m) (excludeCursor m)
    (selectedPath m) (selectedFormat m) (outputPath m) (password m)
    (passwordInput m) (usePassword m) (passwordCursor m) (errorMsg m).

Definition set_cwd (m : model) (v : string) : model :=
  mkModel (state m) (mode m) (modeCursor m) (entries m) (cursor m) v
    (formatCursor m) (formats m) (excludeCategories m) (excludeCursor m)
    (selectedPath m) (selectedFormat m) (outputPath m) (password m)
    (passwordInput m) (usePassword m) (passwordCursor m) (errorMsg m).

Definition set_formatCursor (m : model) (v : Z) : model :=
  mkModel (state m) (mode m) (modeCursor m) (entries m) (cursor m) (cwd m) v
    (formats m) (excludeCategories m) (excludeCursor m) (selectedPath m)
    (selectedFormat m) (outputPath m) (password m) (passwordInput m)
    (usePassword m) (passwordCursor m) (errorMsg m).

Definition set_excludeCategories (m : model) (v : list config.ExcludeCategory) : model :=
  mkModel (state m) (mode m) (modeCursor m) (entries m) (cursor m) (cwd m)
    (formatCursor m) (formats m) v (excludeCursor m) (selectedPath m)
    (selectedFormat m) (outputPath m) (password m) (passwordInput m)
    (usePassword m) (passwordCursor m) (errorMsg m).

Definition set_excludeCursor (m : model) (v : Z) : model :=
  mkModel (state m) (mode m) (modeCursor m) (entries m) (cursor m) (cwd m)
    (formatCursor m) (formats m) (excludeCategories m) v (selectedPath m)
    (selectedFormat m) (outputPath m) (password m) (passwordInput m)
    (usePassword m) (passwordCursor m) (errorMsg m).

Definition set_selectedPath (m : model) (v : string) : model :=
  mkModel (state m) (mode m) (modeCursor m) (entries m) (cursor m) (cwd m)
    (formatCursor m) (formats m) (excludeCategories m) (excludeCursor m) v
    (selectedFormat m) (outputPath m) (password m) (passwordInput m)
    (usePassword m) (passwordCursor m) (errorMsg m).

Definition set_selectedFormat (m : model) (v : config.ArchiveFormat) : model :=
  mkModel (state m) (mode m) (modeCursor m) (entries m) (cursor m) (cwd m)
    (formatCursor m) (formats m) (excludeCategories m) (excludeCursor m)
    (selectedPath m) v (outputPath m) (password m) (passwordInput m)
    (usePassword m) (passwordCursor m) (errorMsg m).

Definition set_outputPath (m : model) (v : string) : model :=
  mkModel (state m) (mode m) (modeCursor m) (entries m) (cursor m) (cwd m)
    (formatCursor m) (formats m) (excludeCategories m) (excludeCursor m)
    (selectedPath m) (selectedFormat m) v (password m) (passwordInput m)
    (usePassword m) (passwordCursor m) (errorMsg m).

Definition set_password (m : model) (v : string) : model :=
  mkModel (state m) (mode m) (modeCursor m) (entries m) (cursor m) (cwd m)
    (formatCursor m) (formats m) (excludeCategories m) (excludeCursor m)
    (selectedPath m) (selectedFormat m) (outputPath m) v (passwordInput m)
    (usePassword m) (passwordCursor m) (errorMsg m).

Definition set_passwordInput (m : model) (v : string) : model :=
  mkModel (state m) (mode m) (modeCursor m) (entries m) (cursor m) (cwd m)
    (formatCursor m) (formats m) (excludeCategories m) (excludeCursor m)
    (selectedPath m) (selectedFormat m) (outputPath m) (password m) v
    (usePassword m) (passwordCursor m) (errorMsg m).

Definition set_usePassword (m : model) (v : bool) : model :=
  mkModel (state m) (mode m) (modeCursor m) (entries m) (cursor m) (cwd m)
    (formatCursor m) (formats m) (excludeCategories m) (excludeCursor m)
    (selectedPath m) (selectedFormat m) (outputPath m) (password m)
    (passwordInput m) v (passwordCursor m) (errorMsg m).

Definition set_passwordCursor (m : model) (v : Z) : model :=
  mkModel (state m) (mode m) (modeCursor m) (entries m) (cursor m) (cwd m)
    (formatCursor m) (formats m) (excludeCategories m) (excludeCursor m)
    (selectedPath m) (selectedFormat m) (outputPath m) (password m)
    (passwordInput m) (usePassword m) v (errorMsg m).

Definition set_errorMsg (m : model) (v : string) : model :=
  mkModel (state m) (mode m) (modeCursor m) (entries m) (cursor m) (cwd m)
    (formatCursor m) (formats m) (excludeCategories m) (excludeCursor m)
    (selectedPath m) (selectedFormat m) (outputPath m) (password m)
    (passwordInput m) (usePassword m) (passwordCursor m) v.
(** [s[i]]: out of range is a panic. *)
Definition index {A : Type} (s : list A) (i : Z) : option A :=
  if (i <? 0)%Z then None else nth_error s (Z.to_nat i).

(** [s[i] = v] for an index in range. *)
Fixpoint assign {A : Type} (s : list A) (i : nat) (v : A) : list A :=
  match s, i with
  | [], _ => []
  | _ :: rest, O => v :: rest
  | x :: rest, S i' => x :: assign rest i' v
  end.

Definition len {A : Type} (s : list A) : Z := Z.of_nat (List.length s).

(** The messages [Update] is given: a key, the end of an operation with
    its error, or a message that touches none of the modelled fields
    (window size, spinner, progress, tick). *)
Inductive msg : Type :=
| KeyMsg (key : string)
| compressDoneMsg (err : option string)
| extractDoneMsg (err : option string)
| otherMsg.

(** The commands [Update] returns. *)
Inductive cmd : Type :=
| cmdNone
| cmdQuit
| cmdStartCompress (Source Output Format : string) (Excludes : list string)
    (Password : string)
| cmdStartExtract (Source Output Password : string).

(** [newModel] *)
Definition newModel (w : World) : model :=
  mkModel stateSelectMode modeCompress 0 [] 0
    (match Getwd w with
     | Ok d => d
     | Fail _ => "/"
     end)
    0 config.GetArchiveFormats config.GetExcludeCategories 0 ""
    (config.mkArchiveFormat "" "" "") "" "" "" false 0 "".

(** One turn of the loop of [loadEntries] over the directory entries:
    hidden entries and entries without file information are skipped; the
    others go to the directories, the archives or the plain files. *)
Definition loadEntry (dir : string) (entry : DirEntry)
  (acc : list fileEntry * list fileEntry * list fileEntry)
  : list fileEntry * list fileEntry * list fileEntry :=
  let '(dirs, archives, files) := acc in
  if strings.HasPrefix (deName entry) "." then acc
  else
    match deInfo entry with
    | None => acc
    | Some infoSize =>
        let fe :=
          mkFileEntry (deName entry) (filepath.Join [dir; deName entry])
            (deIsDir entry)
            (if deIsDir entry then false else IsArchiveFile (deName entry))
            (if deIsDir entry then 0%Z else infoSize) in
        if deIsDir entry then ((dirs ++ [fe])%list, archives, files)
        else if isArchive fe then (dirs, (archives ++ [fe])%list, files)
        else (dirs, archives, (files ++ [fe])%list)
    end.

(** [loadEntries]; when the directory cannot be read the list is left
    empty and the cursor is not reset. *)
Definition loadEntries (w : World) (m : model) : model :=
  let m := set_entries m [] in
  match ReadDir w (cwd m) with
  | Fail _ => m
  | Ok listed =>
      let '(dirs, archives, files) :=
        fold_left (fun acc entry => loadEntry (cwd m) entry acc) listed
          ([], [], []) in
      let m :=
        match mode m with
        | modeExtract => set_entries m ((archives ++ dirs) ++ files)%list
        | modeCompress => set_entries m ((dirs ++ archives) ++ files)%list
        end in
      set_cursor m 0
  end.

(** [updateSelectMode] *)
Definition updateSelectMode (w : World) (key : string) (m : model)
  : option (model * cmd) :=
  if (key =? "q") || (key =? "esc") then Some (m, cmdQuit)
  else if (key =? "up") || (key =? "k") then
    Some (if (modeCursor m >? 0)%Z then set_modeCursor m (modeCursor m - 1)
          else m, cmdNone)
  else if (key =? "down") || (key =? "j") then
    Some (if (modeCursor m <? 1)%Z then set_modeCursor m (modeCursor m + 1)
          else m, cmdNone)
  else if (key =? "enter") || (key =? " ") then
    let m :=
      if (modeCursor m =? 0)%Z then set_mode m modeCompress
      else set_mode m modeExtract in
    let m := set_state m stateSelectFile in
    Some (loadEntries w m, cmdNone)
  else Some (m, cmdNone).

(** The test that ends the loop which strips the extensions of an archive
    name in [updateSelectFile]. *)
Definition stops (ext : string) : bool :=
  (ext =? "")
  || (negb (strings.HasPrefix ext ".tar")
      && negb (ext =? ".zip") && negb (ext =? ".gz") && negb (ext =? ".bz2")
      && negb (ext =? ".xz") && negb (ext =? ".zst") && negb (ext =? ".lz4")
      && negb (ext =? ".tgz") && negb (ext =? ".tbz2")
      && negb (ext =? ".txz") && negb (ext =? ".7z")).

(** The loop itself, for at most [fuel] turns; [None] when the turns are
    used up before the test ends it. *)
Fixpoint stripLoop (fuel : nat) (baseName : string) : option string :=
  match fuel with
  | O => None
  | S fuel' =>
      let ext := filepath.Ext baseName in
      if stops ext then Some baseName
      else stripLoop fuel' (strings.TrimSuffix baseName ext)
  end.

(** Every turn removes at least one byte, so one turn more than the name
    has bytes is enough ([stripLoop_ends]). *)
Definition stripExtensions (baseName : string) : string :=
  match stripLoop (S (String.length baseName)) baseName with
  | Some stripped => stripped
  | None => baseName
  end.

(** [updateSelectFile] *)
Definition updateSelectFile (w : World) (key : string) (m : model)
  : option (model * cmd) :=
  if (key =? "q") || (key =? "esc") then
    Some (set_state m stateSelectMode, cmdNone)
  else if (key =? "up") || (key =? "k") then
    Some (if (cursor m >? 0)%Z then set_cursor m (cursor m - 1) else m,
          cmdNone)
  else if (key =? "down") || (key =? "j") then
    Some (if (cursor m <? len (entries m) - 1)%Z
          then set_cursor m (cursor m + 1) else m, cmdNone)
  else if (key =? "enter") || (key =? "l") then
    if (len (entries m) >? 0)%Z then
      match index (entries m) (cursor m) with
      | None => None
      | Some entry =>
          if isDir entry then
            Some (loadEntries w (set_cwd m (path entry)), cmdNone)
          else Some (m, cmdNone)
      end
    else Some (m, cmdNone)
  else if (key =? "backspace") || (key =? "h") then
    let parent := filepath.Dir (cwd m) in
    if negb (parent =? cwd m) then
      Some (loadEntries w (set_cwd m parent), cmdNone)
    else Some (m, cmdNone)
  else if key =? " " then
    if (len (entries m) >? 0)%Z then
      match index (entries m) (cursor m) with
      | None => None
      | Some entry =>
          let m := set_selectedPath m (path entry) in
          match mode m with
          | modeExtract =>
              if isArchive entry then
                let baseName := stripExtensions (filepath.Base (path entry)) in
                let m :=
                  set_outputPath m
                    (filepath.Join [filepath.Dir (path entry); baseName]) in
                let format := DetectArchiveFormat (path entry) in
                if (format =? ".zip") || (format =? ".7z") then
                  let m := set_state m stateInputPassword in
                  let m := set_passwordCursor m 0 in
                  Some (set_passwordInput m "", cmdNone)
                else Some (set_state m stateConfirm, cmdNone)
              else Some (m, cmdNone)
          | modeCompress => Some (set_state m stateSelectFormat, cmdNone)
          end
      end
    else Some (m, cmdNone)
  else Some (m, cmdNone).

(** The line feed, and the message of the error screen when the [7z]
    command is missing. *)
Definition lf : string := String (ascii_of_nat 10) "".

Definition notFound7z : string :=
  "7z command not found. Please install p7zip:" ++ lf
  ++ "  - Ubuntu/Debian: sudo apt install p7zip-full" ++ lf
  ++ "  - macOS: brew install p7zip" ++ lf
  ++ "  - Windows: Download from https://www.7-zip.org/".

(** [updateSelectFormat] *)
Definition updateSelectFormat (w : World) (key : string) (m : model)
  : option (model * cmd) :=
  if (key =? "q") || (key =? "esc") then
    Some (set_state m stateSelectFile, cmdNone)
  else if (key =? "up") || (key =? "k") then
    Some (if (formatCursor m >? 0)%Z
          then set_formatCursor m (formatCursor m - 1) else m, cmdNone)
  else if (key =? "down") || (key =? "j") then
    Some (if (formatCursor m <? len (formats m) - 1)%Z
          then set_formatCursor m (formatCursor m + 1) else m, cmdNone)
  else if (key =? "enter") || (key =? " ") then
    match index (formats m) (formatCursor m) with
    | None => None
    | Some format =>
        let m := set_selectedFormat m format in
        if (config.Extension (selectedFormat m) =? ".7z")
           && negb (Is7zAvailable w)
        then
          let m := set_state m stateError in
          Some (set_errorMsg m notFound7z, cmdNone)
        else
          let m :=
            set_outputPath m
              (selectedPath m ++ config.Extension (selectedFormat m)) in
          Some (set_state m stateSelectExcludes, cmdNone)
    end
  else Some (m, cmdNone).

Definition setSelected (v : bool) (cat : config.ExcludeCategory)
  : config.ExcludeCategory :=
  config.mkExcludeCategory (config.Name cat) (config.Patterns cat) v.

(** [updateSelectExcludes] *)
Definition updateSelectExcludes (key : string) (m : model)
  : option (model * cmd) :=
  if (key =? "q") || (key =? "esc") then
    Some (set_state m stateSelectFormat, cmdNone)
  else if (key =? "up") || (key =? "k") then
    Some (if (excludeCursor m >? 0)%Z
          then set_excludeCursor m (excludeCursor m - 1) else m, cmdNone)
  else if (key =? "down") || (key =? "j") then
    Some (if (excludeCursor m <? len (excludeCategories m) - 1)%Z
          then set_excludeCursor m (excludeCursor m + 1) else m, cmdNone)
  else if key =? " " then
    match index (excludeCategories m) (excludeCursor m) with
    | None => None
    | Some cat =>
        Some (set_excludeCategories m
                (assign (excludeCategories m) (Z.to_nat (excludeCursor m))
                   (setSelected (negb (config.Selected cat)) cat)),
              cmdNone)
    end
  else if key =? "a" then
    Some (set_excludeCategories m
            (map (setSelected true) (excludeCategories m)), cmdNone)
  else if key =? "n" then
    Some (set_excludeCategories m
            (map (setSelected false) (excludeCategories m)), cmdNone)
  else if key =? "enter" then
    if config.Extension (selectedFormat m) =? ".zip" then
      let m := set_state m stateInputPassword in
      Some (set_passwordCursor m 0, cmdNone)
    else Some (set_state m stateConfirm, cmdNone)
  else Some (m, cmdNone).

(** [s[:len(s)-1]] *)
Definition dropLast (s : string) : string :=
  substring 0 (String.length s - 1) s.

(** [updateInputPassword] *)
Definition updateInputPassword (key : string) (m : model)
  : option (model * cmd) :=
  match mode m with
  | modeExtract =>
      if (key =? "q") || (key =? "esc") then
        let m := set_state m stateSelectFile in
        let m := set_passwordInput m "" in
        Some (set_password m "", cmdNone)
      else if key =? "enter" then
        let m := set_password m (passwordInput m) in
        Some (set_state m stateConfirm, cmdNone)
      else if key =? "backspace" then
        Some (if (0 <? String.length (passwordInput m))%nat
              then set_passwordInput m (dropLast (passwordInput m)) else m,
              cmdNone)
      else
        Some (if (String.length key =? 1)%nat
              then set_passwordInput m (passwordInput m ++ key) else m,
              cmdNone)
  | modeCompress =>
      if (key =? "q") || (key =? "esc") then
        let m := set_state m stateSelectExcludes in
        let m := set_passwordInput m "" in
        Some (set_usePassword m false, cmdNone)
      else if (key =? "up") || (key =? "k") then
        Some (if (passwordCursor m >? 0)%Z
              then set_passwordCursor m (passwordCursor m - 1) else m,
              cmdNone)
      else if (key =? "down") || (key =? "j") then
        Some (if (passwordCursor m <? 1)%Z
              then set_passwordCursor m (passwordCursor m + 1) else m,
              cmdNone)
      else if key =? "enter" then
        if (passwordCursor m =? 0)%Z then
          let m := set_usePassword m false in
          let m := set_password m "" in
          Some (set_state m stateConfirm, cmdNone)
        else if passwordInput m =? "" then Some (m, cmdNone)
        else
          let m := set_usePassword m true in
          let m := set_password m (passwordInput m) in
          Some (set_state m stateConfirm, cmdNone)
      else if key =? "backspace" then
        Some (if (passwordCursor m =? 1)%Z
                 && (0 <? String.length (passwordInput m))%nat
              then set_passwordInput m (dropLast (passwordInput m)) else m,
              cmdNone)
      else
        Some (if (passwordCursor m =? 1)%Z && (String.length key =? 1)%nat
              then set_passwordInput m (passwordInput m ++ key) else m,
              cmdNone)
  end.

(** The loop of [startCompress] that gathers the patterns of the selected
    categories. *)
Fixpoint collectExcludes (cats : list config.ExcludeCategory)
  (excludes : list string) : list string :=
  match cats with
  | [] => excludes
  | cat :: rest =>
      collectExcludes rest
        (if config.Selected cat then (excludes ++ config.Patterns cat)%list
         else excludes)
  end.

(** The command of [startCompress] and of [startExtract]: the options
    they hand to the engine. *)
Definition startCompress (m : model) : cmd :=
  cmdStartCompress (selectedPath m) (outputPath m)
    (config.Extension (selectedFormat m))
    (collectExcludes (excludeCategories m) []) (password m).

Definition startExtract (m : model) : cmd :=
  cmdStartExtract (selectedPath m) (outputPath m) (password m).

(** [updateConfirm] *)
Definition updateConfirm (key : string) (m : model) : option (model * cmd) :=
  if (key =? "q") || (key =? "esc") || (key =? "n") then
    match mode m with
    | modeExtract =>
        let format := DetectArchiveFormat (selectedPath m) in
        if (format =? ".zip") || (format =? ".7z") then
          Some (set_state m stateInputPassword, cmdNone)
        else Some (set_state m stateSelectFile, cmdNone)
    | modeCompress =>
        if config.Extension (selectedFormat m) =? ".zip" then
          Some (set_state m stateInputPassword, cmdNone)
        else Some (set_state m stateSelectExcludes, cmdNone)
    end
  else if (key =? "y") || (key =? "enter") then
    match mode m with
    | modeExtract =>
        let m := set_state m stateExtracting in Some (m, startExtract m)
    | modeCompress =>
        let m := set_state m stateCompressing in Some (m, startCompress m)
    end
  else Some (m, cmdNone).

(** [Update], on the modelled fields. *)
Definition Update (w : World) (message : msg) (m : model)
  : option (model * cmd) :=
  match message with
  | KeyMsg key =>
      if key =? "ctrl+c" then Some (m, cmdQuit)
      else
        match state m with
        | stateSelectMode => updateSelectMode w key m
        | stateSelectFile => updateSelectFile w key m
        | stateSelectFormat => updateSelectFormat w key m
        | stateSelectExcludes => updateSelectExcludes key m
        | stateInputPassword => updateInputPassword key m
        | stateConfirm => updateConfirm key m
        | stateDone | stateError =>
            if (key =? "q") || (key =? "esc") || (key =? "enter")
            then Some (m, cmdQuit) else Some (m, cmdNone)
        | stateCompressing | stateExtracting => Some (m, cmdNone)
        end
  | compressDoneMsg err | extractDoneMsg err =>
      match err with
      | Some e => Some (set_errorMsg (set_state m stateError) e, cmdNone)
      | None => Some (set_state m stateDone, cmdNone)
      end
  | otherMsg => Some (m, cmdNone)
  end.

(** The program run on a list of messages: it ends at the first quit
    command; [None] is a panic.  The commands are returned in order. *)
Fixpoint run (w : World) (messages : list msg) (m : model)
  : option (model * list cmd) :=
  match messages with
  | [] => Some (m, [])
  | message :: rest =>
      match Update w message m with
      | None => None
      | Some (m', cmdQuit) => Some (m', [cmdQuit])
      | Some (m', c) =>
          match run w rest m' with
          | None => None
          | Some (m'', cs) => Some (m'', c :: cs)
          end
      end
  end.

End tui.

(** An induction principle for [node] that reaches the entries of a
    directory. *)
Section NodeInduction.

Variable P : node -> Prop.
Hypothesis HFile : forall info, P (File info).
Hypothesis HDir :
  forall size readErr entries,
    Forall (fun e => P (snd e)) entries -> P (Dir size readErr entries).

Fixpoint node_ind_entries (d : node) : P d :=
  match d with
  | File info => HFile info
  | Dir size readErr entries =>
      HDir size readErr entries
        ((fix all (es : list (string * node))
            : Forall (fun e => P (snd e)) es :=
            match es with
            | [] => Forall_nil _
            | (name, d1) :: es' =>
                Forall_cons (name, d1) (node_ind_entries d1) (all es')
            end) entries)
  end.

End NodeInduction.

(** ** Further vocabulary of the engine *)

(** The event of the TAR loop that stands where the ZIP loop has an event:
    the header of an entry is written by [WriteHeader] instead of
    [CreateHeader]; every other event is the same. *)
Definition asTar (e : event) : event :=
  match e with
  | ZipCreateHeader h => TarWriteHeader (zhName h)
  | _ => e
  end.

(** The archive names of the entries whose bytes were copied in full. *)
Fixpoint copiedNames (tr : list event) : list string :=
  match tr with
  | [] => []
  | CopyIn name :: rest => name :: copiedNames rest
  | _ :: rest => copiedNames rest
  end.

(** The path at which an event creates a file, writes into one, or makes
    a symbolic link. *)
Definition madeAt (e : event) : option string :=
  match e with
  | OpenFile p _ => Some p
  | CopyOut p _ => Some p
  | Symlink _ p => Some p
  | _ => None
  end.

Definition isClose (e : event) : Prop :=
  match e with
  | CloseWriter _ => True
  | _ => False
  end.

(** The statistics [Compress] starts an adapter with. *)
Definition initialStats (fs : list string) (size excluded : Z)
  : CompressStats :=
  mkCompressStats (Z.of_nat (List.length fs)) 0 size 0 excluded "" 0%float.

(** The errors [Compress] returns before it selects an adapter. *)
Definition beforeAdapter (format : string) (e : error) : Prop :=
  (exists cause, e = ErrSourceMissing cause)
  \/ (exists cause, e = ErrCollect cause)
  \/ e = ErrNoFiles
  \/ e = ErrUnsupportedFormat format.

(** The environment with another answer to [os.Symlink]. *)
Definition setOsSymlink (env : Env) (f : string -> option oserr) : Env :=
  mkEnv (Stat env) (Lstat env) (Create env) (NewWriter env) (AddFault env)
    (StatOutputSize env) (OsMkdirAll env) (ZipOpenReader env) (OsOpen env)
    (NewReader env) (TarEntries env) (ZipFileOpen env) (OsOpenFile env)
    (IoCopy env) f.

(** The format tags [DetectArchiveFormat] can answer. *)
Definition formatTags : list string :=
  [".zip"; ".tar.gz"; ".tar.bz2"; ".tar.xz"; ".tar.zst"; ".tar.lz4"; ".tar"].



(** An event that creates nothing, or creates at a path whose cleaned
    form starts with the cleaned output root. *)
Definition keepsPrefix (output : string) (e : event) : Prop :=
  forall p, madeAt e = Some p ->
    strings.HasPrefix (filepath.Clean p) (filepath.Clean output) = true.

(** What the callbacks of an extraction are told about the total: the
    progress callback gets [total], the snapshots carry [files]. *)
Definition reportsTotal (total files : Z) (e : event) : Prop :=
  match e with
  | CallOnProgress _ t _ => t = total
  | CallOnStatsX s => xTotalFiles s = files
  | _ => True
  end.



(** The last [k] bytes of a string, last byte first. *)
Definition ending (k : nat) (s : string) : list ascii :=
  firstn k (rev (list_ascii_of_string s)).

(** The output path the format screen of the interface builds:
    [m.selectedPath + m.selectedFormat.Extension]. *)
Definition outputPathFor (selectedPath : string) (f : config.ArchiveFormat)
  : string :=
  selectedPath ++ config.Extension f.

(** An error of [Extract] that reports an unsupported archive. *)
Definition isUnsupportedArchive (e : error) : bool :=
  match e with
  | ErrUnsupportedArchive _ => true
  | _ => false
  end.

(** A value of a locale variable that names Chinese: lower-cased, it
    starts with [zh] or holds [chinese] or [china]. *)
Definition namesChinese (val : string) : Prop :=
  let lowerVal := strings.ToLower val in
  (exists back, lowerVal = "zh" ++ back)
  \/ (exists front back, lowerVal = front ++ "chinese" ++ back)
  \/ (exists front back, lowerVal = front ++ "china" ++ back).

(** The variables [detectSystemLanguage] reads. *)
Definition localeVariables : list string :=
  ["LANGUAGE"; "LC_ALL"; "LC_MESSAGES"; "LANG"].

(** A sample of [os.Getenv]: an English [LANGUAGE] and a Chinese [LANG]. *)
Definition sampleGetenv (variable : string) : string :=
  if variable =? "LANGUAGE" then "en_US:en"
  else if variable =? "LANG" then "zh_CN.UTF-8"
  else "".

(** A directory entry the file screen shows: not hidden, and with file
    information. *)
Definition listable (entry : tui.DirEntry) : bool :=
  negb (strings.HasPrefix (tui.deName entry) ".")
  && match tui.deInfo entry with
     | Some _ => true
     | None => false
     end.

(** The line of the file screen for a directory entry of [dir]. *)
Definition entryOf (dir : string) (entry : tui.DirEntry) : tui.fileEntry :=
  tui.mkFileEntry (tui.deName entry)
    (filepath.Join [dir; tui.deName entry]) (tui.deIsDir entry)
    (negb (tui.deIsDir entry) && IsArchiveFile (tui.deName entry))
    (if tui.deIsDir entry then 0%Z
     else match tui.deInfo entry with
          | Some n => n
          | None => 0%Z
          end).

Definition plainFile (fe : tui.fileEntry) : bool :=
  negb (tui.isDir fe) && negb (tui.isArchive fe).

(** A sample directory: a hidden file, a directory, a text file and an
    archive. *)
Definition sampleListing : list tui.DirEntry :=
  [tui.mkDirEntry ".git" true (Some 4096%Z);
   tui.mkDirEntry "notes.txt" false (Some 12%Z);
   tui.mkDirEntry "old.tar.gz" false (Some 300%Z);
   tui.mkDirEntry "src" true (Some 4096%Z)].

Definition sampleWorld : tui.World :=
  tui.mkWorld (Ok "/home/u")
    (fun dir => if dir =? "/home/u" then Ok sampleListing else Fail "ENOENT")
    false.

(** The cursors of the screens point into their lists; the cursor of the
    file screen may point anywhere when the list is empty. *)
Definition cursorsInRange (m : tui.model) : Prop :=
  (0 <= tui.modeCursor m <= 1)%Z
  /\ (0 <= tui.cursor m)%Z
  /\ (tui.entries m <> [] -> (tui.cursor m < tui.len (tui.entries m))%Z)
  /\ (0 <= tui.formatCursor m < tui.len (tui.formats m))%Z
  /\ (0 <= tui.excludeCursor m < tui.len (tui.excludeCategories m))%Z
  /\ (0 <= tui.passwordCursor m <= 1)%Z.

(** The menu of formats is the one of the configuration, and the
    categories have its names and patterns (their selection may differ). *)
Definition tablesKept (m : tui.model) : Prop :=
  tui.formats m = config.GetArchiveFormats
  /\ map config.Name (tui.excludeCategories m)
     = map config.Name config.GetExcludeCategories
  /\ map config.Patterns (tui.excludeCategories m)
     = map config.Patterns config.GetExcludeCategories.

(** A line of the file screen as [loadEntries] makes it. *)
Definition listedEntry (fe : tui.fileEntry) : Prop :=
  (exists dir, tui.path fe = filepath.Join [dir; tui.name fe])
  /\ strings.HasPrefix (tui.name fe) "." = false
  /\ tui.isArchive fe = negb (tui.isDir fe) && IsArchiveFile (tui.name fe).

(** What has been chosen when compressing, past the format screen. *)
Definition compressChoice (m : tui.model) : Prop :=
  In (tui.selectedFormat m) (tui.formats m)
  /\ tui.outputPath m
     = tui.selectedPath m ++ config.Extension (tui.selectedFormat m).

(** What has been chosen when extracting, past the file screen. *)
Definition extractChoice (m : tui.model) : Prop :=
  (exists dir name,
     tui.selectedPath m = filepath.Join [dir; name]
     /\ strings.HasPrefix name "." = false
     /\ IsArchiveFile name = true)
  /\ tui.outputPath m
     = filepath.Join
         [filepath.Dir (tui.selectedPath m);
          tui.stripExtensions (filepath.Base (tui.selectedPath m))].

(** The screen and the mode fit together, and the choices the screen
    relies on have been made. *)
Definition screensAgree (m : tui.model) : Prop :=
  match tui.state m, tui.mode m with
  | tui.stateSelectFormat, tui.modeExtract => False
  | tui.stateSelectExcludes, tui.modeExtract => False
  | tui.stateSelectExcludes, tui.modeCompress => compressChoice m
  | tui.stateInputPassword, tui.modeCompress => compressChoice m
  | tui.stateConfirm, tui.modeCompress => compressChoice m
  | tui.stateInputPassword, tui.modeExtract => extractChoice m
  | tui.stateConfirm, tui.modeExtract => extractChoice m
  | _, _ => True
  end.

(** A string without the byte [q]. *)
Definition noQuit (s : string) : Prop := strings.Contains s "q" = false.

(** What holds of the model after any messages. *)
Definition wizardInv (m : tui.model) : Prop :=
  cursorsInRange m
  /\ tablesKept m
  /\ Forall listedEntry (tui.entries m)
  /\ screensAgree m
  /\ noQuit (tui.passwordInput m)
  /\ noQuit (tui.password m).

(** What holds of a command that starts an operation. *)
Definition launchOk (c : tui.cmd) : Prop :=
  match c with
  | tui.cmdStartCompress source output format excludes pw =>
      In format (map config.Extension config.GetArchiveFormats)
      /\ output = source ++ format
      /\ incl excludes config.DefaultExcludes
      /\ noQuit pw
  | tui.cmdStartExtract source output pw =>
      (exists dir name,
         source = filepath.Join [dir; name]
         /\ strings.HasPrefix name "." = false
         /\ IsArchiveFile name = true)
      /\ output
         = filepath.Join
             [filepath.Dir source;
              tui.stripExtensions (filepath.Base source)]
      /\ noQuit pw
  | _ => True
  end.

(** A handler answers without a panic, keeps what holds of the model, and
    starts an operation only with options as they should be. *)
Definition stepOk (r : option (tui.model * tui.cmd)) : Prop :=
  exists m' c, r = Some (m', c) /\ wizardInv m' /\ launchOk c.


(** The keys that compress the sample directory as [.tar.gz] with no
    category selected. *)
Definition compressKeys : list tui.msg :=
  [tui.KeyMsg "enter"; tui.KeyMsg " "; tui.KeyMsg "down"; tui.KeyMsg "enter";
   tui.KeyMsg "n"; tui.KeyMsg "enter"; tui.KeyMsg "y"].

(** A project directory that lies below a directory named [build]. *)
Definition buildFs : string -> result node :=
  fun p =>
    if p =? "/home/u/build/proj"
    then Ok (Dir 4096 None [("main.go", File (Some 10%Z))])
    else Fail "ENOENT".

Definition buildOptions : CompressOptions :=
  mkCompressOptions "/home/u/build/proj" "/home/u/build/proj.zip" ".zip"
    config.DefaultExcludes false false.


(** The sample environment in which [/data/b.txt] cannot be opened. *)
Definition faultyEnv : Env :=
  mkEnv (Stat sampleEnv) (Lstat sampleEnv) (Create sampleEnv)
    (NewWriter sampleEnv)
    (fun f => if f =? "/data/b.txt" then Some (AtOpen, "EACCES") else None)
    (StatOutputSize sampleEnv) (OsMkdirAll sampleEnv)
    (ZipOpenReader sampleEnv) (OsOpen sampleEnv) (NewReader sampleEnv)
    (TarEntries sampleEnv) (ZipFileOpen sampleEnv) (OsOpenFile sampleEnv)
    (IoCopy sampleEnv) (OsSymlink sampleEnv).

(** ** The password of a request

    The engine as given (package [archiver]) has no password: its
    [CompressOptions] and [ExtractOptions] declare none, [addFileToZip]
    sets [zip.Deflate] on every header, and none of its errors reports a
    wrong password.  Its caller, [main.go], sets a [Password] in both
    option structs ([startCompress], [startExtract]), so the adapters that
    read it belong to the repository but are not among the sources; what
    the specification says of them is modelled here, on top of the
    pipeline above. *)

(** Modelled from the spec: how an adapter stores the bytes of an entry.
    Missing from the sources: the ZIP writer that encrypts.  The
    specification (4.5) names "native ZIP per-entry deflate/AES".
    Encryption is symbolic: [Aes256 password content] is [content]
    encrypted with AES-256 under [password], and only that password
    decrypts it. *)
Inductive stored : Type :=
| InClear (content : string)
| Aes256 (password content : string).

(** Modelled from the spec: the compression request with its optional
    password (3, "source path, output path, target format tag, ordered
    list of ExcludePattern, optional password").  Missing from the
    sources: the [Password] field of [CompressOptions]. *)
Record CompressionRequest : Type := mkCompressionRequest {
  options : CompressOptions;
  Password : option string
}.

(** Modelled from the spec: the extraction request with its optional
    password (3, "source archive path, output directory, optional
    password").  Missing from the sources: the [Password] field of
    [ExtractOptions]. *)
Record ExtractionRequest : Type := mkExtractionRequest {
  xoptions : ExtractOptions;
  xPassword : option string
}.

(** Modelled from the spec: what the writer an adapter opens with
    [open(outputSink, password?)] does with the bytes of an entry (4.3,
    "Password is honored only by the ZIP adapter (AES-256 content
    encryption per entry); other adapters silently ignore it").  Missing
    from the sources: every adapter that takes a password. *)
Definition sealEntry (format : string) (password : option string)
  (content : string) : stored :=
  match password with
  | Some p => if format =? ".zip" then Aes256 p content else InClear content
  | None => InClear content
  end.

(** Modelled from the spec: [compress(request, ...)] (4.3) for a request
    with a password.  Missing from the sources: the pipeline that hands the
    password to the adapter.  The pipeline is [Compress] as it is in the
    sources, the password taking no part in it; the archive holds the
    entries the run has copied, in their order, each stored by the writer
    of the adapter; [content] gives the bytes of an entry. *)
Definition compressRequest (Match : string -> string -> bool)
  (ctx : nat -> bool) (env : Env) (content : string -> string)
  (request : CompressionRequest)
  : (option CompressStats * option error) * list (string * stored) :=
  let run := Compress Match ctx env (options request) in
  (fst run,
   map (fun name =>
          (name,
           sealEntry (Format (options request)) (Password request)
             (content name)))
     (copiedNames (snd run))).

(** Modelled from the spec: the error kinds of the read side (7,
    "WrongPassword (adapter-specific, surfaced when decryption fails)"
    next to "underlying I/O failure").  Missing from the sources: the
    WrongPassword error; the others are the errors of the engine. *)
Inductive failure : Type :=
| WrongPassword
| EngineError (e : error).

(** Modelled from the spec: [next(reader)] of a reader opened with
    [open(inputSource, password?)] (4.5): the bytes of the next entry, or
    the failure of its decryption.  Missing from the sources: the reader
    that decrypts. *)
Definition nextEntry (password : option string) (entry : string * stored)
  : failure + string * string :=
  match snd entry with
  | InClear content => inr (fst entry, content)
  | Aes256 p content =>
      match password with
      | Some q =>
          if q =? p then inr (fst entry, content) else inl WrongPassword
      | None => inl WrongPassword
      end
  end.

(** Modelled from the spec: the loop of [extract(request, ...)] (4.4)
    over the entries of the archive as far as the password is concerned:
    the names and bytes of the entries, or the first failure, which aborts
    the operation.  Missing from the sources: as for [nextEntry]. *)
Fixpoint readArchive (password : option string)
  (archive : list (string * stored)) : failure + list (string * string) :=
  match archive with
  | [] => inr []
  | entry :: rest =>
      match nextEntry password entry with
      | inl f => inl f
      | inr one =>
          match readArchive password rest with
          | inl f => inl f
          | inr more => inr (one :: more)
          end
      end
  end.

(** * Properties *)

(** ** The path functions on the examples of their documentation *)

Example Clean_examples :
  map filepath.Clean
    ["a/c"; "a//c"; "a/c/."; "a/c/b/.."; "/../a/c"; "/../a/b/../././/c"; "";
     "../../x/.."; "/"]
  = ["a/c"; "a/c"; "a/c"; "a/c"; "/a/c"; "/a/c"; "."; "../.."; "/"].
Proof. reflexivity. Qed.

Example Join_examples :
  map filepath.Join
    [["a"; "b"; "c"]; ["a"; "b/c"]; ["a/b"; "/c"]; ["a"; ""]; [""; "a"];
     [""; ""]; ["a/b"; "../../../xyz"]]
  = ["a/b/c"; "a/b/c"; "a/b/c"; "a"; "a"; ""; "../xyz"].
Proof. reflexivity. Qed.

Example Base_examples :
  map filepath.Base
    ["/foo/bar/baz.js"; "/foo/bar/baz/"; "dev.txt"; ""; "/"; "//"]
  = ["baz.js"; "baz"; "dev.txt"; "."; "/"; "/"].
Proof. reflexivity. Qed.

Example Dir_examples :
  map filepath.Dir
    ["/foo/bar/baz.js"; "/foo/bar/baz/"; "dev.txt"; "../todo.txt"; "/"; ""]
  = ["/foo/bar"; "/foo/bar/baz"; "."; ".."; "/"; "."].
Proof. reflexivity. Qed.

Example Rel_examples :
  map (filepath.Rel "/a") ["/a/b/c"; "/b/c"; "./b/c"; "/a"]
  = [Some "b/c"; Some "../b/c"; None; Some "."].
Proof. reflexivity. Qed.

(** ** Prefixes, suffixes and substrings *)

Lemma append_assoc (a b c : string) : (a ++ b) ++ c = a ++ b ++ c.
Proof. induction a as [|x a IH]; simpl; [reflexivity | now rewrite IH]. Qed.

Lemma append_nil_r (a : string) : a ++ "" = a.
Proof. induction a as [|x a IH]; simpl; [reflexivity | now rewrite IH]. Qed.

Lemma length_append (a b : string) :
  String.length (a ++ b) = (String.length a + String.length b)%nat.
Proof. induction a as [|x a IH]; simpl; [reflexivity | now rewrite IH]. Qed.

Lemma substring_whole (s : string) : substring 0 (String.length s) s = s.
Proof. induction s as [|c s IH]; simpl; [reflexivity | now rewrite IH]. Qed.

Lemma substring_skip (a b : string) (m : nat) :
  substring (String.length a) m (a ++ b) = substring 0 m b.
Proof. induction a as [|x a IH]; simpl; [reflexivity | exact IH]. Qed.

Lemma substring_head (a b : string) :
  substring 0 (String.length a) (a ++ b) = a.
Proof. induction a as [|x a IH]; simpl; [now destruct b | now rewrite IH]. Qed.

Lemma substring_split (s : string) (k : nat) :
  (k <= String.length s)%nat ->
  s = substring 0 k s ++ substring k (String.length s - k) s.
Proof.
  revert k; induction s as [|c s IH]; intros k Hk.
  - destruct k; [reflexivity | simpl in Hk; lia].
  - destruct k as [|k].
    + simpl. now rewrite substring_whole.
    + simpl. f_equal. apply IH. simpl in Hk. lia.
Qed.

Lemma HasPrefix_iff (s prefix : string) :
  strings.HasPrefix s prefix = true <-> exists back, s = prefix ++ back.
Proof.
  unfold strings.HasPrefix. split.
  - intros H. apply andb_true_iff in H. destruct H as [Hl He].
    apply Nat.leb_le in Hl. apply String.eqb_eq in He.
    exists (substring (String.length prefix)
              (String.length s - String.length prefix) s).
    rewrite <- He at 1. now apply substring_split.
  - intros [back ->]. rewrite length_append, substring_head, String.eqb_refl.
    rewrite andb_true_r. apply Nat.leb_le. lia.
Qed.

Lemma HasSuffix_iff (s suffix : string) :
  strings.HasSuffix s suffix = true <-> exists front, s = front ++ suffix.
Proof.
  unfold strings.HasSuffix. split.
  - intros H. apply andb_true_iff in H. destruct H as [Hl He].
    apply Nat.leb_le in Hl. apply String.eqb_eq in He.
    exists (substring 0 (String.length s - String.length suffix) s).
    pose proof (substring_split s (String.length s - String.length suffix))
      as Hs.
    replace (String.length s - (String.length s - String.length suffix))%nat
      with (String.length suffix) in Hs by lia.
    rewrite He in Hs. apply Hs. lia.
  - intros [front ->]. rewrite length_append.
    replace (String.length front + String.length suffix
             - String.length suffix)%nat with (String.length front) by lia.
    rewrite substring_skip, substring_whole, String.eqb_refl, andb_true_r.
    apply Nat.leb_le. lia.
Qed.

Lemma Contains_iff (s substr : string) :
  strings.Contains s substr = true
  <-> exists front back, s = front ++ substr ++ back.
Proof.
  split.
  - induction s as [|c s IH]; simpl; intros H.
    + rewrite orb_false_r in H. apply HasPrefix_iff in H.
      destruct H as [back H]. now exists "", back.
    + apply orb_true_iff in H. destruct H as [H | H].
      * apply HasPrefix_iff in H. destruct H as [back H]. now exists "", back.
      * destruct (IH H) as (front & back & ->).
        now exists (String c front), back.
  - intros (front & back & ->). induction front as [|c front IH].
    + assert (H : strings.HasPrefix (substr ++ back) substr = true)
        by (apply HasPrefix_iff; now exists back).
      simpl. destruct (substr ++ back); simpl; now rewrite H.
    + simpl. rewrite IH. apply orb_true_r.
Qed.

Lemma ToLower_app (a b : string) :
  strings.ToLower (a ++ b) = strings.ToLower a ++ strings.ToLower b.
Proof. induction a as [|c a IH]; cbn; [reflexivity | now rewrite IH]. Qed.

Lemma list_ascii_app (a b : string) :
  list_ascii_of_string (a ++ b)
  = (list_ascii_of_string a ++ list_ascii_of_string b)%list.
Proof. induction a as [|c a IH]; cbn; [reflexivity | now rewrite IH]. Qed.

Lemma list_ascii_length (s : string) :
  List.length (list_ascii_of_string s) = String.length s.
Proof. induction s as [|c s IH]; cbn; [reflexivity | now rewrite IH]. Qed.

Lemma ending_app (k : nat) (a b : string) :
  (k <= String.length b)%nat -> ending k (a ++ b) = ending k b.
Proof.
  intros Hk. unfold ending.
  rewrite list_ascii_app, rev_app_distr, firstn_app.
  rewrite length_rev, list_ascii_length.
  replace (k - String.length b)%nat with 0%nat by lia.
  cbn [firstn]. apply app_nil_r.
Qed.

(** A string that ends with [b] does not end with a suffix whose last [k]
    bytes are not those of [b]. *)
Lemma suffix_differs (k : nat) (a b suffix : string) :
  (k <= String.length b)%nat -> (k <= String.length suffix)%nat ->
  ending k b <> ending k suffix ->
  strings.HasSuffix (a ++ b) suffix = false.
Proof.
  intros Hb Hs Hne.
  destruct (strings.HasSuffix (a ++ b) suffix) eqn:E; [| reflexivity].
  apply HasSuffix_iff in E. destruct E as [front E].
  apply (f_equal (ending k)) in E. rewrite !ending_app in E by assumption.
  contradiction.
Qed.

Lemma HasSuffix_app (a b : string) : strings.HasSuffix (a ++ b) b = true.
Proof. apply HasSuffix_iff. now exists a. Qed.

(** ** Format detection *)

Lemma detect_unknown_iff (filename : string) :
  DetectArchiveFormat filename = ""
  <-> forall suffix, In suffix recognizedSuffixes ->
        strings.HasSuffix (strings.ToLower filename) suffix = false.
Proof.
  unfold DetectArchiveFormat, recognizedSuffixes. split.
  - intros H suffix Hin. simpl in Hin.
    repeat match type of H with
           | context [strings.HasSuffix ?a ?b] =>
               destruct (strings.HasSuffix a b) eqn:?; simpl in H;
               try discriminate H
           end.
    repeat (destruct Hin as [<- | Hin]; [assumption |]). destruct Hin.
  - intros H.
    repeat match goal with
           | |- context [strings.HasSuffix ?a ?b] =>
               rewrite (H b) by (simpl; auto 20); simpl
           end.
    reflexivity.
Qed.

Lemma endsWithOneOf_iff (suffixes : list string) (filename : string) :
  endsWithOneOf suffixes filename
  <-> exists suffix, In suffix suffixes
        /\ strings.HasSuffix (strings.ToLower filename) suffix = true.
Proof.
  unfold endsWithOneOf. split.
  - intros (suffix & front & Hin & Heq). exists suffix. split; [assumption |].
    apply HasSuffix_iff. now exists front.
  - intros (suffix & Hin & H). apply HasSuffix_iff in H.
    destruct H as [front H]. now exists suffix, front.
Qed.

Lemma detect_known_iff (filename : string) :
  DetectArchiveFormat filename <> ""
  <-> endsWithOneOf recognizedSuffixes filename.
Proof.
  rewrite endsWithOneOf_iff, detect_unknown_iff. split.
  - intros H.
    destruct (existsb (strings.HasSuffix (strings.ToLower filename))
                recognizedSuffixes) eqn:E.
    + apply existsb_exists in E. exact E.
    + exfalso. apply H. intros suffix Hin.
      destruct (strings.HasSuffix (strings.ToLower filename) suffix) eqn:Hs;
        [| reflexivity].
      rewrite <- E. symmetry. apply existsb_exists. now exists suffix.
  - intros (suffix & Hin & Hs) H. rewrite (H suffix Hin) in Hs. discriminate.
Qed.

Lemma detect_range (filename : string) :
  DetectArchiveFormat filename = ""
  \/ In (DetectArchiveFormat filename) formatTags.
Proof.
  unfold DetectArchiveFormat, formatTags.
  repeat match goal with
         | |- context [if ?c then _ else _] => destruct c
         end; cbn; auto 10.
Qed.





(** ** Exclusion matching *)

Section ExclusionProperties.

Variable Match : string -> string -> bool.

Lemma exact_match_iff (path pattern : string) :
  (filepath.Base path =? pattern)
  || (strings.Contains path
        (filepath.Separator ++ pattern ++ filepath.Separator)
      || strings.HasSuffix path (filepath.Separator ++ pattern)) = true
  <-> filepath.Base path = pattern
      \/ (exists front back, path = front ++ "/" ++ pattern ++ "/" ++ back)
      \/ (exists front, path = front ++ "/" ++ pattern).
Proof.
  unfold filepath.Separator.
  rewrite !orb_true_iff, String.eqb_eq, Contains_iff, HasSuffix_iff.
  split; (intros [H | [H | H]]; [now left | right; left | now right; right]).
  - destruct H as (front & back & ->). exists front, back.
    simpl. now rewrite append_assoc.
  - destruct H as (front & back & ->). exists front, back.
    simpl. now rewrite append_assoc.
Qed.

Lemma excludeLoop_iff (path : string) (excludes : list string) :
  excludeLoop Match path (filepath.Base path) excludes = true
  <-> exists pattern, In pattern excludes /\ patternMatches Match path pattern.
Proof.
  induction excludes as [|pattern rest IH]; cbn [excludeLoop In].
  - split; [discriminate | intros (p & [] & _)].
  - assert (Hhere : forall b, b = true <-> patternMatches Match path pattern ->
              (if b then true
               else excludeLoop Match path (filepath.Base path) rest) = true
              <-> exists p, (pattern = p \/ In p rest)
                            /\ patternMatches Match path p).
    { intros b Hb. destruct b.
      - split; [| reflexivity]. intros _. exists pattern.
        split; [now left | now apply Hb].
      - rewrite IH. split.
        + intros (p & Hin & Hp). exists p. split; [now right | assumption].
        + intros (p & [<- | Hin] & Hp).
          * apply Hb in Hp. discriminate.
          * now exists p. }
    unfold patternMatches at 1 in Hhere.
    destruct (strings.Contains pattern "*") eqn:Hstar.
    + apply (Hhere (Match pattern (filepath.Base path))). tauto.
    + pose proof (exact_match_iff path pattern) as Hex.
      destruct (filepath.Base path =? pattern);
        [exact (Hhere true Hex) |].
      rewrite orb_false_l in Hex.
      destruct (strings.Contains path
                  (filepath.Separator ++ pattern ++ filepath.Separator)
                || strings.HasSuffix path (filepath.Separator ++ pattern));
        [exact (Hhere true Hex) | exact (Hhere false Hex)].
Qed.

(** C5: [shouldExclude] answers true exactly when some pattern of the list
    matches the path ([patternMatches]: a pattern with a star is globbed
    against the final segment; another pattern must equal the final
    segment, or stand between two separators, or end the path after a
    separator); the patterns after a matching one are not looked at; and
    an empty list excludes nothing. *)
Theorem shouldExclude_spec (path : string) (excludes : list string) :
  (shouldExclude Match path excludes = true
   <-> exists pattern,
         In pattern excludes /\ patternMatches Match path pattern)
  /\ (forall before pattern after,
        excludes = (before ++ pattern :: after)%list ->
        patternMatches Match path pattern ->
        shouldExclude Match path excludes = true
        /\ shouldExclude Match path (before ++ [pattern])%list = true)
  /\ shouldExclude Match path [] = false.
Proof.
  unfold shouldExclude. split; [apply excludeLoop_iff |].
  split; [| reflexivity].
  intros before pattern after -> Hp.
  split; apply excludeLoop_iff; exists pattern;
    (split; [apply in_or_app; right; now left | assumption]).
Qed.

End ExclusionProperties.

(** The statement at work: a file below [node_modules] is excluded by the
    second pattern, which stands between two separators of its path. *)
Lemma shouldExclude_spec_witness :
  shouldExclude suffixGlob "proj/node_modules/x.js" ["*.log"; "node_modules"]
  = true.
Proof.
  apply (proj1 (shouldExclude_spec suffixGlob "proj/node_modules/x.js"
                  ["*.log"; "node_modules"])).
  exists "node_modules". split; [right; now left |].
  right. left. now exists "proj", "x.js".
Defined.

(** A pattern without a star is looked for after a separator: the leading
    segment of a relative path is matched by none of the three tests. *)
Example leading_segment_not_matched :
  shouldExclude suffixGlob "node_modules/x.js" ["node_modules"] = false
  /\ shouldExclude suffixGlob "/abs/node_modules/x.js" ["node_modules"] = true.
Proof. split; reflexivity. Qed.

(** ** File collection *)

Section CollectionProperties.

Variable Match : string -> string -> bool.

Lemma collectFn_excluded source excludes path d c :
  excludedPath Match source excludes path = true ->
  collectFn Match source excludes path d None c
  = (if IsDir d then SkipDir else Continue, countExcluded c).
Proof.
  intros H. unfold excludedPath in H. unfold collectFn. rewrite H.
  now destruct (IsDir d).
Qed.

Lemma collectFn_kept_file source excludes path info c :
  excludedPath Match source excludes path = false ->
  collectFn Match source excludes path (File info) None c
  = (Continue,
     mkCollected (files c ++ [path])%list
       (match info with
        | Some n => wrap64 (totalSize c + n)
        | None => totalSize c
        end) (excludedCount c)).
Proof.
  intros H. unfold excludedPath in H. unfold collectFn. now rewrite H.
Qed.

Lemma collectFn_kept_dir source excludes path size readErr entries c :
  excludedPath Match source excludes path = false ->
  collectFn Match source excludes path (Dir size readErr entries) None c
  = (Continue, c).
Proof.
  intros H. unfold excludedPath in H. unfold collectFn. now rewrite H.
Qed.

Lemma walk_excluded_dir source excludes path size readErr entries c :
  excludedPath Match source excludes path = true ->
  walkDir (collectFn Match source excludes) path (Dir size readErr entries) c
  = (Continue, countExcluded c).
Proof.
  intros H. cbn [walkDir]. now rewrite (collectFn_excluded _ _ _ _ _ H).
Qed.

Lemma walk_excluded_file source excludes path info c :
  excludedPath Match source excludes path = true ->
  walkDir (collectFn Match source excludes) path (File info) c
  = (Continue, countExcluded c).
Proof.
  intros H. cbn [walkDir]. now rewrite (collectFn_excluded _ _ _ _ _ H).
Qed.

(** C6: an excluded directory is counted once and nothing below it is
    visited (the result does not depend on its entries, nor on whether it
    can be read); an excluded file is counted once and left out; and for
    the patterns [*.log] and [node_modules] over a tree with [a.log],
    [keep.txt] and a directory [node_modules] of any content, the
    collected list is [keep.txt] alone and two paths are counted as
    excluded. *)
Theorem collect_prunes_excluded (source : string) (excludes : list string) :
  (forall path size readErr entries c,
     excludedPath Match source excludes path = true ->
     walkDir (collectFn Match source excludes) path
       (Dir size readErr entries) c
     = (Continue, countExcluded c))
  /\ (forall path info c,
        excludedPath Match source excludes path = true ->
        walkDir (collectFn Match source excludes) path (File info) c
        = (Continue, countExcluded c))
  /\ (forall env sub,
        Match "*.log" "proj" = false ->
        Match "*.log" "a.log" = true ->
        Match "*.log" "keep.txt" = false ->
        Stat env "/data/proj" = Ok (projTree sub) ->
        Lstat env "/data/proj" = Ok (projTree sub) ->
        collectFiles Match env "/data/proj" ["*.log"; "node_modules"]
        = (["/data/proj/keep.txt"], 20%Z, 2%Z, None)).
Proof.
  split; [intros; now apply walk_excluded_dir |].
  split; [intros; now apply walk_excluded_file |].
  intros env sub Hproj Hlog Hkeep Hstat Hlstat.
  unfold collectFiles, WalkDir. rewrite Hstat, Hlstat.
  unfold projTree. cbn [IsDir negb].
  assert (Hroot : excludedPath Match "/data/proj" ["*.log"; "node_modules"]
                    "/data/proj" = false).
  { vm_compute. now rewrite Hproj. }
  assert (Ha : excludedPath Match "/data/proj" ["*.log"; "node_modules"]
                 "/data/proj/a.log" = true).
  { vm_compute. now rewrite Hlog. }
  assert (Hk : excludedPath Match "/data/proj" ["*.log"; "node_modules"]
                 "/data/proj/keep.txt" = false).
  { vm_compute. now rewrite Hkeep. }
  assert (Hn : excludedPath Match "/data/proj" ["*.log"; "node_modules"]
                 "/data/proj/node_modules" = true).
  { vm_compute. now destruct (Match "*.log" "node_modules"). }
  change (filepath.Join ["/data/proj"; "a.log"]) with "/data/proj/a.log".
  change (filepath.Join ["/data/proj"; "keep.txt"]) with "/data/proj/keep.txt".
  change (filepath.Join ["/data/proj"; "node_modules"])
    with "/data/proj/node_modules".
  cbn [walkDir].
  rewrite (collectFn_kept_dir _ _ _ _ _ _ _ Hroot).
  rewrite (collectFn_excluded _ _ _ (File (Some 10%Z)) _ Ha).
  cbn [IsDir].
  rewrite (collectFn_kept_file _ _ _ _ _ Hk).
  rewrite (collectFn_excluded _ _ _ (Dir 4096 None sub) _ Hn).
  reflexivity.
Qed.

End CollectionProperties.

(** The statement at work, with a matcher for [*suffix] patterns and a
    [node_modules] directory holding [x.js]. *)
Lemma collect_prunes_excluded_witness :
  collectFiles suffixGlob
    (calmEnv (projFs [("x.js", File (Some 30%Z))]) [] [] 0)
    "/data/proj" ["*.log"; "node_modules"]
  = (["/data/proj/keep.txt"], 20%Z, 2%Z, None).
Proof.
  apply (proj2 (proj2 (collect_prunes_excluded suffixGlob "/data/proj"
                         ["*.log"; "node_modules"]))
           (calmEnv (projFs [("x.js", File (Some 30%Z))]) [] [] 0)
           [("x.js", File (Some 30%Z))]);
    reflexivity.
Defined.

(** ** The path check of extraction *)

Lemma pathAllowed_iff (output name : string) :
  pathAllowed output name = true
  <-> exists back,
        filepath.Clean (targetPathOf output name)
        = filepath.Clean output ++ back.
Proof. unfold pathAllowed. apply HasPrefix_iff. Qed.

(** A rejected TAR entry ends the extraction: the error is returned after
    the entry's progress report, and nothing is made for it or after it. *)
Lemma path_check_aborts_tar ctx env opts n header rest last stats :
  ctx n = false ->
  pathAllowed (xOutput opts) (hName header) = false ->
  extractTarLoop ctx env opts n (header :: rest) last stats
  = (Some (ErrIllegalPath (hName header)),
     setProgressX stats (Z.of_nat n + 1) (hName header),
     notifyX opts (Z.of_nat n + 1) 0 (hName header)
       (setProgressX stats (Z.of_nat n + 1) (hName header))).
Proof.
  intros Hctx Hbad. cbn [extractTarLoop]. rewrite Hctx.
  unfold extractTarEntry. rewrite Hbad. cbn [negb].
  now rewrite app_nil_r.
Qed.

(** The same for a rejected ZIP entry. *)
Lemma path_check_aborts_zip ctx env opts len i file rest stats :
  ctx i = false ->
  pathAllowed (xOutput opts) (zName file) = false ->
  extractZipLoop ctx env opts len i (file :: rest) stats
  = (Some (ErrIllegalPath (zName file)),
     setProgressX stats (Z.of_nat i + 1) (zName file),
     notifyX opts (Z.of_nat i + 1) len (zName file)
       (setProgressX stats (Z.of_nat i + 1) (zName file))).
Proof.
  intros Hctx Hbad. cbn [extractZipLoop]. rewrite Hctx.
  unfold extractZipEntry. rewrite Hbad. cbn [negb].
  now rewrite app_nil_r.
Qed.

(** C1 at the failing input: with the current directory as output root,
    the entry [../../etc/passwd] passes the check (the cleaned target
    starts with the dot of the cleaned root), extraction succeeds, and
    the file is created two levels above the output root.  An absolute
    root that is a string prefix of the cleaned target, such as [/etc/p],
    lets the same entry through. *)
Theorem traversal_under_relative_root :
  pathAllowed "." "../../etc/passwd" = true
  /\ escapes "." (targetPathOf "." "../../etc/passwd") = true
  /\ pathAllowed "/etc/p" "../../etc/passwd" = true
  /\ escapes "/etc/p" (targetPathOf "/etc/p" "../../etc/passwd") = true
  /\ Extract background
       (calmEnv (oneFile "evil.tar" 1000) []
          [mkTarHeader "../../etc/passwd" TypeReg 420 "" 7] 0)
       (mkExtractOptions "evil.tar" "." false false)
     = ((Some (mkExtractStats 1 1 1000 7 "../../etc/passwd"), None),
        [MkdirAll "." 493; MkdirAll "../../etc" 493;
         OpenFile "../../etc/passwd" 420; CopyOut "../../etc/passwd" 7]).
Proof. repeat split; vm_compute; reflexivity. Qed.

(** C9: the check is the string-prefix test on the two cleaned paths, not
    a test on path elements: under the root [/out] the entry [../out2/f]
    has the cleaned target [/out2/f], which starts with [/out] and is
    accepted although it lies outside [/out]; extraction then creates
    that file. *)
Theorem prefix_check_admits_sibling :
  (forall output name,
     pathAllowed output name = true
     <-> exists back,
           filepath.Clean (targetPathOf output name)
           = filepath.Clean output ++ back)
  /\ filepath.Clean (targetPathOf "/out" "../out2/f") = "/out2/f"
  /\ pathAllowed "/out" "../out2/f" = true
  /\ escapes "/out" (targetPathOf "/out" "../out2/f") = true
  /\ (exists output name,
        pathAllowed output name = true
        /\ escapes output (targetPathOf output name) = true)
  /\ (forall stats,
        extractTarEntry (calmEnv (oneFile "a.tar" 1000) [] [] 0)
          (mkExtractOptions "a.tar" "/out" false false)
          (mkTarHeader "../out2/f" TypeReg 420 "" 7) stats
        = (inr (addExtracted stats 7),
           [MkdirAll "/out2" 493; OpenFile "/out2/f" 420;
            CopyOut "/out2/f" 7])).
Proof.
  split; [apply pathAllowed_iff |].
  repeat split; try (vm_compute; reflexivity).
  exists "/out", "../out2/f". split; vm_compute; reflexivity.
Qed.

(** ** The tactic of the case analyses *)

Ltac break_match :=
  match goal with
  | |- context [match ?x with _ => _ end] =>
      let E := fresh "E" in destruct x eqn:E
  end.

(** ** The entry loops of compression *)

Lemma sameTotals_refl (s : CompressStats) : sameTotals s s.
Proof. unfold sameTotals. auto. Qed.

Lemma sameTotals_setProgress (s s' : CompressStats) n name :
  sameTotals (setProgress s n name) s' -> sameTotals s s'.
Proof. unfold sameTotals. cbn. auto. Qed.

Lemma compressZipLoop_totals ctx env opts baseDir len rest :
  forall i stats err stats' tr,
    compressZipLoop ctx env opts baseDir len i rest stats = (err, stats', tr) ->
    sameTotals stats stats'.
Proof.
  induction rest as [|file rest IH]; intros i stats err stats' tr;
    cbn [compressZipLoop].
  - intros H. injection H as <- <- <-. apply sameTotals_refl.
  - destruct (ctx i).
    + intros H. injection H as <- <- <-. apply sameTotals_refl.
    + destruct (addFileToZip env file (relOrBase baseDir file)) as [[e|] evs].
      * intros H. injection H as <- <- <-.
        apply sameTotals_setProgress with (n := (Z.of_nat i + 1)%Z)
          (name := relOrBase baseDir file). apply sameTotals_refl.
      * destruct (compressZipLoop ctx env opts baseDir len (S i) rest _)
          as [[err2 stats2] evs2] eqn:E.
        intros H. injection H as <- <- <-.
        eapply sameTotals_setProgress, IH, E.
Qed.

Lemma compressTarLoop_totals ctx env opts baseDir len rest :
  forall i stats err stats' tr,
    compressTarLoop ctx env opts baseDir len i rest stats = (err, stats', tr) ->
    sameTotals stats stats'.
Proof.
  induction rest as [|file rest IH]; intros i stats err stats' tr;
    cbn [compressTarLoop].
  - intros H. injection H as <- <- <-. apply sameTotals_refl.
  - destruct (ctx i).
    + intros H. injection H as <- <- <-. apply sameTotals_refl.
    + destruct (addFileToTar env file (relOrBase baseDir file)) as [[e|] evs].
      * intros H. injection H as <- <- <-.
        apply sameTotals_setProgress with (n := (Z.of_nat i + 1)%Z)
          (name := relOrBase baseDir file). apply sameTotals_refl.
      * destruct (compressTarLoop ctx env opts baseDir len (S i) rest _)
          as [[err2 stats2] evs2] eqn:E.
        intros H. injection H as <- <- <-.
        eapply sameTotals_setProgress, IH, E.
Qed.

(** A loop that ends without error has counted every file. *)
Lemma compressZipLoop_done ctx env opts baseDir len rest :
  forall i stats stats' tr,
    ProcessedFiles stats = Z.of_nat i ->
    compressZipLoop ctx env opts baseDir len i rest stats
    = (None, stats', tr) ->
    ProcessedFiles stats' = Z.of_nat (i + List.length rest).
Proof.
  induction rest as [|file rest IH]; intros i stats stats' tr Hi;
    cbn [compressZipLoop].
  - intros H. injection H as <- <-. rewrite Hi. f_equal. cbn. lia.
  - destruct (ctx i); [discriminate |].
    destruct (addFileToZip env file (relOrBase baseDir file)) as [[e|] evs];
      [discriminate |].
    destruct (compressZipLoop ctx env opts baseDir len (S i) rest _)
      as [[err2 stats2] evs2] eqn:E.
    intros H. injection H as -> <- <-.
    apply IH in E; [| cbn; lia]. rewrite E. f_equal. cbn. lia.
Qed.

Lemma compressTarLoop_done ctx env opts baseDir len rest :
  forall i stats stats' tr,
    ProcessedFiles stats = Z.of_nat i ->
    compressTarLoop ctx env opts baseDir len i rest stats
    = (None, stats', tr) ->
    ProcessedFiles stats' = Z.of_nat (i + List.length rest).
Proof.
  induction rest as [|file rest IH]; intros i stats stats' tr Hi;
    cbn [compressTarLoop].
  - intros H. injection H as <- <-. rewrite Hi. f_equal. cbn. lia.
  - destruct (ctx i); [discriminate |].
    destruct (addFileToTar env file (relOrBase baseDir file)) as [[e|] evs];
      [discriminate |].
    destruct (compressTarLoop ctx env opts baseDir len (S i) rest _)
      as [[err2 stats2] evs2] eqn:E.
    intros H. injection H as -> <- <-.
    apply IH in E; [| cbn; lia]. rewrite E. f_equal. cbn. lia.
Qed.

(** What every adapter guarantees when it returns without error. *)
Lemma adapter_done format run fs opts stats ctx env stats' evs :
  compressorFor format = Some run ->
  ProcessedFiles stats = 0%Z ->
  run fs opts stats ctx env = (None, stats', evs) ->
  ProcessedFiles stats' = Z.of_nat (List.length fs)
  /\ sameTotals stats stats'
  /\ exists before writer,
       evs = (before ++ [CloseWriter writer; CloseWriter "file"])%list.
Proof.
  intros Hrun H0. unfold compressorFor in Hrun.
  assert (Hzip : compressZip ctx env fs opts stats = (None, stats', evs) ->
                 ProcessedFiles stats' = Z.of_nat (List.length fs)
                 /\ sameTotals stats stats'
                 /\ exists before writer,
                      evs = (before ++ [CloseWriter writer;
                                        CloseWriter "file"])%list).
  { unfold compressZip. destruct (Create env (Output opts)); [discriminate |].
    destruct (compressZipLoop _ _ _ _ _ _ _ _) as [[err2 stats2] evs2] eqn:E.
    intros H. injection H as -> <- <-.
    split; [apply (compressZipLoop_done _ _ _ _ _ _ 0%nat _ _ _ H0 E) |].
    split; [apply (compressZipLoop_totals _ _ _ _ _ _ _ _ _ _ _ E) |].
    now exists (CreateOutput (Output opts) :: evs2), "zip". }
  assert (Htar : forall codec fallible,
            compressTarWith codec fallible ctx env fs opts stats
            = (None, stats', evs) ->
            ProcessedFiles stats' = Z.of_nat (List.length fs)
            /\ sameTotals stats stats'
            /\ exists before writer,
                 evs = (before ++ [CloseWriter writer;
                                   CloseWriter "file"])%list).
  { intros codec fallible. unfold compressTarWith, compressTar.
    destruct (Create env (Output opts)); [discriminate |].
    destruct (if fallible then NewWriter env codec else None);
      [discriminate |].
    destruct (compressTarLoop _ _ _ _ _ _ _ _) as [[err2 stats2] evs2] eqn:E.
    intros H. injection H as -> <- <-.
    split; [apply (compressTarLoop_done _ _ _ _ _ _ 0%nat _ _ _ H0 E) |].
    split; [apply (compressTarLoop_totals _ _ _ _ _ _ _ _ _ _ _ E) |].
    exists (CreateOutput (Output opts) :: evs2 ++ [CloseWriter "tar"])%list,
      codec.
    reflexivity. }
  repeat match type of Hrun with
         | (if ?c then _ else _) = _ => destruct c
         end;
    try discriminate Hrun; injection Hrun as <-; intros H;
    first [exact (Hzip H) | eapply Htar; exact H].
Qed.

(** C7: when [Compress] succeeds, every file has been counted as
    processed; the output is statted after the adapter and the file have
    been closed; and with the size [n] that the stat reports (an [int64]
    size, as is the total), the compressed size is [n] and the rate is
    [(total - n) / total * 100] in double arithmetic, or zero when the
    total is zero. *)
Theorem compress_stats_invariant Match ctx env opts stats tr :
  Compress Match ctx env opts = ((Some stats, None), tr) ->
  ProcessedFiles stats = TotalFiles stats
  /\ (exists before writer,
        tr = (before ++ [CloseWriter writer; CloseWriter "file";
                         StatOutput (Output opts)])%list)
  /\ (forall n,
        StatOutputSize env (Output opts) = Ok n ->
        (0 <= n < 2 ^ 63)%Z ->
        (TotalSize stats < 2 ^ 63)%Z ->
        CompressedSize stats = n
        /\ (TotalSize stats = 0%Z -> CompressionRate stats = 0%float)
        /\ ((0 < TotalSize stats)%Z ->
            CompressionRate stats
            = (float64 (TotalSize stats - n) / float64 (TotalSize stats)
               * float64 100)%float)).
Proof.
  unfold Compress. intros H.
  destruct (Stat env (Source opts)); [| discriminate].
  destruct (collectFiles Match env (Source opts) (Excludes opts))
    as [[[fs size] excluded] [e|]]; [discriminate |].
  cbn [TotalFiles] in H.
  destruct (Z.of_nat (List.length fs) =? 0)%Z; [discriminate |].
  destruct (compressorFor (Format opts)) as [run|] eqn:Hrun; [| discriminate].
  destruct (run fs opts _ ctx env) as [[[e|] stats1] evs] eqn:E;
    [discriminate |].
  eapply adapter_done in E; [| exact Hrun | reflexivity].
  destruct E as (Hp & (Htf & Hts & Hcs & Hex & Hcr) & before & writer & ->).
  cbn in Htf, Hts, Hcs, Hex, Hcr.
  assert (Htrace : forall t,
            t = ((before ++ [CloseWriter writer; CloseWriter "file"])
                 ++ [StatOutput (Output opts)])%list ->
            exists b w, t = (b ++ [CloseWriter w; CloseWriter "file";
                                   StatOutput (Output opts)])%list).
  { intros t ->. exists before, writer. now rewrite <- app_assoc. }
  destruct (StatOutputSize env (Output opts)) as [m|e] eqn:Hsize;
    injection H as <- <-.
  - cbn [ProcessedFiles TotalFiles setCompressed].
    split; [congruence |]. split; [now apply Htrace |].
    intros n Hn Hrange Htotal. injection Hn as ->.
    cbn [CompressedSize TotalSize CompressionRate setCompressed] in *.
    split; [reflexivity |]. split.
    + intros Hz. rewrite Hz. cbn. exact Hcr.
    + intros Hpos. destruct (TotalSize stats1 >? 0)%Z eqn:Hgt; [| lia].
      unfold wrap64. rewrite Z.mod_small by lia.
      now replace (TotalSize stats1 - n + 2 ^ 63 - 2 ^ 63)%Z
        with (TotalSize stats1 - n)%Z by lia.
  - split; [congruence |]. split; [now apply Htrace |].
    intros n Hn. discriminate.
Qed.

(** The statement at work: a file of 1000 bytes zipped into 400. *)
Lemma compress_stats_invariant_witness :
  ProcessedFiles (mkCompressStats 1 1 1000 400 0 "a.txt" 60%float) = 1%Z
  /\ CompressionRate (mkCompressStats 1 1 1000 400 0 "a.txt" 60%float)
     = (float64 (1000 - 400) / float64 1000 * float64 100)%float.
Proof.
  pose proof (compress_stats_invariant suffixGlob background
                (calmEnv (oneFile "/data/a.txt" 1000) [] [] 400)
                (mkCompressOptions "/data/a.txt" "/data/a.zip" ".zip" []
                   true true)
                (mkCompressStats 1 1 1000 400 0 "a.txt" 60%float)
                _ eq_refl) as (Hp & _ & Hsize).
  split; [exact Hp |].
  destruct (Hsize 400%Z eq_refl) as (_ & _ & Hrate); cbn; try lia.
  apply Hrate. cbn. lia.
Defined.

(** ** The entry loops under cancellation *)

(** The run of [compressZipLoop] whose context is first seen cancelled at
    the poll before entry [N + 1]: it returns the cancellation error, and
    has done what an undisturbed run over the first [N] files does. *)
Lemma compressZipLoop_cancelled ctx env opts baseDir len :
  forall N rest i stats,
    (N < List.length rest)%nat ->
    (forall j, (j < N)%nat -> ctx (i + j)%nat = false) ->
    ctx (i + N)%nat = true ->
    (forall f, In f (firstn N rest) -> AddFault env f = None) ->
    exists stats' tr,
      compressZipLoop ctx env opts baseDir len i rest stats
      = (Some ErrCancelled, stats', tr)
      /\ compressZipLoop background env opts baseDir len i (firstn N rest)
           stats
         = (None, stats', tr).
Proof.
  induction N as [|N IH]; intros rest i stats Hlen Hlive Hdone Hok;
    destruct rest as [|file rest]; cbn [List.length] in Hlen; try lia.
  - rewrite Nat.add_0_r in Hdone. cbn [compressZipLoop firstn].
    rewrite Hdone. now exists stats, [].
  - cbn [compressZipLoop firstn].
    pose proof (Hlive 0%nat ltac:(lia)) as H0. rewrite Nat.add_0_r in H0.
    rewrite H0. unfold background at 1. unfold addFileToZip.
    rewrite (Hok file) by now left.
    destruct (IH rest (S i)
                (setProgress stats (Z.of_nat i + 1) (relOrBase baseDir file)))
      as (stats' & tr & Hrun & Hfirst).
    + lia.
    + intros j Hj. rewrite <- (Hlive (S j)) by lia. f_equal. lia.
    + rewrite <- Hdone. f_equal. lia.
    + intros f Hf. apply Hok. now right.
    + rewrite Hrun, Hfirst. eauto.
Qed.

Lemma extractTarEntry_processed env opts header stats stats' evs :
  extractTarEntry env opts header stats = (inr stats', evs) ->
  xProcessedFiles stats' = xProcessedFiles stats.
Proof.
  unfold extractTarEntry.
  repeat break_match; intros H; try discriminate H;
    injection H as <- <-; reflexivity.
Qed.

Lemma extractZipEntry_processed env opts file stats stats' evs :
  extractZipEntry env opts file stats = (inr stats', evs) ->
  xProcessedFiles stats' = xProcessedFiles stats.
Proof.
  unfold extractZipEntry.
  repeat break_match; intros H; try discriminate H;
    injection H as <- <-; reflexivity.
Qed.

(** The same for [extractZipLoop]. *)
Lemma extractZipLoop_cancelled ctx env opts len :
  forall N rest i stats,
    (N < List.length rest)%nat ->
    xProcessedFiles stats = Z.of_nat i ->
    (forall j, (j < N)%nat -> ctx (i + j)%nat = false) ->
    ctx (i + N)%nat = true ->
    (forall f, In f (firstn N rest) -> materialisesZip env opts f) ->
    exists stats' tr,
      extractZipLoop ctx env opts len i rest stats
      = (Some ErrCancelled, stats', tr)
      /\ extractZipLoop background env opts len i (firstn N rest) stats
         = (None, stats', tr)
      /\ xProcessedFiles stats' = Z.of_nat (i + N).
Proof.
  induction N as [|N IH]; intros rest i stats Hlen Hi Hlive Hdone Hok;
    destruct rest as [|file rest]; cbn [List.length] in Hlen; try lia.
  - rewrite Nat.add_0_r in *. cbn [extractZipLoop firstn].
    rewrite Hdone. now exists stats, [].
  - cbn [extractZipLoop firstn].
    pose proof (Hlive 0%nat ltac:(lia)) as H0. rewrite Nat.add_0_r in H0.
    rewrite H0. unfold background at 1.
    destruct (Hok file (or_introl eq_refl)
                (setProgressX stats (Z.of_nat i + 1) (zName file)))
      as (stats2 & evs & Hentry).
    rewrite Hentry.
    destruct (IH rest (S i) stats2) as (stats' & tr & Hrun & Hfirst & Hp).
    + lia.
    + rewrite (extractZipEntry_processed _ _ _ _ _ _ Hentry). cbn. lia.
    + intros j Hj. rewrite <- (Hlive (S j)) by lia. f_equal. lia.
    + rewrite <- Hdone. f_equal. lia.
    + intros f Hf. apply Hok. now right.
    + rewrite Hrun, Hfirst.
      replace (S i + N)%nat with (i + S N)%nat in * by lia. eauto.
Qed.

(** The same for [extractTarLoop]; here the poll before the end of the
    archive counts too, so [N] may be the number of all entries. *)
Lemma extractTarLoop_cancelled ctx env opts last :
  forall N rest i stats,
    (N <= List.length rest)%nat ->
    xProcessedFiles stats = Z.of_nat i ->
    (forall j, (j < N)%nat -> ctx (i + j)%nat = false) ->
    ctx (i + N)%nat = true ->
    (forall h, In h (firstn N rest) -> materialises env opts h) ->
    exists stats' tr,
      extractTarLoop ctx env opts i rest last stats
      = (Some ErrCancelled, stats', tr)
      /\ extractTarLoop background env opts i (firstn N rest) None stats
         = (None, setTotalFiles stats' (Z.of_nat (i + N)), tr)
      /\ xProcessedFiles stats' = Z.of_nat (i + N).
Proof.
  induction N as [|N IH]; intros rest i stats Hlen Hi Hlive Hdone Hok.
  - rewrite Nat.add_0_r in *. exists stats, [].
    destruct rest; cbn [extractTarLoop firstn]; rewrite Hdone; auto.
  - destruct rest as [|header rest]; cbn [List.length] in Hlen; [lia |].
    cbn [extractTarLoop firstn].
    pose proof (Hlive 0%nat ltac:(lia)) as H0. rewrite Nat.add_0_r in H0.
    rewrite H0. unfold background at 1.
    destruct (Hok header (or_introl eq_refl)
                (setProgressX stats (Z.of_nat i + 1) (hName header)))
      as (stats2 & evs & Hentry).
    rewrite Hentry.
    destruct (IH rest (S i) stats2) as (stats' & tr & Hrun & Hfirst & Hp).
    + lia.
    + rewrite (extractTarEntry_processed _ _ _ _ _ _ Hentry). cbn. lia.
    + intros j Hj. rewrite <- (Hlive (S j)) by lia. f_equal. lia.
    + rewrite <- Hdone. f_equal. lia.
    + intros h Hh. apply Hok. now right.
    + rewrite Hrun, Hfirst.
      replace (S i + N)%nat with (i + S N)%nat in * by lia. eauto.
Qed.

(** ** The work on one entry *)

Lemma addFileToZip_works output env file name r evs :
  addFileToZip env file name = (r, evs) -> Forall (worksOn output name) evs.
Proof.
  unfold addFileToZip. destruct (AddFault env file) as [[[] e]|];
    intros H; injection H as <- <-; repeat constructor.
Qed.

Lemma extractZipEntry_works env opts file stats r evs :
  extractZipEntry env opts file stats = (r, evs) ->
  Forall (worksOn (xOutput opts) (zName file)) evs.
Proof.
  assert (Hfile : forall o l,
            extractZipFile env file (targetPathOf (xOutput opts) (zName file))
            = (o, l) ->
            Forall (worksOn (xOutput opts) (zName file)) l).
  { unfold extractZipFile. intros o l.
    repeat break_match; intros H; injection H as <- <-;
      repeat constructor. }
  unfold extractZipEntry.
  destruct (negb (pathAllowed (xOutput opts) (zName file))).
  { intros H. injection H as <- <-. constructor. }
  destruct (zIsDir file).
  { destruct (OsMkdirAll env _); intros H; injection H as <- <-;
      repeat (apply Forall_cons; [cbn; auto |]); apply Forall_nil. }
  destruct (OsMkdirAll env _).
  { intros H. injection H as <- <-. constructor. }
  destruct (extractZipFile env file _) as [o l].
  pose proof (Hfile o l eq_refl) as Hw.
  destruct o; intros H; injection H as <- <-;
    (constructor; [cbn; auto | assumption]).
Qed.

Lemma extractTarEntry_works env opts header stats r evs :
  extractTarEntry env opts header stats = (r, evs) ->
  Forall (worksOn (xOutput opts) (hName header)) evs.
Proof.
  unfold extractTarEntry.
  repeat break_match; intros H; injection H as <- <-;
    repeat (apply Forall_cons; [cbn; auto |]); apply Forall_nil.
Qed.

(** ** What the ZIP adapter of the sources writes

    Every header it creates carries [zip.Deflate]: the engine of the
    sources encrypts nothing. *)

Lemma compressZipLoop_deflated ctx env opts baseDir len rest :
  forall i stats, Forall deflated
    (snd (compressZipLoop ctx env opts baseDir len i rest stats)).
Proof.
  induction rest as [|file rest IH]; intros i stats; cbn [compressZipLoop].
  - constructor.
  - destruct (ctx i); [constructor |].
    assert (Hcalls : forall k s,
              Forall deflated
                (notify opts k len (relOrBase baseDir file) s)).
    { intros k s. unfold notify.
      destruct (OnProgress opts), (OnStats opts); repeat constructor. }
    unfold addFileToZip.
    destruct (AddFault env file) as [[[] e]|]; cbn [snd];
      try (apply Forall_app; split; [apply Hcalls | repeat constructor]).
    specialize (IH (S i) (setProgress stats (Z.of_nat i + 1)
                            (relOrBase baseDir file))).
    destruct (compressZipLoop ctx env opts baseDir len (S i) rest _)
      as [[err2 stats2] evs2].
    cbn [snd] in *. apply Forall_app. split; [apply Hcalls |].
    repeat constructor. exact IH.
Qed.

Lemma compressTarLoop_deflated ctx env opts baseDir len rest :
  forall i stats, Forall deflated
    (snd (compressTarLoop ctx env opts baseDir len i rest stats)).
Proof.
  induction rest as [|file rest IH]; intros i stats; cbn [compressTarLoop].
  - constructor.
  - destruct (ctx i); [constructor |].
    assert (Hcalls : forall k s,
              Forall deflated
                (notify opts k len (relOrBase baseDir file) s)).
    { intros k s. unfold notify.
      destruct (OnProgress opts), (OnStats opts); repeat constructor. }
    unfold addFileToTar.
    destruct (AddFault env file) as [[[] e]|]; cbn [snd];
      try (apply Forall_app; split; [apply Hcalls | repeat constructor]).
    specialize (IH (S i) (setProgress stats (Z.of_nat i + 1)
                            (relOrBase baseDir file))).
    destruct (compressTarLoop ctx env opts baseDir len (S i) rest _)
      as [[err2 stats2] evs2].
    cbn [snd] in *. apply Forall_app. split; [apply Hcalls |].
    repeat constructor. exact IH.
Qed.

Lemma adapter_deflated format run fs opts stats ctx env :
  compressorFor format = Some run ->
  Forall deflated (snd (run fs opts stats ctx env)).
Proof.
  intros Hrun. unfold compressorFor in Hrun.
  assert (Hzip : Forall deflated (snd (compressZip ctx env fs opts stats))).
  { unfold compressZip. destruct (Create env (Output opts)); [constructor |].
    pose proof (compressZipLoop_deflated ctx env opts
                  (filepath.Dir (Source opts))
                  (Z.of_nat (List.length fs)) fs 0%nat stats) as H.
    destruct (compressZipLoop _ _ _ _ _ _ _ _) as [[err2 stats2] evs2].
    cbn [snd] in *. constructor; [exact I |].
    apply Forall_app. split; [exact H | repeat constructor]. }
  assert (Htar : forall codec fallible,
            Forall deflated
              (snd (compressTarWith codec fallible ctx env fs opts stats))).
  { intros codec fallible. unfold compressTarWith, compressTar.
    destruct (Create env (Output opts)); [constructor |].
    destruct (if fallible then NewWriter env codec else None);
      [repeat constructor |].
    pose proof (compressTarLoop_deflated ctx env opts
                  (filepath.Dir (Source opts))
                  (Z.of_nat (List.length fs)) fs 0%nat stats) as H.
    destruct (compressTarLoop _ _ _ _ _ _ _ _) as [[err2 stats2] evs2].
    cbn [snd] in *. constructor; [exact I |].
    apply Forall_app. split; [| repeat constructor].
    apply Forall_app. split; [exact H | repeat constructor]. }
  repeat match type of Hrun with
         | (if ?c then _ else _) = _ => destruct c
         end;
    try discriminate Hrun; injection Hrun as <-;
    first [exact Hzip | apply Htar].
Qed.

Lemma Compress_deflated Match ctx env opts :
  Forall deflated (snd (Compress Match ctx env opts)).
Proof.
  unfold Compress.
  destruct (Stat env (Source opts)); [| constructor].
  destruct (collectFiles Match env (Source opts) (Excludes opts))
    as [[[fs size] excluded] [e|]]; [constructor |].
  destruct (_ =? 0)%Z; [constructor |].
  destruct (compressorFor (Format opts)) as [run|] eqn:Hrun; [| constructor].
  pose proof (adapter_deflated _ _ fs opts
                (mkCompressStats (Z.of_nat (List.length fs)) 0 size 0
                   excluded "" 0%float) ctx env Hrun) as H.
  destruct (run fs opts _ ctx env) as [[[e|] stats1] evs]; cbn [snd] in *;
    [exact H |].
  destruct (StatOutputSize env (Output opts)); cbn [snd];
    (apply Forall_app; split; [exact H | repeat constructor]).
Qed.

(** * Further properties of the engine *)

(** ** The two compression loops side by side *)

Lemma asTar_notify opts k len name stats :
  map asTar (notify opts k len name stats) = notify opts k len name stats.
Proof. unfold notify. now destruct (OnProgress opts), (OnStats opts). Qed.

Lemma addFileToTar_as_zip env file name :
  addFileToTar env file name
  = (fst (addFileToZip env file name),
     map asTar (snd (addFileToZip env file name))).
Proof.
  unfold addFileToTar, addFileToZip.
  now destruct (AddFault env file) as [[[] e]|].
Qed.

(** The TAR loop is the ZIP loop with another header event: on the same
    files, context and environment both return the same error and the
    same statistics, report the same snapshots and copy the same
    entries. *)
Lemma compressTarLoop_as_zip ctx env opts baseDir len rest :
  forall i stats,
    compressTarLoop ctx env opts baseDir len i rest stats
    = (fst (compressZipLoop ctx env opts baseDir len i rest stats),
       map asTar (snd (compressZipLoop ctx env opts baseDir len i rest stats))).
Proof.
  induction rest as [|file rest IH]; intros i stats;
    cbn [compressTarLoop compressZipLoop]; [reflexivity |].
  destruct (ctx i); [reflexivity |].
  rewrite addFileToTar_as_zip.
  destruct (addFileToZip env file (relOrBase baseDir file)) as [[e|] evs];
    cbn [fst snd].
  - now rewrite map_app, asTar_notify.
  - rewrite IH.
    destruct (compressZipLoop ctx env opts baseDir len (S i) rest _)
      as [[err stats'] tr].
    cbn [fst snd]. now rewrite !map_app, asTar_notify.
Qed.

Lemma copiedNames_app (a b : list event) :
  copiedNames (a ++ b) = (copiedNames a ++ copiedNames b)%list.
Proof.
  induction a as [|e a IH]; [reflexivity |].
  destruct e; cbn; rewrite ?IH; reflexivity.
Qed.

Lemma copiedNames_asTar (tr : list event) :
  copiedNames (map asTar tr) = copiedNames tr.
Proof.
  induction tr as [|e tr IH]; [reflexivity |].
  destruct e; cbn; rewrite ?IH; reflexivity.
Qed.

Lemma copiedNames_notify opts k len name stats :
  copiedNames (notify opts k len name stats) = [].
Proof. unfold notify. now destruct (OnProgress opts), (OnStats opts). Qed.

Lemma In_stats_asTar s (tr : list event) :
  In (CallOnStats s) (map asTar tr) <-> In (CallOnStats s) tr.
Proof.
  induction tr as [|e tr IH]; [reflexivity |].
  cbn [map In]. rewrite IH.
  destruct e; cbn; split; intros [H | H]; auto; discriminate.
Qed.

(** The entries copied by the ZIP loop are the first files of the list, in
    order, each once; all of them when the loop ends without error. *)
Lemma compressZipLoop_copied ctx env opts baseDir len rest :
  forall i stats err stats' tr,
    compressZipLoop ctx env opts baseDir len i rest stats = (err, stats', tr) ->
    exists k,
      (k <= List.length rest)%nat
      /\ copiedNames tr = map (relOrBase baseDir) (firstn k rest)
      /\ (err = None -> k = List.length rest).
Proof.
  induction rest as [|file rest IH]; intros i stats err stats' tr;
    cbn [compressZipLoop].
  - intros H. injection H as <- <- <-. now exists 0%nat.
  - destruct (ctx i).
    { intros H. injection H as <- <- <-. exists 0%nat.
      repeat split; [cbn; lia | discriminate]. }
    unfold addFileToZip.
    destruct (AddFault env file) as [[stage e]|].
    + intros H. exists 0%nat.
      destruct stage; injection H as <- <- <-;
        rewrite copiedNames_app, copiedNames_notify;
        (repeat split; [cbn; lia | discriminate]).
    + destruct (compressZipLoop ctx env opts baseDir len (S i) rest _)
        as [[err2 stats2] evs2] eqn:E.
      intros H. injection H as <- <- <-.
      destruct (IH _ _ _ _ _ E) as (k & Hk & Hc & Hall).
      exists (S k). rewrite copiedNames_app, copiedNames_notify.
      cbn. rewrite Hc. repeat split; [lia |].
      intros Hn. now rewrite (Hall Hn).
Qed.

Lemma In_stats_notify s opts k len name stats :
  In (CallOnStats s) (notify opts k len name stats) -> s = stats.
Proof.
  unfold notify. destruct (OnProgress opts), (OnStats opts); cbn;
    intros H; repeat (destruct H as [H | H]; try discriminate);
    try contradiction; now injection H.
Qed.

Lemma In_stats_addFileToZip s env file name :
  ~ In (CallOnStats s) (snd (addFileToZip env file name)).
Proof.
  unfold addFileToZip. destruct (AddFault env file) as [[[] e]|]; cbn;
    intros H; repeat (destruct H as [H | H]; try discriminate);
    contradiction.
Qed.

(** Every snapshot the ZIP loop reports carries the totals the loop was
    started with, the number of an entry of the list, and that entry's
    archive name. *)
Lemma compressZipLoop_snapshots ctx env opts baseDir len rest :
  forall i stats s,
    In (CallOnStats s)
      (snd (compressZipLoop ctx env opts baseDir len i rest stats)) ->
    sameTotals stats s
    /\ (Z.of_nat i < ProcessedFiles s <= Z.of_nat (i + List.length rest))%Z
    /\ In (CurrentFile s) (map (relOrBase baseDir) rest).
Proof.
  induction rest as [|file rest IH]; intros i stats s;
    cbn [compressZipLoop]; [intros [] |].
  destruct (ctx i); [intros [] |].
  pose proof (In_stats_addFileToZip s env file (relOrBase baseDir file))
    as Hadd.
  destruct (addFileToZip env file (relOrBase baseDir file)) as [[e|] evs];
    cbn [snd] in *.
  - intros H. apply in_app_or in H. destruct H as [H | H]; [| contradiction].
    apply In_stats_notify in H. subst s. cbn.
    repeat split; try lia. now left.
  - specialize (IH (S i) (setProgress stats (Z.of_nat i + 1)
                            (relOrBase baseDir file)) s).
    destruct (compressZipLoop ctx env opts baseDir len (S i) rest _)
      as [[err2 stats2] evs2].
    cbn [snd] in *. intros H.
    apply in_app_or in H. destruct H as [H | H].
    + apply In_stats_notify in H. subst s. cbn.
      repeat split; try lia. now left.
    + apply in_app_or in H. destruct H as [H | H]; [contradiction |].
      destruct (IH H) as (Ht & Hp & Hc).
      split; [eapply sameTotals_setProgress; exact Ht |].
      split; [cbn [List.length]; lia | now right].
Qed.

(** The ZIP loop fails in two ways only. *)
Lemma compressZipLoop_errors ctx env opts baseDir len rest :
  forall i stats e stats' tr,
    compressZipLoop ctx env opts baseDir len i rest stats
    = (Some e, stats', tr) ->
    e = ErrCancelled \/ exists name cause, e = ErrAddFile name cause.
Proof.
  induction rest as [|file rest IH]; intros i stats e stats' tr;
    cbn [compressZipLoop]; [discriminate |].
  destruct (ctx i); [intros H; injection H as <- _ _; now left |].
  destruct (addFileToZip env file (relOrBase baseDir file)) as [[c|] evs].
  - intros H. injection H as <- _ _. right. eauto.
  - destruct (compressZipLoop ctx env opts baseDir len (S i) rest _)
      as [[err2 stats2] evs2] eqn:E.
    intros H. injection H as -> _ _. eapply IH, E.
Qed.

(** The run of the ZIP loop in which the file at index [k] is the first
    that cannot be added: the error names that file, the processed count
    already includes it, and the entries copied are the [k] before it. *)
Lemma compressZipLoop_add_failure ctx env opts baseDir len :
  forall k rest i stats file stage cause,
    nth_error rest k = Some file ->
    (forall j, (j <= k)%nat -> ctx (i + j)%nat = false) ->
    (forall f, In f (firstn k rest) -> AddFault env f = None) ->
    AddFault env file = Some (stage, cause) ->
    exists stats' tr,
      compressZipLoop ctx env opts baseDir len i rest stats
      = (Some (ErrAddFile (relOrBase baseDir file) cause), stats', tr)
      /\ ProcessedFiles stats' = Z.of_nat (i + k + 1)
      /\ CurrentFile stats' = relOrBase baseDir file
      /\ copiedNames tr = map (relOrBase baseDir) (firstn k rest).
Proof.
  induction k as [|k IH]; intros rest i stats file stage cause Hnth Hlive Hok
    Hbad; destruct rest as [|f0 rest]; try discriminate Hnth;
    cbn [nth_error] in Hnth; cbn [compressZipLoop firstn];
    pose proof (Hlive 0%nat ltac:(lia)) as H0; rewrite Nat.add_0_r in H0;
    rewrite H0; unfold addFileToZip.
  - injection Hnth as ->. rewrite Hbad.
    destruct stage; (eexists _, _; split; [reflexivity |]); cbn;
      rewrite copiedNames_app, copiedNames_notify;
      (repeat split; f_equal; lia).
  - rewrite (Hok f0) by now left.
    destruct (IH rest (S i)
                (setProgress stats (Z.of_nat i + 1) (relOrBase baseDir f0))
                file stage cause Hnth)
      as (stats' & tr & Hrun & Hp & Hc & Hn); [| | assumption |].
    + intros j Hj. rewrite <- (Hlive (S j)) by lia. f_equal. lia.
    + intros f Hf. apply Hok. now right.
    + rewrite Hrun. eexists _, _. split; [reflexivity |].
      split; [rewrite Hp; f_equal; lia |]. split; [assumption |].
      rewrite copiedNames_app, copiedNames_notify. cbn. now rewrite Hn.
Qed.

(** ** The shape of a compression *)

(** What an adapter does: it fails to create the output and does nothing;
    or it creates it, fails to set up the codec and closes it; or it
    creates it, runs the entry loop (the ZIP loop, seen through [asTar]
    for the TAR adapters), closes its writers and closes the file. *)
Lemma adapter_shape format run fs opts stats ctx env err stats' evs :
  compressorFor format = Some run ->
  run fs opts stats ctx env = (err, stats', evs) ->
  (evs = [] /\ exists cause, err = Some (ErrCreateOutput cause))
  \/ (evs = [CreateOutput (Output opts); CloseWriter "file"]
      /\ exists codec cause, err = Some (ErrNewWriter codec cause))
  \/ (exists ztr view closes,
        compressZipLoop ctx env opts (filepath.Dir (Source opts))
          (Z.of_nat (List.length fs)) 0 fs stats
        = (err, stats', ztr)
        /\ (view = (fun e => e) \/ view = asTar)
        /\ evs = (CreateOutput (Output opts)
                  :: map view ztr ++ closes ++ [CloseWriter "file"])%list
        /\ Forall isClose closes).
Proof.
  intros Hrun. unfold compressorFor in Hrun.
  assert (Hzip : compressZip ctx env fs opts stats = (err, stats', evs) ->
                 (evs = [] /\ exists cause, err = Some (ErrCreateOutput cause))
                 \/ (evs = [CreateOutput (Output opts); CloseWriter "file"]
                     /\ exists codec cause,
                          err = Some (ErrNewWriter codec cause))
                 \/ (exists ztr view closes,
                       compressZipLoop ctx env opts
                         (filepath.Dir (Source opts))
                         (Z.of_nat (List.length fs)) 0 fs stats
                       = (err, stats', ztr)
                       /\ (view = (fun e => e) \/ view = asTar)
                       /\ evs = (CreateOutput (Output opts)
                                 :: map view ztr ++ closes
                                 ++ [CloseWriter "file"])%list
                       /\ Forall isClose closes)).
  { unfold compressZip. destruct (Create env (Output opts)) as [c|].
    - intros H. injection H as <- _ <-. left. eauto.
    - destruct (compressZipLoop _ _ _ _ _ _ _ _) as [[err2 stats2] evs2].
      intros H. injection H as <- <- <-. right. right.
      exists evs2, (fun e => e), [CloseWriter "zip"].
      rewrite map_id. repeat split; auto. repeat constructor. }
  assert (Htar : forall codec fallible,
            compressTarWith codec fallible ctx env fs opts stats
            = (err, stats', evs) ->
            (evs = [] /\ exists cause, err = Some (ErrCreateOutput cause))
            \/ (evs = [CreateOutput (Output opts); CloseWriter "file"]
                /\ exists codec cause,
                     err = Some (ErrNewWriter codec cause))
            \/ (exists ztr view closes,
                  compressZipLoop ctx env opts
                    (filepath.Dir (Source opts))
                    (Z.of_nat (List.length fs)) 0 fs stats
                  = (err, stats', ztr)
                  /\ (view = (fun e => e) \/ view = asTar)
                  /\ evs = (CreateOutput (Output opts)
                            :: map view ztr ++ closes
                            ++ [CloseWriter "file"])%list
                  /\ Forall isClose closes)).
  { intros codec fallible. unfold compressTarWith, compressTar.
    destruct (Create env (Output opts)) as [c|].
    - intros H. injection H as <- _ <-. left. eauto.
    - destruct (if fallible then NewWriter env codec else None) as [c|].
      + intros H. injection H as <- _ <-. right. left. eauto.
      + rewrite compressTarLoop_as_zip.
        destruct (compressZipLoop _ _ _ _ _ _ _ _) as [[err2 stats2] evs2].
        cbn [fst snd]. intros H. injection H as <- <- <-. right. right.
        exists evs2, asTar, [CloseWriter "tar"; CloseWriter codec].
        repeat split; auto; [| repeat constructor].
        cbn. f_equal. now rewrite <- !app_assoc. }
  repeat match type of Hrun with
         | (if ?c then _ else _) = _ => destruct c
         end;
    try discriminate Hrun; injection Hrun as <-; intros H;
    first [exact (Hzip H) | eapply Htar; exact H].
Qed.

(** What [Compress] does: it fails before an adapter is selected and does
    nothing; or it runs the adapter of the format on the collected files
    and hands back the adapter's error, or stats the output and hands
    back the statistics. *)
Lemma Compress_shape Match ctx env opts r tr :
  Compress Match ctx env opts = (r, tr) ->
  (tr = [] /\ fst r = None
   /\ exists e, snd r = Some e /\ beforeAdapter (Format opts) e)
  \/ exists fs size excluded run err stats' evs,
       collectFiles Match env (Source opts) (Excludes opts)
       = (fs, size, excluded, None)
       /\ fs <> []
       /\ compressorFor (Format opts) = Some run
       /\ run fs opts (initialStats fs size excluded) ctx env
          = (err, stats', evs)
       /\ ((exists e, err = Some e /\ r = (None, Some e) /\ tr = evs)
           \/ (err = None
               /\ tr = (evs ++ [StatOutput (Output opts)])%list
               /\ r = (Some match StatOutputSize env (Output opts) with
                            | Ok n => setCompressed stats' n
                            | Fail _ => stats'
                            end, None))).
Proof.
  unfold Compress, beforeAdapter.
  destruct (Stat env (Source opts)) as [info|c].
  2:{ intros H. injection H as <- <-. left. cbn. eauto 10. }
  destruct (collectFiles Match env (Source opts) (Excludes opts))
    as [[[fs size] excluded] [c|]] eqn:Hcollect.
  { intros H. injection H as <- <-. left. cbn. eauto 10. }
  cbn [TotalFiles].
  destruct (Z.of_nat (List.length fs) =? 0)%Z eqn:Hlen.
  { intros H. injection H as <- <-. left. cbn. eauto 10. }
  destruct (compressorFor (Format opts)) as [run|] eqn:Hrun.
  2:{ intros H. injection H as <- <-. left. cbn. eauto 10. }
  fold (initialStats fs size excluded).
  destruct (run fs opts (initialStats fs size excluded) ctx env)
    as [[err stats'] evs] eqn:E.
  intros H. right. exists fs, size, excluded, run, err, stats', evs.
  split; [first [reflexivity | assumption] |].
  split; [intros ->; discriminate Hlen |].
  split; [first [reflexivity | assumption] |].
  split; [first [reflexivity | assumption] |].
  destruct err as [e|].
  - injection H as <- <-. left. eauto.
  - right. split; [reflexivity |].
    destruct (StatOutputSize env (Output opts)); injection H as <- <-; auto.
Qed.

Lemma copiedNames_closes (closes : list event) :
  Forall isClose closes -> copiedNames closes = [].
Proof.
  induction 1 as [|e l He _ IH]; [reflexivity |].
  destruct e; cbn in *; try contradiction. exact IH.
Qed.

Lemma In_stats_closes s (closes : list event) :
  Forall isClose closes -> ~ In (CallOnStats s) closes.
Proof.
  intros H Hin. rewrite Forall_forall in H. exact (H _ Hin).
Qed.

Lemma In_stats_view s view (ztr : list event) :
  view = (fun e : event => e) \/ view = asTar ->
  In (CallOnStats s) (map view ztr) -> In (CallOnStats s) ztr.
Proof.
  intros [-> | ->]; [now rewrite map_id | apply In_stats_asTar].
Qed.

Lemma copiedNames_view view (ztr : list event) :
  view = (fun e : event => e) \/ view = asTar ->
  copiedNames (map view ztr) = copiedNames ztr.
Proof.
  intros [-> | ->]; [now rewrite map_id | apply copiedNames_asTar].
Qed.

(** X1. When no file is eligible, [Compress] fails with the no-files
    error whatever the format, known or not.  And a failed [Compress]
    has done nothing at all exactly when its error is one of: source
    missing, collection failed, no files, unsupported format, output
    not created; with any other error the output file has been
    created. *)
Theorem compress_failures_before_output Match ctx env opts :
  (forall info size excluded,
     Stat env (Source opts) = Ok info ->
     collectFiles Match env (Source opts) (Excludes opts)
     = ([], size, excluded, None) ->
     Compress Match ctx env opts = ((None, Some ErrNoFiles), []))
  /\ (forall e tr,
        Compress Match ctx env opts = ((None, Some e), tr) ->
        (tr = []
         <-> beforeAdapter (Format opts) e
             \/ exists cause, e = ErrCreateOutput cause)).
Proof.
  split.
  - intros info size excluded Hstat Hcollect. unfold Compress.
    now rewrite Hstat, Hcollect.
  - intros e tr H. apply Compress_shape in H.
    destruct H as [(-> & _ & e' & He & Hkind)
                  | (fs & size & excluded & run & err & stats' & evs & _ & _
                     & Hrun & Hres & Hend)].
    { cbn in He. injection He as <-. split; auto. }
    destruct Hend as [(e' & -> & Hr & ->) | (_ & _ & Hr)];
      [| discriminate Hr].
    injection Hr as <-.
    destruct (adapter_shape _ _ _ _ _ _ _ _ _ _ Hrun Hres)
      as [(-> & cause & Hc)
         | [(-> & codec & cause & Hc)
           | (ztr & view & closes & Hloop & _ & -> & _)]].
    + injection Hc as ->. split; eauto.
    + injection Hc as ->. split; [discriminate |].
      unfold beforeAdapter.
      intros [[(c & Hc) | [(c & Hc) | [Hc | Hc]]] | (c & Hc)];
        discriminate Hc.
    + split; [discriminate |].
      apply compressZipLoop_errors in Hloop. unfold beforeAdapter.
      intros [[(c & Hc) | [(c & Hc) | [Hc | Hc]]] | (c & Hc)];
        destruct Hloop as [-> | (n & c' & ->)]; discriminate Hc.
Qed.

(** The statement at work: a compression cancelled at the first poll has
    created and closed its output, and its error is not an early one. *)
Lemma compress_failures_before_output_witness :
  [CreateOutput "/data/a.zip"; CloseWriter "zip"; CloseWriter "file"] = []
  <-> beforeAdapter (Format sampleZipOptions) ErrCancelled
      \/ exists cause, ErrCancelled = ErrCreateOutput cause.
Proof.
  exact (proj2 (compress_failures_before_output suffixGlob
                  (cancelledAfter 0) sampleEnv sampleZipOptions)
           ErrCancelled
           [CreateOutput "/data/a.zip"; CloseWriter "zip";
            CloseWriter "file"] eq_refl).
Defined.

(** X2. A compression that succeeds has copied every collected file into
    the archive, once each and in the order of collection, under its
    name relative to the parent of the source; and the statistics it
    returns carry the number of files, the total size and the excluded
    count of the collection. *)
Theorem compress_copies_each_file_once
  Match ctx env opts fs size excluded stats tr :
  collectFiles Match env (Source opts) (Excludes opts)
  = (fs, size, excluded, None) ->
  Compress Match ctx env opts = ((Some stats, None), tr) ->
  copiedNames tr = map (relOrBase (filepath.Dir (Source opts))) fs
  /\ TotalFiles stats = Z.of_nat (List.length fs)
  /\ TotalSize stats = size
  /\ ExcludedFiles stats = excluded.
Proof.
  intros Hcollect H. apply Compress_shape in H.
  destruct H as [(_ & _ & e' & He & _)
                | (fs' & size' & excluded' & run & err & stats' & evs & Hc
                   & _ & Hrun & Hres & Hend)]; [discriminate He |].
  rewrite Hcollect in Hc. injection Hc as <- <- <-.
  destruct Hend as [(e' & _ & Hr & _) | (-> & -> & Hr)]; [discriminate Hr |].
  destruct (adapter_shape _ _ _ _ _ _ _ _ _ _ Hrun Hres)
    as [(_ & cause & Hc)
       | [(_ & codec & cause & Hc)
         | (ztr & view & closes & Hloop & Hview & -> & Hcloses)]];
    try discriminate Hc.
  pose proof (compressZipLoop_totals _ _ _ _ _ _ _ _ _ _ _ Hloop)
    as (Htf & Hts & _ & Hex & _).
  destruct (compressZipLoop_copied _ _ _ _ _ _ _ _ _ _ _ Hloop)
    as (k & _ & Hk & Hall).
  rewrite (Hall eq_refl), firstn_all in Hk.
  split.
  - cbn [copiedNames app].
    rewrite !copiedNames_app, (copiedNames_view _ _ Hview), Hk,
      (copiedNames_closes _ Hcloses).
    cbn. now rewrite !app_nil_r.
  - injection Hr as ->. cbn in Htf, Hts, Hex.
    destruct (StatOutputSize env (Output opts)); cbn; auto.
Qed.

(** The statement at work on the sample compression. *)
Lemma compress_copies_each_file_once_witness :
  copiedNames (snd sampleZipRun) = ["a.txt"].
Proof.
  exact (proj1 (compress_copies_each_file_once suffixGlob background
                  sampleEnv sampleZipOptions ["/data/a.txt"] 1000 0
                  (mkCompressStats 1 1 1000 400 0 "a.txt" 60%float)
                  (snd sampleZipRun) eq_refl eq_refl)).
Defined.

(** X3. Every snapshot handed to [OnStats] during a compression carries
    the totals of the collection, a processed count between 1 and the
    number of files, and the archive name of one of the files; the
    compressed size and the rate are still zero in all of them: they are
    known in the returned statistics only. *)
Theorem snapshots_carry_the_totals
  Match ctx env opts fs size excluded r tr s :
  collectFiles Match env (Source opts) (Excludes opts)
  = (fs, size, excluded, None) ->
  Compress Match ctx env opts = (r, tr) ->
  In (CallOnStats s) tr ->
  TotalFiles s = Z.of_nat (List.length fs)
  /\ TotalSize s = size
  /\ ExcludedFiles s = excluded
  /\ CompressedSize s = 0%Z
  /\ CompressionRate s = 0%float
  /\ (1 <= ProcessedFiles s <= Z.of_nat (List.length fs))%Z
  /\ In (CurrentFile s) (map (relOrBase (filepath.Dir (Source opts))) fs).
Proof.
  intros Hcollect H Hin. apply Compress_shape in H.
  destruct H as [(-> & _) | (fs' & size' & excluded' & run & err & stats'
                             & evs & Hc & _ & Hrun & Hres & Hend)];
    [destruct Hin |].
  rewrite Hcollect in Hc. injection Hc as <- <- <-.
  assert (Hevs : In (CallOnStats s) evs).
  { destruct Hend as [(e' & _ & _ & ->) | (_ & -> & _)]; [assumption |].
    apply in_app_or in Hin. destruct Hin as [Hin | [Hin | []]];
      [assumption | discriminate Hin]. }
  destruct (adapter_shape _ _ _ _ _ _ _ _ _ _ Hrun Hres)
    as [(-> & _)
       | [(-> & _)
         | (ztr & view & closes & Hloop & Hview & -> & Hcloses)]].
  - destruct Hevs.
  - destruct Hevs as [Hevs | [Hevs | []]]; discriminate Hevs.
  - destruct Hevs as [Hevs | Hevs]; [discriminate Hevs |].
    apply in_app_or in Hevs. destruct Hevs as [Hevs | Hevs].
    + apply (In_stats_view _ _ _ Hview) in Hevs.
      pose proof (compressZipLoop_snapshots ctx env opts
                    (filepath.Dir (Source opts))
                    (Z.of_nat (List.length fs)) fs 0%nat
                    (initialStats fs size excluded) s) as Hs.
      rewrite Hloop in Hs.
      destruct (Hs Hevs) as ((Htf & Hts & Hcs & Hex & Hcr) & Hp & Hcur).
      cbn in *. repeat split; auto; lia.
    + apply in_app_or in Hevs. destruct Hevs as [Hevs | [Hevs | []]];
        [| discriminate Hevs].
      now apply In_stats_closes in Hevs.
Qed.

(** The statement at work on the sample compression. *)
Lemma snapshots_carry_the_totals_witness :
  CompressedSize (mkCompressStats 1 1 1000 0 0 "a.txt" 0%float) = 0%Z.
Proof.
  refine (proj1 (proj2 (proj2 (proj2
            (snapshots_carry_the_totals suffixGlob background sampleEnv
               sampleZipOptions ["/data/a.txt"] 1000 0 (fst sampleZipRun)
               (snd sampleZipRun)
               (mkCompressStats 1 1 1000 0 0 "a.txt" 0%float)
               eq_refl eq_refl _))))).
  vm_compute. right. right. left. reflexivity.
Defined.

(** X4. When the file at index [k] is the first that cannot be added (and
    the context is not cancelled before), the loop of either container
    stops with the add-file error for that file; the processed count is
    [k + 1], the failed file included, and the current file is the
    failed one, while the entries copied in full are the [k] before
    it. *)
Theorem add_failure_counts_the_failed_file ctx env opts baseDir len
  k fs stats file stage cause :
  nth_error fs k = Some file ->
  (forall j, (j <= k)%nat -> ctx j = false) ->
  (forall f, In f (firstn k fs) -> AddFault env f = None) ->
  AddFault env file = Some (stage, cause) ->
  (exists stats' tr,
     compressZipLoop ctx env opts baseDir len 0 fs stats
     = (Some (ErrAddFile (relOrBase baseDir file) cause), stats', tr)
     /\ ProcessedFiles stats' = Z.of_nat (k + 1)
     /\ CurrentFile stats' = relOrBase baseDir file
     /\ copiedNames tr = map (relOrBase baseDir) (firstn k fs))
  /\ (exists stats' tr,
        compressTarLoop ctx env opts baseDir len 0 fs stats
        = (Some (ErrAddFile (relOrBase baseDir file) cause), stats', tr)
        /\ ProcessedFiles stats' = Z.of_nat (k + 1)
        /\ CurrentFile stats' = relOrBase baseDir file
        /\ copiedNames tr = map (relOrBase baseDir) (firstn k fs)).
Proof.
  intros Hnth Hlive Hok Hbad.
  destruct (compressZipLoop_add_failure ctx env opts baseDir len k fs 0%nat
              stats file stage cause Hnth Hlive Hok Hbad)
    as (stats' & tr & Hrun & Hp & Hc & Hn).
  split.
  - exists stats', tr. auto.
  - exists stats', (map asTar tr). rewrite compressTarLoop_as_zip, Hrun.
    cbn [fst snd]. rewrite copiedNames_asTar. auto.
Qed.

(** The statement at work: the second of two files cannot be read. *)
Lemma add_failure_counts_the_failed_file_witness :
  exists stats' tr,
    compressTarLoop background faultyEnv sampleZipOptions "/data" 2 0
      ["/data/a.txt"; "/data/b.txt"]
      (initialStats ["/data/a.txt"; "/data/b.txt"] 2000 0)
    = (Some (ErrAddFile "b.txt" "EACCES"), stats', tr)
    /\ ProcessedFiles stats' = 2%Z
    /\ CurrentFile stats' = "b.txt"
    /\ copiedNames tr = ["a.txt"].
Proof.
  refine (proj2 (add_failure_counts_the_failed_file background faultyEnv
                   sampleZipOptions "/data" 2 1 ["/data/a.txt"; "/data/b.txt"]
                   (initialStats ["/data/a.txt"; "/data/b.txt"] 2000 0)
                   "/data/b.txt" AtOpen "EACCES" eq_refl _ _ eq_refl)).
  - intros j _. reflexivity.
  - intros f [<- | []]. reflexivity.
Defined.

(** X5. The output file is closed whenever it was created, and it is never
    removed: a compression either does nothing, or creates the output,
    works, closes the file and fails, or does the same and then stats
    the output and succeeds. *)
Theorem output_closed_whenever_created Match ctx env opts r tr :
  Compress Match ctx env opts = (r, tr) ->
  (tr = [] /\ fst r = None)
  \/ (exists mid,
        tr = (CreateOutput (Output opts) :: mid ++ [CloseWriter "file"])%list
        /\ fst r = None /\ snd r <> None)
  \/ (exists mid,
        tr = (CreateOutput (Output opts)
              :: mid ++ [CloseWriter "file"; StatOutput (Output opts)])%list
        /\ fst r <> None /\ snd r = None).
Proof.
  intros H. apply Compress_shape in H.
  destruct H as [(-> & Hr & _) | (fs & size & excluded & run & err & stats'
                                  & evs & _ & _ & Hrun & Hres & Hend)];
    [now left |].
  destruct (adapter_shape _ _ _ _ _ _ _ _ _ _ Hrun Hres)
    as [(-> & cause & ->)
       | [(-> & codec & cause & ->)
         | (ztr & view & closes & _ & _ & -> & _)]].
  - destruct Hend as [(e & _ & -> & ->) | (Hn & _)]; [now left | discriminate].
  - destruct Hend as [(e & _ & -> & ->) | (Hn & _)]; [| discriminate].
    right. left. exists []. cbn. repeat split. discriminate.
  - destruct Hend as [(e & _ & -> & ->) | (_ & -> & ->)].
    + right. left. exists (map view ztr ++ closes)%list. cbn.
      rewrite <- app_assoc. repeat split. discriminate.
    + right. right. exists (map view ztr ++ closes)%list. cbn.
      rewrite <- !app_assoc. repeat split. discriminate.
Qed.

(** The statement at work on the sample compression. *)
Lemma output_closed_whenever_created_witness :
  (snd sampleZipRun = [] /\ fst (fst sampleZipRun) = None)
  \/ (exists mid,
        snd sampleZipRun
        = (CreateOutput "/data/a.zip" :: mid ++ [CloseWriter "file"])%list
        /\ fst (fst sampleZipRun) = None /\ snd (fst sampleZipRun) <> None)
  \/ (exists mid,
        snd sampleZipRun
        = (CreateOutput "/data/a.zip"
           :: mid ++ [CloseWriter "file"; StatOutput "/data/a.zip"])%list
        /\ fst (fst sampleZipRun) <> None /\ snd (fst sampleZipRun) = None).
Proof.
  exact (output_closed_whenever_created suffixGlob background sampleEnv
           sampleZipOptions (fst sampleZipRun) (snd sampleZipRun) eq_refl).
Defined.

(** ** Further properties of extraction *)

Lemma keepsPrefix_notifyX output opts k len name stats :
  Forall (keepsPrefix output) (notifyX opts k len name stats).
Proof.
  unfold notifyX.
  destruct (xOnProgress opts), (xOnStats opts); repeat constructor;
    intros p H; discriminate H.
Qed.

Lemma keepsPrefix_target output name :
  pathAllowed output name = true ->
  forall p, Some (targetPathOf output name) = Some p ->
    strings.HasPrefix (filepath.Clean p) (filepath.Clean output) = true.
Proof. intros H p Hp. injection Hp as <-. exact H. Qed.

Lemma extractTarEntry_keepsPrefix env opts header stats :
  Forall (keepsPrefix (xOutput opts))
    (snd (extractTarEntry env opts header stats)).
Proof.
  unfold extractTarEntry.
  destruct (pathAllowed (xOutput opts) (hName header)) eqn:Hok;
    cbn [negb]; [| constructor].
  pose proof (keepsPrefix_target _ _ Hok) as Ht.
  repeat break_match; cbn [snd];
    repeat (apply Forall_cons;
            [first [exact Ht | intros p H; discriminate H] |]);
    apply Forall_nil.
Qed.

Lemma extractZipEntry_keepsPrefix env opts file stats :
  Forall (keepsPrefix (xOutput opts))
    (snd (extractZipEntry env opts file stats)).
Proof.
  unfold extractZipEntry.
  destruct (pathAllowed (xOutput opts) (zName file)) eqn:Hok;
    cbn [negb]; [| constructor].
  pose proof (keepsPrefix_target _ _ Hok) as Ht.
  assert (Hfile : Forall (keepsPrefix (xOutput opts))
            (snd (extractZipFile env file
                    (targetPathOf (xOutput opts) (zName file))))).
  { unfold extractZipFile. repeat break_match; cbn [snd];
      repeat (apply Forall_cons; [exact Ht |]); apply Forall_nil. }
  assert (Hdir : forall q perm, keepsPrefix (xOutput opts) (MkdirAll q perm))
    by (intros q perm p H; discriminate H).
  destruct (zIsDir file).
  { destruct (OsMkdirAll env _); cbn [snd]; repeat constructor.
    apply Hdir. }
  destruct (OsMkdirAll env _); [constructor |].
  destruct (extractZipFile env file _) as [[e|] l]; cbn [snd] in *;
    (constructor; [apply Hdir | exact Hfile]).
Qed.

Lemma extractTarLoop_keepsPrefix ctx env opts last rest :
  forall i stats,
    Forall (keepsPrefix (xOutput opts))
      (snd (extractTarLoop ctx env opts i rest last stats)).
Proof.
  induction rest as [|header rest IH]; intros i stats; cbn [extractTarLoop].
  - destruct (ctx i); [| destruct last]; constructor.
  - destruct (ctx i); [constructor |].
    pose proof (extractTarEntry_keepsPrefix env opts header
                  (setProgressX stats (Z.of_nat i + 1) (hName header))) as He.
    destruct (extractTarEntry env opts header _) as [[e|stats2] evs];
      cbn [snd] in *.
    + apply Forall_app. split; [apply keepsPrefix_notifyX | exact He].
    + specialize (IH (S i) stats2).
      destruct (extractTarLoop ctx env opts (S i) rest last stats2)
        as [[err stats3] evs2].
      cbn [snd] in *. apply Forall_app.
      split; [apply keepsPrefix_notifyX |].
      apply Forall_app. split; assumption.
Qed.

Lemma extractZipLoop_keepsPrefix ctx env opts len rest :
  forall i stats,
    Forall (keepsPrefix (xOutput opts))
      (snd (extractZipLoop ctx env opts len i rest stats)).
Proof.
  induction rest as [|file rest IH]; intros i stats; cbn [extractZipLoop].
  - constructor.
  - destruct (ctx i); [constructor |].
    pose proof (extractZipEntry_keepsPrefix env opts file
                  (setProgressX stats (Z.of_nat i + 1) (zName file))) as He.
    destruct (extractZipEntry env opts file _) as [[e|stats2] evs];
      cbn [snd] in *.
    + apply Forall_app. split; [apply keepsPrefix_notifyX | exact He].
    + specialize (IH (S i) stats2).
      destruct (extractZipLoop ctx env opts len (S i) rest stats2)
        as [[err stats3] evs2].
      cbn [snd] in *. apply Forall_app.
      split; [apply keepsPrefix_notifyX |].
      apply Forall_app. split; assumption.
Qed.

Lemma extractTarWith_keepsPrefix codec fallible ctx env opts stats :
  Forall (keepsPrefix (xOutput opts))
    (snd (extractTarWith codec fallible ctx env opts stats)).
Proof.
  unfold extractTarWith, extractTarReader.
  destruct (OsOpen env (xSource opts)); [constructor |].
  destruct (if fallible then NewReader env codec else None); [constructor |].
  apply extractTarLoop_keepsPrefix.
Qed.

(** X7. Whatever the archive holds, every file [Extract] creates or writes
    and every symbolic link it makes is at a path whose cleaned form has
    the cleaned output root as a string prefix. *)
Theorem extract_creates_under_prefix ctx env opts e p :
  In e (snd (Extract ctx env opts)) ->
  madeAt e = Some p ->
  strings.HasPrefix (filepath.Clean p) (filepath.Clean (xOutput opts)) = true.
Proof.
  intros Hin. revert p.
  change (keepsPrefix (xOutput opts) e).
  assert (H : Forall (keepsPrefix (xOutput opts)) (snd (Extract ctx env opts))).
  { unfold Extract.
    destruct (Stat env (xSource opts)) as [info|]; [| constructor].
    destruct (DetectArchiveFormat (xSource opts) =? ""); [constructor |].
    destruct (OsMkdirAll env (xOutput opts)); [constructor |].
    assert (Hmade : keepsPrefix (xOutput opts) (MkdirAll (xOutput opts) 493))
      by (intros q Hq; discriminate Hq).
    assert (Hres : forall r : option error * ExtractStats * list event,
              Forall (keepsPrefix (xOutput opts)) (snd r) ->
              Forall (keepsPrefix (xOutput opts))
                (snd match r with
                     | (Some e0, _, evs) =>
                         ((None, Some e0), MkdirAll (xOutput opts) 493 :: evs)
                     | (None, stats', evs) =>
                         ((Some stats', None),
                          MkdirAll (xOutput opts) 493 :: evs)
                     end)).
    { intros [[[e0|] s] evs] Hr; cbn [snd] in *; now constructor. }
    repeat match goal with
           | |- context [if ?c then _ else _] => destruct c
           end;
      first [ apply Hres;
              first [ apply extractZipLoop_keepsPrefix
                    | apply extractTarWith_keepsPrefix
                    | unfold extractZip;
                      destruct (ZipOpenReader env (xSource opts));
                      [apply extractZipLoop_keepsPrefix | constructor] ]
            | repeat constructor; exact Hmade ]. }
  rewrite Forall_forall in H. exact (H e Hin).
Qed.

(** The statement at work: the sibling that slips through the check of
    [/out] is created at a path that starts with [/out]. *)
Lemma extract_creates_under_prefix_witness :
  strings.HasPrefix (filepath.Clean "/out2/f") (filepath.Clean "/out") = true.
Proof.
  refine (extract_creates_under_prefix background
            (calmEnv (oneFile "a.tar" 1000) []
               [mkTarHeader "../out2/f" TypeReg 420 "" 7] 0)
            (mkExtractOptions "a.tar" "/out" false false)
            (OpenFile "/out2/f" 420) "/out2/f" _ eq_refl).
  vm_compute. right. right. left. reflexivity.
Defined.

Lemma extractTarEntry_symlink env f opts header stats :
  fst (extractTarEntry (setOsSymlink env f) opts header stats)
  = fst (extractTarEntry env opts header stats).
Proof.
  unfold extractTarEntry, setOsSymlink.
  cbn [OsMkdirAll OsOpenFile IoCopy OsSymlink].
  repeat break_match; reflexivity.
Qed.

Lemma extractTarLoop_symlink ctx env f opts last rest :
  forall i stats,
    fst (extractTarLoop ctx (setOsSymlink env f) opts i rest last stats)
    = fst (extractTarLoop ctx env opts i rest last stats).
Proof.
  induction rest as [|header rest IH]; intros i stats; cbn [extractTarLoop].
  - reflexivity.
  - destruct (ctx i); [reflexivity |].
    pose proof (extractTarEntry_symlink env f opts header
                  (setProgressX stats (Z.of_nat i + 1) (hName header))) as He.
    destruct (extractTarEntry (setOsSymlink env f) opts header _)
      as [r1 evs1].
    destruct (extractTarEntry env opts header _) as [r2 evs2].
    cbn [fst] in He. subst r2. destruct r1 as [e|stats2]; [reflexivity |].
    specialize (IH (S i) stats2).
    destruct (extractTarLoop ctx (setOsSymlink env f) opts (S i) rest last
                stats2) as [[err1 s1] t1].
    destruct (extractTarLoop ctx env opts (S i) rest last stats2)
      as [[err2 s2] t2].
    cbn [fst] in *. now injection IH as -> ->.
Qed.

Lemma extractZipLoop_symlink ctx env f opts len rest :
  forall i stats,
    extractZipLoop ctx (setOsSymlink env f) opts len i rest stats
    = extractZipLoop ctx env opts len i rest stats.
Proof.
  induction rest as [|file rest IH]; intros i stats; cbn [extractZipLoop];
    [reflexivity |].
  destruct (ctx i); [reflexivity |].
  change (extractZipEntry (setOsSymlink env f) opts file
            (setProgressX stats (Z.of_nat i + 1) (zName file)))
    with (extractZipEntry env opts file
            (setProgressX stats (Z.of_nat i + 1) (zName file))).
  destruct (extractZipEntry env opts file _) as [[e|stats2] evs];
    [reflexivity |].
  now rewrite IH.
Qed.

(** X8. A symbolic link that cannot be made never changes the outcome of
    an extraction: with any other answer of [os.Symlink], [Extract]
    returns the same statistics and the same error. *)
Theorem symlink_failures_are_skipped ctx env f opts :
  fst (Extract ctx (setOsSymlink env f) opts) = fst (Extract ctx env opts).
Proof.
  unfold Extract. cbn [setOsSymlink Stat OsMkdirAll].
  destruct (Stat env (xSource opts)) as [info|]; [| reflexivity].
  destruct (DetectArchiveFormat (xSource opts) =? ""); [reflexivity |].
  destruct (OsMkdirAll env (xOutput opts)); [reflexivity |].
  assert (Htar : forall codec fallible stats,
            fst (extractTarWith codec fallible ctx (setOsSymlink env f) opts
                   stats)
            = fst (extractTarWith codec fallible ctx env opts stats)).
  { intros codec fallible stats. unfold extractTarWith, extractTarReader.
    cbn [setOsSymlink OsOpen NewReader TarEntries].
    destruct (OsOpen env (xSource opts)); [reflexivity |].
    destruct (if fallible then NewReader env codec else None);
      [reflexivity |].
    apply extractTarLoop_symlink. }
  assert (Hzip : forall stats,
            extractZip ctx (setOsSymlink env f) opts stats
            = extractZip ctx env opts stats).
  { intros stats. unfold extractZip. cbn [setOsSymlink ZipOpenReader].
    destruct (ZipOpenReader env (xSource opts)); [| reflexivity].
    apply extractZipLoop_symlink. }
  assert (Hres : forall r1 r2 : option error * ExtractStats * list event,
            fst r1 = fst r2 ->
            fst match r1 with
                | (Some e, _, evs) =>
                    ((None, Some e), MkdirAll (xOutput opts) 493 :: evs)
                | (None, stats', evs) =>
                    ((Some stats', None), MkdirAll (xOutput opts) 493 :: evs)
                end
            = fst match r2 with
                  | (Some e, _, evs) =>
                      ((None, Some e), MkdirAll (xOutput opts) 493 :: evs)
                  | (None, stats', evs) =>
                      ((Some stats', None),
                       MkdirAll (xOutput opts) 493 :: evs)
                  end).
  { intros [[e1 s1] t1] [[e2 s2] t2] H. cbn [fst] in H.
    injection H as -> ->. now destruct e2. }
  repeat match goal with
         | |- context [if ?c then _ else _] => destruct c
         end;
    first [ apply Hres; first [ now rewrite Hzip | apply Htar ]
          | reflexivity ].
Qed.

Lemma extractTarEntry_fields env opts header stats stats' evs :
  extractTarEntry env opts header stats = (inr stats', evs) ->
  xTotalFiles stats' = xTotalFiles stats
  /\ xExtractedSize stats'
     = match hTypeflag header with
       | TypeReg => wrap64 (xExtractedSize stats + hSize header)
       | _ => xExtractedSize stats
       end.
Proof.
  unfold extractTarEntry.
  repeat break_match; intros H; try discriminate H;
    injection H as <- <-; split; reflexivity.
Qed.

Lemma extractZipEntry_fields env opts file stats stats' evs :
  extractZipEntry env opts file stats = (inr stats', evs) ->
  xTotalFiles stats' = xTotalFiles stats
  /\ xExtractedSize stats'
     = if zIsDir file then xExtractedSize stats
       else wrap64 (xExtractedSize stats + wrap64 (zUncompressedSize64 file)).
Proof.
  unfold extractZipEntry.
  repeat break_match; intros H; try discriminate H;
    injection H as <- <-; split; reflexivity.
Qed.

Lemma reportsTotal_notifyX opts k total name stats :
  Forall (reportsTotal total (xTotalFiles stats))
    (notifyX opts k total name (setProgressX stats k name)).
Proof.
  unfold notifyX.
  destruct (xOnProgress opts), (xOnStats opts); repeat constructor.
Qed.

Lemma reportsTotal_work total files output name (evs : list event) :
  Forall (worksOn output name) evs -> Forall (reportsTotal total files) evs.
Proof.
  intros H. eapply Forall_impl; [| exact H].
  intros e He. destruct e; cbn in *; auto; contradiction.
Qed.

Lemma extractTarLoop_totals ctx env opts last rest :
  forall i stats,
    xProcessedFiles stats = Z.of_nat i ->
    Forall (reportsTotal 0 (xTotalFiles stats))
      (snd (extractTarLoop ctx env opts i rest last stats))
    /\ (fst (fst (extractTarLoop ctx env opts i rest last stats)) = None ->
        let stats' := snd (fst (extractTarLoop ctx env opts i rest last stats))
        in xTotalFiles stats' = Z.of_nat (i + List.length rest)
           /\ xProcessedFiles stats' = Z.of_nat (i + List.length rest)).
Proof.
  induction rest as [|header rest IH]; intros i stats Hi;
    cbn [extractTarLoop].
  - destruct (ctx i); [| destruct last]; cbn; (split; [constructor |]);
      try discriminate. intros _. rewrite Hi, Nat.add_0_r. auto.
  - destruct (ctx i); [cbn; split; [constructor | discriminate] |].
    destruct (extractTarEntry env opts header _) as [[e|stats2] evs] eqn:E;
      pose proof (extractTarEntry_works _ _ _ _ _ _ E) as Hw;
      apply (reportsTotal_work 0 (xTotalFiles stats)) in Hw.
    + cbn. split; [| discriminate].
      apply Forall_app. split; [apply reportsTotal_notifyX | exact Hw].
    + pose proof (extractTarEntry_fields _ _ _ _ _ _ E) as [Htf _].
      apply extractTarEntry_processed in E. cbn in Htf, E.
      destruct (IH (S i) stats2) as [Hrep Hdone]; [lia |].
      destruct (extractTarLoop ctx env opts (S i) rest last stats2)
        as [[err stats3] evs2].
      cbn [fst snd] in *. split.
      * apply Forall_app. split; [apply reportsTotal_notifyX |].
        apply Forall_app. split; [exact Hw | now rewrite <- Htf].
      * intros Hn. destruct (Hdone Hn) as [H1 H2].
        split; [rewrite H1 | rewrite H2]; f_equal; cbn [List.length]; lia.
Qed.

Lemma extractZipLoop_totals ctx env opts len rest :
  forall i stats,
    xProcessedFiles stats = Z.of_nat i ->
    Forall (reportsTotal len (xTotalFiles stats))
      (snd (extractZipLoop ctx env opts len i rest stats))
    /\ (let stats' := snd (fst (extractZipLoop ctx env opts len i rest stats))
        in xTotalFiles stats' = xTotalFiles stats
           /\ (fst (fst (extractZipLoop ctx env opts len i rest stats)) = None
               -> xProcessedFiles stats' = Z.of_nat (i + List.length rest))).
Proof.
  induction rest as [|file rest IH]; intros i stats Hi;
    cbn [extractZipLoop].
  - cbn. repeat split; [constructor |]. intros _. rewrite Hi. f_equal. lia.
  - destruct (ctx i); [cbn; repeat split; [constructor | discriminate] |].
    destruct (extractZipEntry env opts file _) as [[e|stats2] evs] eqn:E;
      pose proof (extractZipEntry_works _ _ _ _ _ _ E) as Hw;
      apply (reportsTotal_work len (xTotalFiles stats)) in Hw.
    + cbn. repeat split; [| discriminate].
      apply Forall_app. split; [apply reportsTotal_notifyX | exact Hw].
    + pose proof (extractZipEntry_fields _ _ _ _ _ _ E) as [Htf _].
      apply extractZipEntry_processed in E. cbn in Htf, E.
      destruct (IH (S i) stats2) as (Hrep & Hsame & Hdone); [lia |].
      destruct (extractZipLoop ctx env opts len (S i) rest stats2)
        as [[err stats3] evs2].
      cbn [fst snd] in *. repeat split.
      * apply Forall_app. split; [apply reportsTotal_notifyX |].
        apply Forall_app. split; [exact Hw | now rewrite <- Htf].
      * congruence.
      * intros Hn. rewrite (Hdone Hn). f_equal. cbn [List.length]. lia.
Qed.

(** X9. The total of a TAR stream is unknown until its end: while a TAR
    archive is extracted the progress callback is told a total of 0 and
    the snapshots carry the total the statistics started with; when the
    stream has been read to its end the statistics give the number of
    entries as total and as processed.  A ZIP archive tells its total
    before the first entry: every progress call and every snapshot
    carries the number of entries. *)
Theorem totals_known_late_or_early ctx env opts stats :
  xProcessedFiles stats = 0%Z ->
  (forall entries last,
     Forall (reportsTotal 0 (xTotalFiles stats))
       (snd (extractTarReader ctx env (entries, last) opts stats))
     /\ (forall stats' tr,
           extractTarReader ctx env (entries, last) opts stats
           = (None, stats', tr) ->
           xTotalFiles stats' = Z.of_nat (List.length entries)
           /\ xProcessedFiles stats' = Z.of_nat (List.length entries)))
  /\ (forall zfiles err stats' tr,
        ZipOpenReader env (xSource opts) = Ok zfiles ->
        extractZip ctx env opts stats = (err, stats', tr) ->
        Forall (reportsTotal (Z.of_nat (List.length zfiles))
                  (Z.of_nat (List.length zfiles))) tr
        /\ xTotalFiles stats' = Z.of_nat (List.length zfiles)
        /\ (err = None ->
            xProcessedFiles stats' = Z.of_nat (List.length zfiles))).
Proof.
  intros H0. split.
  - intros entries last. unfold extractTarReader. cbn [fst snd].
    destruct (extractTarLoop_totals ctx env opts last entries 0%nat stats H0)
      as [Hrep Hdone].
    split; [exact Hrep |]. intros stats' tr Hrun. rewrite Hrun in Hdone.
    exact (Hdone eq_refl).
  - intros zfiles err stats' tr Hopen. unfold extractZip. rewrite Hopen.
    intros Hrun.
    destruct (extractZipLoop_totals ctx env opts
                (Z.of_nat (List.length zfiles)) zfiles 0%nat
                (setTotalFiles stats (Z.of_nat (List.length zfiles))) H0)
      as (Hrep & Hsame & Hdone).
    rewrite Hrun in *. cbn [fst snd xTotalFiles setTotalFiles] in *.
    split; [exact Hrep |]. split; [exact Hsame |]. intros ->.
    now apply Hdone.
Qed.

(** The statement at work: a TAR stream of one entry. *)
Lemma totals_known_late_or_early_witness :
  xTotalFiles (mkExtractStats 1 1 1000 7 "f") = 1%Z
  /\ xProcessedFiles (mkExtractStats 1 1 1000 7 "f") = 1%Z.
Proof.
  exact (proj2 (proj1 (totals_known_late_or_early background
                         (calmEnv (oneFile "a.tar" 1000) [] [] 0)
                         (mkExtractOptions "a.tar" "/out" false true)
                         (mkExtractStats 0 0 1000 0 "") eq_refl)
                  [mkTarHeader "f" TypeReg 420 "" 7] None)
           (mkExtractStats 1 1 1000 7 "f")
           [CallOnStatsX (mkExtractStats 0 1 1000 0 "f");
            MkdirAll "/out" 493; OpenFile "/out/f" 420; CopyOut "/out/f" 7]
           eq_refl).
Defined.









(** ** The order of reports and work, entry by entry *)

Lemma reportsOf_notify opts k len name stats :
  notify opts k len name stats
  = reportsOf (OnProgress opts) (OnStats opts) k len name (CallOnStats stats).
Proof. reflexivity. Qed.

Lemma reportsOf_notifyX opts k len name stats :
  notifyX opts k len name stats
  = reportsOf (xOnProgress opts) (xOnStats opts) k len name
      (CallOnStatsX stats).
Proof. reflexivity. Qed.

Lemma written_partOf output name work :
  written name work -> partOf output name work.
Proof. intros [-> | ->]; repeat constructor. Qed.

Lemma entryBlocks_impl (W W' : string -> list event -> Prop) progress snapshot :
  (forall name work, W name work -> W' name work) ->
  forall k names tr,
    entryBlocks W progress snapshot k names tr ->
    entryBlocks W' progress snapshot k names tr.
Proof.
  intros Himpl k names tr H.
  induction H; constructor; auto.
Qed.

Lemma reportsOf_asTar progress snapshot k total name s :
  isSnapshot s = true ->
  map asTar (reportsOf progress snapshot k total name s)
  = reportsOf progress snapshot k total name s.
Proof.
  intros Hs. unfold reportsOf.
  destruct progress, snapshot; cbn; try reflexivity;
    destruct s; try discriminate Hs; reflexivity.
Qed.

Lemma entryBlocks_asTar (W : string -> list event -> Prop) progress snapshot :
  (forall name work, W name work -> W name (map asTar work)) ->
  forall k names tr,
    entryBlocks W progress snapshot k names tr ->
    entryBlocks W progress snapshot k names (map asTar tr).
Proof.
  intros Hw k names tr H.
  induction H as [|k name names total s work rest Hs Hr Hwork _ IH];
    cbn [map]; [constructor |].
  rewrite !map_app, reportsOf_asTar by exact Hs.
  constructor; auto.
Qed.

Lemma written_asTar name work : written name work -> written name (map asTar work).
Proof. intros [-> | ->]; right; reflexivity. Qed.

Lemma partOf_asTar output name work :
  partOf output name work -> partOf output name (map asTar work).
Proof.
  unfold partOf. induction 1 as [|e l He _ IH]; cbn [map]; constructor;
    [| exact IH].
  destruct e; exact He.
Qed.

(** The ZIP loop goes entry by entry over the files it has begun, and
    over all of them, each written in full, when it ends without error. *)
Lemma compressZipLoop_blocks ctx env opts baseDir len rest :
  forall i stats err stats' tr,
    compressZipLoop ctx env opts baseDir len i rest stats = (err, stats', tr) ->
    exists j,
      (j <= List.length rest)%nat
      /\ entryBlocks (partOf "") (OnProgress opts) (OnStats opts) i
           (map (relOrBase baseDir) (firstn j rest)) tr
      /\ (err = None ->
          j = List.length rest
          /\ entryBlocks written (OnProgress opts) (OnStats opts) i
               (map (relOrBase baseDir) rest) tr).
Proof.
  induction rest as [|file rest IH]; intros i stats err stats' tr;
    cbn [compressZipLoop].
  - intros H. injection H as <- _ <-. exists 0%nat.
    split; [lia |]. split; [constructor |]. intros _. split; constructor.
  - destruct (ctx i).
    { intros H. injection H as <- _ <-. exists 0%nat.
      cbn [List.length firstn map]. split; [lia |].
      split; [constructor | discriminate]. }
    rewrite reportsOf_notify.
    pose proof (addFileToZip_works "" env file (relOrBase baseDir file)) as Hw.
    unfold addFileToZip in *.
    destruct (AddFault env file) as [[stage e]|] eqn:Hfault.
    + assert (Hone : forall evs,
                Forall (worksOn "" (relOrBase baseDir file)) evs ->
                entryBlocks (partOf "") (OnProgress opts) (OnStats opts) i
                  (map (relOrBase baseDir) (firstn 1 (file :: rest)))
                  (reportsOf (OnProgress opts) (OnStats opts)
                     (Z.of_nat i + 1) len (relOrBase baseDir file)
                     (CallOnStats
                        (setProgress stats (Z.of_nat i + 1)
                           (relOrBase baseDir file)))
                   ++ evs)%list).
      { intros evs Hevs. rewrite <- (app_nil_r evs).
        cbn [firstn map]. constructor; [reflexivity | reflexivity | exact Hevs
                                        | constructor]. }
      destruct stage; intros H; injection H as <- _ <-; exists 1%nat;
        (split; [cbn [List.length]; lia |]);
        (split; [apply Hone; eapply Hw; reflexivity | discriminate]).
    + destruct (compressZipLoop ctx env opts baseDir len (S i) rest
                  (setProgress stats (Z.of_nat i + 1)
                     (relOrBase baseDir file)))
        as [[err2 stats2] evs2] eqn:Hrest.
      intros H. injection H as <- <- <-.
      destruct (IH _ _ _ _ _ Hrest) as (j & Hj & Hany & Hfull).
      exists (S j). cbn [List.length firstn map]. split; [lia |]. split.
      * refine (blocks_entry _ _ _ i _ _ len _ [_; _] evs2 _ _ _ Hany);
          [reflexivity | reflexivity |].
        eapply Hw. reflexivity.
      * intros Hnone. destruct (Hfull Hnone) as (-> & Hblocks).
        split; [reflexivity |].
        refine (blocks_entry _ _ _ i _ _ len _ [_; _] evs2 _ _ _ Hblocks);
          [reflexivity | reflexivity | now left].
Qed.

Lemma extractZipLoop_blocks ctx env opts len rest :
  forall i stats err stats' tr,
    extractZipLoop ctx env opts len i rest stats = (err, stats', tr) ->
    exists j,
      (j <= List.length rest)%nat
      /\ entryBlocks (partOf (xOutput opts)) (xOnProgress opts)
           (xOnStats opts) i (map zName (firstn j rest)) tr
      /\ (err = None -> j = List.length rest).
Proof.
  induction rest as [|file rest IH]; intros i stats err stats' tr;
    cbn [extractZipLoop].
  - intros H. injection H as <- _ <-. exists 0%nat.
    split; [lia |]. split; [constructor | reflexivity].
  - destruct (ctx i).
    { intros H. injection H as <- _ <-. exists 0%nat.
      cbn [List.length firstn map]. split; [lia |].
      split; [constructor | discriminate]. }
    rewrite reportsOf_notifyX.
    pose proof (extractZipEntry_works env opts file
                  (setProgressX stats (Z.of_nat i + 1) (zName file))) as Hw.
    destruct (extractZipEntry env opts file _) as [[e|stats2] evs].
    + intros H. injection H as <- _ <-. exists 1%nat.
      cbn [List.length firstn map]. split; [lia |].
      split; [| discriminate].
      rewrite <- (app_nil_r evs).
      constructor; [reflexivity | reflexivity | | constructor].
      eapply Hw. reflexivity.
    + destruct (extractZipLoop ctx env opts len (S i) rest stats2)
        as [[err2 stats3] evs2] eqn:Hrest.
      intros H. injection H as <- <- <-.
      destruct (IH _ _ _ _ _ Hrest) as (j & Hj & Hany & Hfull).
      exists (S j). cbn [List.length firstn map]. split; [lia |]. split.
      * constructor; [reflexivity | reflexivity | | exact Hany].
        eapply Hw. reflexivity.
      * intros Hnone. now rewrite (Hfull Hnone).
Qed.

Lemma extractTarLoop_blocks ctx env opts last rest :
  forall i stats err stats' tr,
    extractTarLoop ctx env opts i rest last stats = (err, stats', tr) ->
    exists j,
      (j <= List.length rest)%nat
      /\ entryBlocks (partOf (xOutput opts)) (xOnProgress opts)
           (xOnStats opts) i (map hName (firstn j rest)) tr
      /\ (err = None -> j = List.length rest).
Proof.
  induction rest as [|header rest IH]; intros i stats err stats' tr;
    cbn [extractTarLoop].
  - destruct (ctx i); [| destruct last]; intros H; injection H as <- _ <-;
      exists 0%nat; (split; [lia |]); (split; [constructor |]);
      solve [reflexivity | discriminate].
  - destruct (ctx i).
    { intros H. injection H as <- _ <-. exists 0%nat.
      cbn [List.length firstn map]. split; [lia |].
      split; [constructor | discriminate]. }
    rewrite reportsOf_notifyX.
    pose proof (extractTarEntry_works env opts header
                  (setProgressX stats (Z.of_nat i + 1) (hName header))) as Hw.
    destruct (extractTarEntry env opts header _) as [[e|stats2] evs].
    + intros H. injection H as <- _ <-. exists 1%nat.
      cbn [List.length firstn map]. split; [lia |].
      split; [| discriminate].
      rewrite <- (app_nil_r evs).
      constructor; [reflexivity | reflexivity | | constructor].
      eapply Hw. reflexivity.
    + destruct (extractTarLoop ctx env opts (S i) rest last stats2)
        as [[err2 stats3] evs2] eqn:Hrest.
      intros H. injection H as <- <- <-.
      destruct (IH _ _ _ _ _ Hrest) as (j & Hj & Hany & Hfull).
      exists (S j). cbn [List.length firstn map]. split; [lia |]. split.
      * constructor; [reflexivity | reflexivity | | exact Hany].
        eapply Hw. reflexivity.
      * intros Hnone. now rewrite (Hfull Hnone).
Qed.

Lemma snapshotNumbers_app (a b : list event) :
  snapshotNumbers (a ++ b) = (snapshotNumbers a ++ snapshotNumbers b)%list.
Proof. apply flat_map_app. Qed.

Lemma snapshotNumbers_work output name (work : list event) :
  partOf output name work -> snapshotNumbers work = [].
Proof.
  induction 1 as [|e l He _ IH]; [reflexivity |].
  unfold snapshotNumbers in *. cbn [flat_map]. rewrite IH.
  destruct e; cbn in *; solve [reflexivity | contradiction].
Qed.

Lemma snapshotNumbers_after output (closes : list event) :
  Forall (afterEntries output) closes -> snapshotNumbers closes = [].
Proof.
  induction 1 as [|e l He _ IH]; [reflexivity |].
  unfold snapshotNumbers in *. cbn [flat_map]. rewrite IH.
  destruct e; cbn in *; solve [reflexivity | contradiction].
Qed.

(** The snapshots of a trace that goes entry by entry are numbered like
    the entries, one snapshot for each. *)
Lemma entryBlocks_snapshots output progress k names tr :
  entryBlocks (partOf output) progress true k names tr ->
  snapshotNumbers tr = map Z.of_nat (seq (S k) (List.length names)).
Proof.
  induction 1 as [|k name names total s work rest Hs Hr Hwork _ IH];
    [reflexivity |].
  cbn [List.length seq map]. unfold reportsOf.
  rewrite !snapshotNumbers_app, (snapshotNumbers_work _ _ _ Hwork), IH.
  assert (Hone : snapshotNumbers [s] = [Z.of_nat (S k)]).
  { destruct s; try discriminate Hs; cbn in *; injection Hr as Hr _;
      rewrite Hr; f_equal; lia. }
  rewrite Hone. destruct progress; reflexivity.
Qed.

(** What [Extract] does: it fails before a reader is selected or while
    the archive is opened, having at most made the output directory; or it
    makes the output directory and runs the entry loop of the detected
    format on the entries the reader yields. *)
Lemma Extract_shape ctx env opts r tr :
  Extract ctx env opts = (r, tr) ->
  (fst r = None /\ (tr = [] \/ tr = [MkdirAll (xOutput opts) 493]))
  \/ exists info err stats' evs,
       Stat env (xSource opts) = Ok info
       /\ OsMkdirAll env (xOutput opts) = None
       /\ tr = MkdirAll (xOutput opts) 493 :: evs
       /\ r = match err with
              | Some e => (None, Some e)
              | None => (Some stats', None)
              end
       /\ ((DetectArchiveFormat (xSource opts) = ".zip"
            /\ exists zfiles,
                 ZipOpenReader env (xSource opts) = Ok zfiles
                 /\ extractZipLoop ctx env opts
                      (Z.of_nat (List.length zfiles)) 0 zfiles
                      (setTotalFiles (mkExtractStats 0 0 (Size info) 0 "")
                         (Z.of_nat (List.length zfiles)))
                    = (err, stats', evs))
           \/ (DetectArchiveFormat (xSource opts) <> ".zip"
               /\ extractTarLoop ctx env opts 0
                    (fst (TarEntries env (xSource opts)))
                    (snd (TarEntries env (xSource opts)))
                    (mkExtractStats 0 0 (Size info) 0 "")
                  = (err, stats', evs))).
Proof.
  unfold Extract.
  destruct (Stat env (xSource opts)) as [info|c].
  2:{ intros H. injection H as <- <-. left. auto. }
  destruct (DetectArchiveFormat (xSource opts) =? "").
  { intros H. injection H as <- <-. left. auto. }
  destruct (OsMkdirAll env (xOutput opts)) as [c|] eqn:Hmk.
  { intros H. injection H as <- <-. left. auto. }
  set (stats := mkExtractStats 0 0 (Size info) 0 "").
  assert (Htar : forall codec fallible,
            match extractTarWith codec fallible ctx env opts stats with
            | (Some e, _, evs) =>
                ((None, Some e), MkdirAll (xOutput opts) 493 :: evs)
            | (None, stats', evs) =>
                ((Some stats', None), MkdirAll (xOutput opts) 493 :: evs)
            end = (r, tr) ->
            (fst r = None /\ (tr = [] \/ tr = [MkdirAll (xOutput opts) 493]))
            \/ exists err stats' evs,
                 tr = MkdirAll (xOutput opts) 493 :: evs
                 /\ r = match err with
                        | Some e => (None, Some e)
                        | None => (Some stats', None)
                        end
                 /\ extractTarLoop ctx env opts 0
                      (fst (TarEntries env (xSource opts)))
                      (snd (TarEntries env (xSource opts))) stats
                    = (err, stats', evs)).
  { intros codec fallible. unfold extractTarWith, extractTarReader.
    destruct (OsOpen env (xSource opts)).
    { intros H. injection H as <- <-. left. auto. }
    destruct (if fallible then NewReader env codec else None).
    { intros H. injection H as <- <-. left. auto. }
    destruct (extractTarLoop ctx env opts 0 _ _ stats)
      as [[[e|] stats'] evs]; intros H; injection H as <- <-; right.
    - exists (Some e), stats', evs. auto.
    - exists None, stats', evs. auto. }
  destruct (DetectArchiveFormat (xSource opts) =? ".zip") eqn:Hzip.
  { apply String.eqb_eq in Hzip. unfold extractZip.
    destruct (ZipOpenReader env (xSource opts)) as [zfiles|c] eqn:Hopen.
    2:{ intros H. injection H as <- <-. left. auto. }
    destruct (extractZipLoop ctx env opts _ 0 zfiles _)
      as [[[e|] stats'] evs] eqn:Hloop; intros H; injection H as <- <-; right.
    - exists info, (Some e), stats', evs. repeat split; auto.
      left. split; [exact Hzip |]. exists zfiles. auto.
    - exists info, None, stats', evs. repeat split; auto.
      left. split; [exact Hzip |]. exists zfiles. auto. }
  apply String.eqb_neq in Hzip.
  repeat match goal with
         | |- context [if ?c then _ else _] => destruct c
         end;
    try (intros H; injection H as <- <-; left; now auto);
    intros H; apply Htar in H;
    (destruct H as [H | (err & stats' & evs & -> & -> & Hloop)];
     [left; exact H |
      right; exists info, err, stats', evs; repeat split; auto]).
Qed.

Lemma entryNames_collected Match env opts fs size excluded err :
  collectFiles Match env (Source opts) (Excludes opts)
  = (fs, size, excluded, err) ->
  entryNames Match env opts = map (relOrBase (filepath.Dir (Source opts))) fs.
Proof. intros H. unfold entryNames. now rewrite H. Qed.

Lemma ProcessedFiles_setCompressed stats n :
  ProcessedFiles (setCompressed stats n) = ProcessedFiles stats.
Proof. reflexivity. Qed.

(** C4, as amended: in every compression and every extraction the trace
    goes entry by entry over the entries that were begun, in their order:
    for each entry first the calls of the callbacks that are set - so the
    snapshot of an entry is handed over before the entry is written or
    materialised, and after the work on the entry before it - then the
    work on the entry.  With [OnStats] set there is exactly one snapshot
    for each entry begun, and the snapshots are numbered 1, 2, ... in that
    order.  When the operation succeeds every entry was begun, in a
    compression every entry was written in full after its snapshot, and
    the statistics that are returned, after the last snapshot, carry the
    number of the last entry. *)
Theorem reports_lead_each_entry :
  (forall Match ctx env opts r tr,
     Compress Match ctx env opts = (r, tr) ->
     exists j body closes,
       (j <= List.length (entryNames Match env opts))%nat
       /\ ((tr = [] /\ body = [])
           \/ tr = (CreateOutput (Output opts) :: body ++ closes)%list)
       /\ entryBlocks (partOf "") (OnProgress opts) (OnStats opts) 0
            (firstn j (entryNames Match env opts)) body
       /\ Forall (afterEntries (Output opts)) closes
       /\ (OnStats opts = true ->
           snapshotNumbers tr = map Z.of_nat (seq 1 j))
       /\ (forall stats, fst r = Some stats ->
             j = List.length (entryNames Match env opts)
             /\ entryBlocks written (OnProgress opts) (OnStats opts) 0
                  (entryNames Match env opts) body
             /\ ProcessedFiles stats = Z.of_nat j))
  /\ (forall ctx env opts r tr,
        Extract ctx env opts = (r, tr) ->
        exists j body,
          (j <= List.length (archiveNames env opts))%nat
          /\ ((tr = [] /\ body = [])
              \/ tr = MkdirAll (xOutput opts) 493 :: body)
          /\ entryBlocks (partOf (xOutput opts)) (xOnProgress opts)
               (xOnStats opts) 0 (firstn j (archiveNames env opts)) body
          /\ (xOnStats opts = true ->
              snapshotNumbers tr = map Z.of_nat (seq 1 j))
          /\ (forall stats, fst r = Some stats ->
                j = List.length (archiveNames env opts)
                /\ xProcessedFiles stats = Z.of_nat j)).
Proof.
  split.
  - intros Match ctx env opts r tr Hrun.
    destruct (Compress_shape _ _ _ _ _ _ Hrun)
      as [(-> & Hr & _)
         | (fs & size & excluded & run & err & stats' & evs & Hcollect & _
            & Hfor & Hadapter & Hout)].
    { exists 0%nat, [], []. split; [lia |]. split; [now left |].
      split; [constructor |]. split; [constructor |].
      split; [reflexivity |]. intros stats Hs. congruence. }
    rewrite (entryNames_collected _ _ _ _ _ _ _ Hcollect).
    assert (Hfail : forall e closes,
              err = Some e -> evs = CreateOutput (Output opts) :: closes ->
              Forall (afterEntries (Output opts)) closes ->
              exists j body closes0,
                (j <= List.length
                        (map (relOrBase (filepath.Dir (Source opts))) fs))%nat
                /\ ((tr = [] /\ body = [])
                    \/ tr = (CreateOutput (Output opts)
                             :: body ++ closes0)%list)
                /\ entryBlocks (partOf "") (OnProgress opts) (OnStats opts) 0
                     (firstn j
                        (map (relOrBase (filepath.Dir (Source opts))) fs))
                     body
                /\ Forall (afterEntries (Output opts)) closes0
                /\ (OnStats opts = true ->
                    snapshotNumbers tr = map Z.of_nat (seq 1 j))
                /\ (forall stats, fst r = Some stats ->
                      j = List.length
                            (map (relOrBase (filepath.Dir (Source opts))) fs)
                      /\ entryBlocks written (OnProgress opts) (OnStats opts)
                           0 (map (relOrBase (filepath.Dir (Source opts))) fs)
                           body
                      /\ ProcessedFiles stats = Z.of_nat j)).
    { intros e closes -> -> Hcl.
      destruct Hout as [(e0 & _ & -> & ->) | (Hnone & _)];
        [| discriminate Hnone].
      exists 0%nat, [], closes. split; [lia |]. split; [now right |].
      split; [constructor |]. split; [exact Hcl |].
      split; [| intros stats Hs; discriminate Hs].
      intros _. cbn [seq map].
      change (snapshotNumbers (CreateOutput (Output opts) :: closes))
        with (snapshotNumbers closes).
      now apply snapshotNumbers_after with (output := Output opts). }
    destruct (adapter_shape _ _ _ _ _ _ _ _ _ _ Hfor Hadapter)
      as [(-> & cause & ->)
         | [(Hevs & codec & cause & Herr)
           | (ztr & view & closes & Hloop & Hview & -> & Hcl)]].
    { destruct Hout as [(e0 & _ & -> & ->) | (Hnone & _)];
        [| discriminate Hnone].
      exists 0%nat, [], []. split; [lia |]. split; [now left |].
      split; [constructor |]. split; [constructor |].
      split; [reflexivity |]. intros stats Hs. discriminate Hs. }
    { apply (Hfail _ [CloseWriter "file"] Herr Hevs). repeat constructor. }
    destruct (compressZipLoop_blocks _ _ _ _ _ _ _ _ _ _ _ Hloop)
      as (j & Hj & Hany & Hfull).
    assert (Hclosing : forall l, Forall isClose l ->
              Forall (afterEntries (Output opts)) l).
    { intros l Hl. eapply Forall_impl; [| exact Hl].
      intros e He. destruct e; cbn in *; solve [exact I | contradiction]. }
    assert (Hbody : entryBlocks (partOf "") (OnProgress opts) (OnStats opts)
                      0 (map (relOrBase (filepath.Dir (Source opts)))
                           (firstn j fs)) (map view ztr)).
    { destruct Hview as [-> | ->]; [now rewrite map_id |].
      apply entryBlocks_asTar; [apply partOf_asTar | exact Hany]. }
    set (after := (closes ++ [CloseWriter "file"]
                   ++ match err with
                      | Some _ => []
                      | None => [StatOutput (Output opts)]
                      end)%list).
    assert (Hafter : Forall (afterEntries (Output opts)) after).
    { unfold after. apply Forall_app. split; [now apply Hclosing |].
      destruct err; repeat constructor. }
    assert (Htr : tr = (CreateOutput (Output opts)
                        :: map view ztr ++ after)%list).
    { unfold after.
      destruct Hout as [(e0 & -> & _ & ->) | (-> & -> & _)]; cbn [app].
      - reflexivity.
      - now rewrite <- !app_assoc. }
    exists j, (map view ztr), after. rewrite length_map, firstn_map.
    split; [exact Hj |]. split; [right; exact Htr |].
    split; [exact Hbody |]. split; [exact Hafter |]. split.
    + intros Hon. rewrite Htr.
      change (snapshotNumbers
                (CreateOutput (Output opts) :: map view ztr ++ after))
        with (snapshotNumbers (map view ztr ++ after)).
      rewrite snapshotNumbers_app,
        (snapshotNumbers_after _ _ Hafter), app_nil_r.
      rewrite Hon in Hbody.
      rewrite (entryBlocks_snapshots _ _ _ _ _ Hbody), length_map.
      now rewrite length_firstn, Nat.min_l by exact Hj.
    + intros stats Hs.
      destruct Hout as [(e0 & _ & -> & _) | (-> & _ & ->)];
        [discriminate Hs |].
      destruct (Hfull eq_refl) as (-> & Hblocks).
      split; [reflexivity |]. split.
      * destruct Hview as [-> | ->]; [now rewrite map_id |].
        apply entryBlocks_asTar; [apply written_asTar | exact Hblocks].
      * cbn [fst] in Hs. injection Hs as <-.
        pose proof (compressZipLoop_done _ _ _ _ _ _ 0%nat
                      (initialStats fs size excluded) _ _ eq_refl Hloop)
          as Hp.
        destruct (StatOutputSize env (Output opts));
          [rewrite ProcessedFiles_setCompressed |]; exact Hp.
  - intros ctx env opts r tr Hrun.
    destruct (Extract_shape _ _ _ _ _ Hrun)
      as [(Hr & Htr)
         | (info & err & stats' & evs & Hstat & Hmk & -> & -> & Hloop)].
    { exists 0%nat, []. split; [lia |].
      split; [destruct Htr as [-> | ->]; [now left | now right] |].
      split; [constructor |].
      split; [intros _; destruct Htr as [-> | ->]; reflexivity |].
      intros stats Hs. congruence. }
    assert (Hblocks : exists j,
              (j <= List.length (archiveNames env opts))%nat
              /\ entryBlocks (partOf (xOutput opts)) (xOnProgress opts)
                   (xOnStats opts) 0 (firstn j (archiveNames env opts)) evs
              /\ (err = None ->
                  j = List.length (archiveNames env opts)
                  /\ xProcessedFiles stats' = Z.of_nat j)).
    { unfold archiveNames.
      destruct Hloop as [(Hzip & zfiles & Hopen & Hloop) | (Hzip & Hloop)].
      - rewrite Hzip, Hopen. cbn [String.eqb Ascii.eqb Bool.eqb].
        destruct (extractZipLoop_blocks _ _ _ _ _ _ _ _ _ _ Hloop)
          as (j & Hj & Hany & Hfull).
        exists j. rewrite length_map, firstn_map.
        split; [exact Hj |]. split; [exact Hany |].
        intros ->. split; [now apply Hfull |].
        rewrite (Hfull eq_refl).
        pose proof (extractZipLoop_totals ctx env opts
                      (Z.of_nat (List.length zfiles)) zfiles 0
                      (setTotalFiles (mkExtractStats 0 0 (Size info) 0 "")
                         (Z.of_nat (List.length zfiles))) eq_refl)
          as (_ & _ & Hp).
        rewrite Hloop in Hp. cbn [fst snd] in Hp. now apply Hp.
      - apply String.eqb_neq in Hzip. rewrite Hzip.
        destruct (extractTarLoop_blocks _ _ _ _ _ _ _ _ _ _ Hloop)
          as (j & Hj & Hany & Hfull).
        exists j. rewrite length_map, firstn_map.
        split; [exact Hj |]. split; [exact Hany |].
        intros ->. split; [now apply Hfull |].
        rewrite (Hfull eq_refl).
        pose proof (extractTarLoop_totals ctx env opts
                      (snd (TarEntries env (xSource opts)))
                      (fst (TarEntries env (xSource opts))) 0
                      (mkExtractStats 0 0 (Size info) 0 "") eq_refl)
          as (_ & Hp).
        rewrite Hloop in Hp. cbn [fst snd] in Hp. now apply Hp. }
    destruct Hblocks as (j & Hj & Hany & Hfull).
    exists j, evs. split; [exact Hj |]. split; [now right |].
    split; [exact Hany |]. split.
    + intros Hon. rewrite Hon in Hany.
      change (snapshotNumbers (MkdirAll (xOutput opts) 493 :: evs))
        with (snapshotNumbers evs).
      rewrite (entryBlocks_snapshots _ _ _ _ _ Hany).
      now rewrite length_firstn, Nat.min_l by exact Hj.
    + intros stats Hs. destruct err; [discriminate Hs |].
      cbn [fst] in Hs. injection Hs as <-. now apply Hfull.
Qed.

(** The statement at work: the sample compression has one entry and one
    snapshot, numbered 1; the extraction of a ZIP archive of two entries
    hands over two snapshots, numbered 1 and 2. *)
Lemma reports_lead_each_entry_witness :
  snapshotNumbers (snd sampleZipRun) = [1%Z]
  /\ snapshotNumbers
       (snd (Extract background
               (calmEnv (oneFile "a.zip" 50)
                  [mkZipFile "x.txt" false 420 30;
                   mkZipFile "y.txt" false 420 20] [] 0)
               leavingOptions))
     = [1%Z; 2%Z].
Proof.
  destruct reports_lead_each_entry as (Hcompress & Hextract). split.
  - destruct (Hcompress suffixGlob background sampleEnv sampleZipOptions
                (fst sampleZipRun) (snd sampleZipRun)
                ltac:(vm_compute; reflexivity))
      as (j & body & closes & _ & _ & _ & _ & Hnumbers & Hdone).
    destruct (Hdone (mkCompressStats 1 1 1000 400 0 "a.txt" 60%float)
                ltac:(vm_compute; reflexivity)) as (Hj & _).
    rewrite (Hnumbers eq_refl), Hj. reflexivity.
  - destruct (Hextract background
                (calmEnv (oneFile "a.zip" 50)
                   [mkZipFile "x.txt" false 420 30;
                    mkZipFile "y.txt" false 420 20] [] 0)
                leavingOptions _ _ (surjective_pairing _))
      as (j & body & _ & _ & _ & Hnumbers & Hdone).
    destruct (Hdone (mkExtractStats 2 2 50 50 "y.txt")
                ltac:(vm_compute; reflexivity)) as (Hj & _).
    rewrite (Hnumbers eq_refl), Hj. reflexivity.
Defined.

(** C4 as the specification states it fails: in the sample compression the
    one snapshot is delivered before the entry is written, and no snapshot
    follows the completion of the write. *)
Lemma snapshot_comes_before_write :
  snd sampleZipRun
  = [CreateOutput "/data/a.zip"; CallOnProgress 1 1 "a.txt";
     CallOnStats (mkCompressStats 1 1 1000 0 0 "a.txt" 0%float);
     ZipCreateHeader (mkZipHeader "a.txt" zip_Deflate); CopyIn "a.txt";
     CloseWriter "zip"; CloseWriter "file"; StatOutput "/data/a.zip"]
  /\ occursAfter isCompletion isSnapshot (snd sampleZipRun) = false
  /\ occursAfter isSnapshot isCompletion (snd sampleZipRun) = true.
Proof. repeat split; vm_compute; reflexivity. Qed.

(** ** Cancellation: what a poll finds, and what none finds *)

(** The loops look at the context at their polls and nowhere else: two
    contexts that answer the polls alike give the same run. *)
Lemma compressZipLoop_polls ctx ctx' env opts baseDir len rest :
  forall i stats,
    (forall j, (j < List.length rest)%nat -> ctx (i + j)%nat = ctx' (i + j)%nat) ->
    compressZipLoop ctx env opts baseDir len i rest stats
    = compressZipLoop ctx' env opts baseDir len i rest stats.
Proof.
  induction rest as [|file rest IH]; intros i stats Hsame;
    cbn [compressZipLoop]; [reflexivity |].
  pose proof (Hsame 0%nat ltac:(cbn [List.length]; lia)) as H0.
  rewrite Nat.add_0_r in H0. rewrite H0.
  rewrite (IH (S i)); [reflexivity |].
  intros j Hj. replace (S i + j)%nat with (i + S j)%nat by lia.
  apply Hsame. cbn [List.length]. lia.
Qed.

Lemma extractZipLoop_polls ctx ctx' env opts len rest :
  forall i stats,
    (forall j, (j < List.length rest)%nat -> ctx (i + j)%nat = ctx' (i + j)%nat) ->
    extractZipLoop ctx env opts len i rest stats
    = extractZipLoop ctx' env opts len i rest stats.
Proof.
  induction rest as [|file rest IH]; intros i stats Hsame;
    cbn [extractZipLoop]; [reflexivity |].
  pose proof (Hsame 0%nat ltac:(cbn [List.length]; lia)) as H0.
  rewrite Nat.add_0_r in H0. rewrite H0.
  destruct (ctx' i); [reflexivity |].
  destruct (extractZipEntry env opts file _) as [[e|stats2] evs];
    [reflexivity |].
  rewrite (IH (S i)); [reflexivity |].
  intros j Hj. replace (S i + j)%nat with (i + S j)%nat by lia.
  apply Hsame. cbn [List.length]. lia.
Qed.

Lemma extractTarLoop_polls ctx ctx' env opts last rest :
  forall i stats,
    (forall j, (j <= List.length rest)%nat -> ctx (i + j)%nat = ctx' (i + j)%nat) ->
    extractTarLoop ctx env opts i rest last stats
    = extractTarLoop ctx' env opts i rest last stats.
Proof.
  induction rest as [|header rest IH]; intros i stats Hsame;
    cbn [extractTarLoop];
    pose proof (Hsame 0%nat ltac:(lia)) as H0;
    rewrite Nat.add_0_r in H0; rewrite H0; [reflexivity |].
  destruct (ctx' i); [reflexivity |].
  destruct (extractTarEntry env opts header _) as [[e|stats2] evs];
    [reflexivity |].
  rewrite (IH (S i)); [reflexivity |].
  intros j Hj. replace (S i + j)%nat with (i + S j)%nat by lia.
  apply Hsame. cbn [List.length]. lia.
Qed.

(** An adapter whose output can be created and whose codec can be set up
    runs the entry loop (the ZIP loop, seen through [asTar] for the TAR
    adapters) and closes what it has opened. *)
Lemma adapter_runs format run fs opts stats ctx env :
  compressorFor format = Some run ->
  Create env (Output opts) = None ->
  (forall codec, NewWriter env codec = None) ->
  exists view closes,
    (view = (fun e => e) \/ view = asTar)
    /\ Forall isClose closes
    /\ forall err stats' ztr,
         compressZipLoop ctx env opts (filepath.Dir (Source opts))
           (Z.of_nat (List.length fs)) 0 fs stats
         = (err, stats', ztr) ->
         run fs opts stats ctx env
         = (err, stats',
            (CreateOutput (Output opts) :: map view ztr ++ closes)%list).
Proof.
  intros Hrun Hcreate Hwriter. unfold compressorFor in Hrun.
  assert (Htar : forall codec fallible,
            exists view closes,
              (view = (fun e => e) \/ view = asTar)
              /\ Forall isClose closes
              /\ forall err stats' ztr,
                   compressZipLoop ctx env opts (filepath.Dir (Source opts))
                     (Z.of_nat (List.length fs)) 0 fs stats
                   = (err, stats', ztr) ->
                   compressTarWith codec fallible ctx env fs opts stats
                   = (err, stats',
                      (CreateOutput (Output opts)
                       :: map view ztr ++ closes)%list)).
  { intros codec fallible.
    exists asTar, [CloseWriter "tar"; CloseWriter codec; CloseWriter "file"].
    split; [now right |]. split; [repeat constructor |].
    intros err stats' ztr Hloop.
    unfold compressTarWith, compressTar. rewrite Hcreate.
    replace (if fallible then NewWriter env codec else None)
      with (@None oserr) by (destruct fallible; [now rewrite Hwriter | easy]).
    rewrite compressTarLoop_as_zip, Hloop. cbn [fst snd].
    now rewrite <- !app_assoc. }
  repeat match type of Hrun with
         | (if ?c then _ else _) = _ => destruct c
         end;
    try discriminate Hrun; injection Hrun as <-;
    try (apply Htar).
  exists (fun e => e), [CloseWriter "zip"; CloseWriter "file"].
  split; [now left |]. split; [repeat constructor |].
  intros err stats' ztr Hloop. unfold compressZip.
  now rewrite Hcreate, Hloop, map_id.
Qed.

(** [Compress] on files that were collected, in a format that has an
    adapter: the adapter is run, and its outcome handed on. *)
Lemma Compress_runs Match ctx env opts fs size excluded run :
  collectFiles Match env (Source opts) (Excludes opts)
  = (fs, size, excluded, None) ->
  fs <> [] ->
  compressorFor (Format opts) = Some run ->
  Compress Match ctx env opts
  = match run fs opts (initialStats fs size excluded) ctx env with
    | (Some e, _, evs) => ((None, Some e), evs)
    | (None, stats', evs) =>
        match StatOutputSize env (Output opts) with
        | Ok n =>
            ((Some (setCompressed stats' n), None),
             (evs ++ [StatOutput (Output opts)])%list)
        | Fail _ =>
            ((Some stats', None), (evs ++ [StatOutput (Output opts)])%list)
        end
    end.
Proof.
  intros Hcollect Hne Hrun. unfold Compress.
  assert (Hstat : exists info, Stat env (Source opts) = Ok info).
  { unfold collectFiles in Hcollect.
    destruct (Stat env (Source opts)); [eauto | discriminate Hcollect]. }
  destruct Hstat as (info & ->). rewrite Hcollect, Hrun. cbn [TotalFiles].
  destruct (Z.of_nat (List.length fs) =? 0)%Z eqn:Hlen.
  { apply Z.eqb_eq in Hlen. destruct fs; [now contradiction Hne |].
    cbn [List.length] in Hlen. lia. }
  reflexivity.
Qed.

Lemma Compress_polls Match ctx ctx' env opts :
  (forall j, (j < List.length (entryNames Match env opts))%nat ->
     ctx j = ctx' j) ->
  Compress Match ctx env opts = Compress Match ctx' env opts.
Proof.
  intros Hsame. unfold Compress.
  destruct (Stat env (Source opts)) as [info|]; [| reflexivity].
  destruct (collectFiles Match env (Source opts) (Excludes opts))
    as [[[fs size] excluded] [c|]] eqn:Hcollect; [reflexivity |].
  rewrite (entryNames_collected _ _ _ _ _ _ _ Hcollect), length_map in Hsame.
  destruct (_ =? 0)%Z; [reflexivity |].
  assert (Hzip : forall stats,
            compressZipLoop ctx env opts (filepath.Dir (Source opts))
              (Z.of_nat (List.length fs)) 0 fs stats
            = compressZipLoop ctx' env opts (filepath.Dir (Source opts))
                (Z.of_nat (List.length fs)) 0 fs stats).
  { intros stats. apply compressZipLoop_polls. exact Hsame. }
  assert (Htar : forall codec fallible stats,
            compressTarWith codec fallible ctx env fs opts stats
            = compressTarWith codec fallible ctx' env fs opts stats).
  { intros codec fallible stats. unfold compressTarWith, compressTar.
    now rewrite !compressTarLoop_as_zip, Hzip. }
  unfold compressorFor.
  repeat match goal with
         | |- context [if ?a =? ?b then _ else _] => destruct (a =? b)
         end;
    try reflexivity;
    unfold compressZip, compressTarGz, compressTarBz2, compressTarXz,
      compressTarZstd, compressTarLz4;
    rewrite ?Hzip, ?Htar; reflexivity.
Qed.

Lemma Extract_polls ctx ctx' env opts :
  (forall j, (j < extractionPolls env opts)%nat -> ctx j = ctx' j) ->
  Extract ctx env opts = Extract ctx' env opts.
Proof.
  unfold extractionPolls, archiveNames. intros Hsame. unfold Extract.
  destruct (Stat env (xSource opts)) as [info|]; [| reflexivity].
  destruct (DetectArchiveFormat (xSource opts) =? ""); [reflexivity |].
  destruct (OsMkdirAll env (xOutput opts)); [reflexivity |].
  destruct (DetectArchiveFormat (xSource opts) =? ".zip").
  { unfold extractZip.
    destruct (ZipOpenReader env (xSource opts)) as [zfiles|]; [| reflexivity].
    rewrite length_map in Hsame.
    now rewrite (extractZipLoop_polls ctx ctx') by exact Hsame. }
  rewrite length_map in Hsame.
  assert (Htar : forall codec fallible stats,
            extractTarWith codec fallible ctx env opts stats
            = extractTarWith codec fallible ctx' env opts stats).
  { intros codec fallible stats. unfold extractTarWith, extractTarReader.
    destruct (OsOpen env (xSource opts)); [reflexivity |].
    destruct (if fallible then NewReader env codec else None);
      [reflexivity |].
    apply extractTarLoop_polls. intros j Hj. apply Hsame. cbn [plus]. lia. }
  repeat match goal with
         | |- context [if ?a =? ?b then _ else _] => destruct (a =? b)
         end;
    try reflexivity;
    unfold extractTarGz, extractTarBz2, extractTarXz, extractTarZstd,
      extractTarLz4, extractTar;
    rewrite Htar; reflexivity.
Qed.

(** C8, as amended: the context is looked at in the poll before each
    entry (and, when a TAR stream is extracted, once more before its end
    is read), and nowhere else.
    - When the poll made with [N] entries processed is the first to find
      the context cancelled - [N] fewer than the [M] entries, or any [N]
      up to [M] for a TAR stream - the operation returns the cancellation
      error, the processed count is [N], within the bound [N + 1], and the
      trace goes over the first [N] entries and no other: a compression
      has written just these, each in full, and an extraction has done
      what an undisturbed extraction of these entries does.
    - A cancellation that no poll finds changes nothing: contexts that
      answer the polls alike give the same result and the same trace, so
      that a cancellation during the last entry of a compression or of a
      ZIP extraction, or after it, leaves the operation to succeed. *)
Theorem cancellation_between_entries :
  (forall Match ctx env opts fs size excluded N,
     collectFiles Match env (Source opts) (Excludes opts)
     = (fs, size, excluded, None) ->
     compressorFor (Format opts) <> None ->
     Create env (Output opts) = None ->
     (forall codec, NewWriter env codec = None) ->
     (N < List.length fs)%nat ->
     firstSeenAt ctx N ->
     (forall f, In f (firstn N fs) -> AddFault env f = None) ->
     exists run stats' body closes,
       compressorFor (Format opts) = Some run
       /\ run fs opts (initialStats fs size excluded) ctx env
          = (Some ErrCancelled, stats',
             (CreateOutput (Output opts) :: body ++ closes)%list)
       /\ Compress Match ctx env opts
          = ((None, Some ErrCancelled),
             (CreateOutput (Output opts) :: body ++ closes)%list)
       /\ ProcessedFiles stats' = Z.of_nat N
       /\ (ProcessedFiles stats' <= Z.of_nat N + 1)%Z
       /\ entryBlocks written (OnProgress opts) (OnStats opts) 0
            (firstn N (entryNames Match env opts)) body
       /\ Forall isClose closes)
  /\ (forall ctx env opts info zfiles N,
        Stat env (xSource opts) = Ok info ->
        DetectArchiveFormat (xSource opts) = ".zip" ->
        OsMkdirAll env (xOutput opts) = None ->
        ZipOpenReader env (xSource opts) = Ok zfiles ->
        (N < List.length zfiles)%nat ->
        firstSeenAt ctx N ->
        (forall f, In f (firstn N zfiles) -> materialisesZip env opts f) ->
        exists stats' body,
          extractZip ctx env opts (mkExtractStats 0 0 (Size info) 0 "")
          = (Some ErrCancelled, stats', body)
          /\ Extract ctx env opts
             = ((None, Some ErrCancelled),
                MkdirAll (xOutput opts) 493 :: body)
          /\ xProcessedFiles stats' = Z.of_nat N
          /\ (xProcessedFiles stats' <= Z.of_nat N + 1)%Z
          /\ entryBlocks (partOf (xOutput opts)) (xOnProgress opts)
               (xOnStats opts) 0 (firstn N (archiveNames env opts)) body
          /\ extractZipLoop background env opts
               (Z.of_nat (List.length zfiles)) 0 (firstn N zfiles)
               (setTotalFiles (mkExtractStats 0 0 (Size info) 0 "")
                  (Z.of_nat (List.length zfiles)))
             = (None, stats', body))
  /\ (forall ctx env opts info entries last N,
        Stat env (xSource opts) = Ok info ->
        DetectArchiveFormat (xSource opts) <> "" ->
        DetectArchiveFormat (xSource opts) <> ".zip" ->
        OsMkdirAll env (xOutput opts) = None ->
        OsOpen env (xSource opts) = None ->
        (forall codec, NewReader env codec = None) ->
        TarEntries env (xSource opts) = (entries, last) ->
        (N <= List.length entries)%nat ->
        firstSeenAt ctx N ->
        (forall h, In h (firstn N entries) -> materialises env opts h) ->
        exists stats' body,
          extractTarReader ctx env (entries, last) opts
            (mkExtractStats 0 0 (Size info) 0 "")
          = (Some ErrCancelled, stats', body)
          /\ Extract ctx env opts
             = ((None, Some ErrCancelled),
                MkdirAll (xOutput opts) 493 :: body)
          /\ xProcessedFiles stats' = Z.of_nat N
          /\ (xProcessedFiles stats' <= Z.of_nat N + 1)%Z
          /\ entryBlocks (partOf (xOutput opts)) (xOnProgress opts)
               (xOnStats opts) 0 (firstn N (archiveNames env opts)) body
          /\ extractTarLoop background env opts 0 (firstn N entries) None
               (mkExtractStats 0 0 (Size info) 0 "")
             = (None, setTotalFiles stats' (Z.of_nat N), body))
  /\ (forall Match ctx ctx' env opts,
        (forall j, (j < List.length (entryNames Match env opts))%nat ->
           ctx j = ctx' j) ->
        Compress Match ctx env opts = Compress Match ctx' env opts)
  /\ (forall ctx ctx' env opts,
        (forall j, (j < extractionPolls env opts)%nat -> ctx j = ctx' j) ->
        Extract ctx env opts = Extract ctx' env opts).
Proof.
  split; [| split; [| split; [| split]]].
  - intros Match ctx env opts fs size excluded N Hcollect Hfor Hcreate
      Hwriter Hlen (Hlive & Hdone) Hok.
    destruct (compressorFor (Format opts)) as [run|] eqn:Hrun;
      [| now contradiction Hfor].
    destruct (compressZipLoop_cancelled ctx env opts
                (filepath.Dir (Source opts)) (Z.of_nat (List.length fs))
                N fs 0%nat (initialStats fs size excluded) Hlen Hlive Hdone
                Hok)
      as (stats' & ztr & Hloop & Hfirst).
    destruct (adapter_runs _ _ fs opts (initialStats fs size excluded) ctx
                env Hrun Hcreate Hwriter)
      as (view & closes & Hview & Hcl & Hadapter).
    specialize (Hadapter _ _ _ Hloop).
    exists run, stats', (map view ztr), closes.
    split; [reflexivity |]. split; [exact Hadapter |]. split.
    { assert (Hne : fs <> [])
        by (intros ->; cbn [List.length] in Hlen; lia).
      rewrite (Compress_runs Match ctx env opts fs size excluded run
                 Hcollect Hne Hrun).
      now rewrite Hadapter. }
    pose proof (compressZipLoop_done _ _ _ _ _ _ 0%nat
                  (initialStats fs size excluded) _ _ eq_refl Hfirst) as Hp.
    rewrite length_firstn, Nat.min_l in Hp by lia. cbn [plus] in Hp.
    split; [exact Hp |]. split; [lia |]. split; [| exact Hcl].
    rewrite (entryNames_collected _ _ _ _ _ _ _ Hcollect), firstn_map.
    destruct (compressZipLoop_blocks _ _ _ _ _ _ _ _ _ _ _ Hfirst)
      as (j & _ & _ & Hfull).
    destruct (Hfull eq_refl) as (_ & Hblocks).
    destruct Hview as [-> | ->]; [now rewrite map_id |].
    apply entryBlocks_asTar; [apply written_asTar | exact Hblocks].
  - intros ctx env opts info zfiles N Hstat Hzip Hmk Hopen Hlen
      (Hlive & Hdone) Hok.
    destruct (extractZipLoop_cancelled ctx env opts
                (Z.of_nat (List.length zfiles)) N zfiles 0%nat
                (setTotalFiles (mkExtractStats 0 0 (Size info) 0 "")
                   (Z.of_nat (List.length zfiles)))
                Hlen eq_refl Hlive Hdone Hok)
      as (stats' & tr & Hloop & Hfirst & Hp).
    exists stats', tr.
    assert (Hadapter : extractZip ctx env opts
                         (mkExtractStats 0 0 (Size info) 0 "")
                       = (Some ErrCancelled, stats', tr)).
    { unfold extractZip. now rewrite Hopen. }
    split; [exact Hadapter |]. split.
    { unfold Extract. rewrite Hstat, Hzip, Hmk.
      cbn [String.eqb Ascii.eqb Bool.eqb]. now rewrite Hadapter. }
    cbn [plus] in Hp. split; [exact Hp |]. split; [lia |].
    split; [| exact Hfirst].
    unfold archiveNames. rewrite Hzip, Hopen.
    cbn [String.eqb Ascii.eqb Bool.eqb]. rewrite firstn_map.
    destruct (extractZipLoop_blocks _ _ _ _ _ _ _ _ _ _ Hfirst)
      as (j & _ & Hany & Hfull).
    rewrite (Hfull eq_refl) in Hany.
    now rewrite firstn_all in Hany.
  - intros ctx env opts info entries last N Hstat Hknown Hzip Hmk Hopen
      Hreader Hentries Hlen (Hlive & Hdone) Hok.
    destruct (extractTarLoop_cancelled ctx env opts last N entries 0%nat
                (mkExtractStats 0 0 (Size info) 0 "")
                Hlen eq_refl Hlive Hdone Hok)
      as (stats' & tr & Hloop & Hfirst & Hp).
    exists stats', tr.
    split; [exact Hloop |]. split.
    { assert (Htar : forall codec fallible,
                extractTarWith codec fallible ctx env opts
                  (mkExtractStats 0 0 (Size info) 0 "")
                = (Some ErrCancelled, stats', tr)).
      { intros codec fallible. unfold extractTarWith. rewrite Hopen.
        replace (if fallible then NewReader env codec else None)
          with (@None oserr)
          by (destruct fallible; [now rewrite Hreader | easy]).
        rewrite Hentries. exact Hloop. }
      unfold Extract. rewrite Hstat, Hmk.
      destruct (detect_range (xSource opts)) as [H | H];
        [now contradiction Hknown |].
      unfold formatTags in H. cbn [In] in H.
      destruct H as [H | [H | [H | [H | [H | [H | [H | []]]]]]]];
        rewrite <- H in *; try (now contradiction Hzip);
        cbn [String.eqb Ascii.eqb Bool.eqb];
        unfold extractTarGz, extractTarBz2, extractTarXz, extractTarZstd,
          extractTarLz4, extractTar;
        now rewrite Htar. }
    cbn [plus] in Hp, Hfirst. split; [exact Hp |]. split; [lia |].
    split; [| exact Hfirst].
    unfold archiveNames. apply String.eqb_neq in Hzip. rewrite Hzip, Hentries.
    cbn [fst]. rewrite firstn_map.
    destruct (extractTarLoop_blocks _ _ _ _ _ _ _ _ _ _ Hfirst)
      as (j & _ & Hany & Hfull).
    rewrite (Hfull eq_refl) in Hany.
    now rewrite firstn_all in Hany.
  - intros Match ctx ctx' env opts. apply Compress_polls.
  - intros ctx ctx' env opts. apply Extract_polls.
Qed.

(** The statement at work: the site, cancelled once its first file is in
    the archive; and a ZIP archive and a TAR stream of two entries, the
    first cancelled once its first entry is extracted, the second once
    both are. *)
Lemma cancellation_between_entries_witness :
  (exists body closes,
     Compress suffixGlob (cancelledAfter 1) siteEnv siteOptions
     = ((None, Some ErrCancelled),
        (CreateOutput "/data/site.zip" :: body ++ closes)%list)
     /\ entryBlocks written false true 0 ["site/a.txt"] body)
  /\ fst (Extract (cancelledAfter 1)
            (calmEnv (oneFile "a.zip" 50)
               [mkZipFile "x.txt" false 420 30;
                mkZipFile "y.txt" false 420 20] [] 0)
            leavingOptions)
     = (None, Some ErrCancelled)
  /\ fst (Extract (cancelledAfter 2)
            (calmEnv (oneFile "a.tar" 50) []
               [mkTarHeader "x.txt" TypeReg 420 "" 30;
                mkTarHeader "y.txt" TypeReg 420 "" 20] 0)
            (mkExtractOptions "a.tar" "/out" false true))
     = (None, Some ErrCancelled).
Proof.
  destruct cancellation_between_entries as (Hcompress & Hzip & Htar & _).
  split; [| split].
  - destruct (Hcompress suffixGlob (cancelledAfter 1) siteEnv siteOptions
                ["/data/site/a.txt"; "/data/site/b.txt"] 1500%Z 1%Z 1%nat)
      as (run & stats' & body & closes & _ & _ & Hrun & _ & _ & Hblocks & _).
    + reflexivity.
    + discriminate.
    + reflexivity.
    + reflexivity.
    + cbn. lia.
    + split; [| reflexivity].
      intros j Hj. destruct j; [reflexivity | lia].
    + intros f _. reflexivity.
    + exists body, closes. split; [exact Hrun | exact Hblocks].
  - destruct (Hzip (cancelledAfter 1)
                (calmEnv (oneFile "a.zip" 50)
                   [mkZipFile "x.txt" false 420 30;
                    mkZipFile "y.txt" false 420 20] [] 0)
                leavingOptions (File (Some 50%Z))
                [mkZipFile "x.txt" false 420 30;
                 mkZipFile "y.txt" false 420 20] 1%nat)
      as (stats' & body & _ & Hrun & _).
    + reflexivity.
    + reflexivity.
    + reflexivity.
    + reflexivity.
    + cbn. lia.
    + split; [| reflexivity].
      intros j Hj. destruct j; [reflexivity | lia].
    + intros f [<- | []] stats. do 2 eexists. reflexivity.
    + now rewrite Hrun.
  - destruct (Htar (cancelledAfter 2)
                (calmEnv (oneFile "a.tar" 50) []
                   [mkTarHeader "x.txt" TypeReg 420 "" 30;
                    mkTarHeader "y.txt" TypeReg 420 "" 20] 0)
                (mkExtractOptions "a.tar" "/out" false true)
                (File (Some 50%Z))
                [mkTarHeader "x.txt" TypeReg 420 "" 30;
                 mkTarHeader "y.txt" TypeReg 420 "" 20] None 2%nat)
      as (stats' & body & _ & Hrun & _).
    + reflexivity.
    + discriminate.
    + discriminate.
    + reflexivity.
    + reflexivity.
    + reflexivity.
    + reflexivity.
    + cbn. lia.
    + split; [| reflexivity].
      intros j Hj. do 2 (destruct j; [reflexivity |]). lia.
    + intros h [<- | [<- | []]] stats; do 2 eexists; reflexivity.
    + now rewrite Hrun.
Defined.

(** C8 as the specification states it fails.  The context is cancelled
    after one of the two files of the site has been processed, while the
    second is being added: the polls before the two files found nothing,
    there is no poll after the last file, and the compression succeeds
    with both files processed instead of returning the cancellation
    error.  The same holds of a TAR compression and of the extraction of
    a ZIP archive; only the extraction of a TAR stream polls once more. *)
Lemma late_cancellation_goes_unnoticed :
  cancelledAfter 2 0 = false /\ cancelledAfter 2 1 = false
  /\ (forall j, (2 <= j)%nat -> cancelledAfter 2 j = true)
  /\ snd (fst (Compress suffixGlob (cancelledAfter 2) siteEnv siteOptions))
     = None
  /\ option_map ProcessedFiles
       (fst (fst (Compress suffixGlob (cancelledAfter 2) siteEnv
                    siteOptions)))
     = Some 2%Z
  /\ copiedNames
       (snd (Compress suffixGlob (cancelledAfter 2) siteEnv siteOptions))
     = ["site/a.txt"; "site/b.txt"]
  /\ snd (fst (Compress suffixGlob (cancelledAfter 2) siteEnv
                 (mkCompressOptions "/data/site" "/data/site.tar.gz"
                    ".tar.gz" ["*.log"] false true)))
     = None
  /\ snd (fst (Extract (cancelledAfter 2)
                 (calmEnv (oneFile "a.zip" 50)
                    [mkZipFile "x.txt" false 420 30;
                     mkZipFile "y.txt" false 420 20] [] 0)
                 leavingOptions))
     = None
  /\ snd (fst (Extract (cancelledAfter 2)
                 (calmEnv (oneFile "a.tar" 50) []
                    [mkTarHeader "x.txt" TypeReg 420 "" 30;
                     mkTarHeader "y.txt" TypeReg 420 "" 20] 0)
                 (mkExtractOptions "a.tar" "/out" false true)))
     = Some ErrCancelled.
Proof.
  split; [reflexivity |]. split; [reflexivity |].
  split; [intros j Hj; unfold cancelledAfter; now apply Nat.leb_le |].
  repeat split; vm_compute; reflexivity.
Qed.

(** ** The password of a request *)

Lemma readArchive_sealed p content (names : list string) :
  readArchive (Some p)
    (map (fun name => (name, Aes256 p (content name))) names)
  = inr (map (fun name => (name, content name)) names).
Proof.
  induction names as [|name names IH]; [reflexivity |].
  cbn [map readArchive]. unfold nextEntry. cbn [fst snd].
  now rewrite String.eqb_refl, IH.
Qed.

Lemma readArchive_wrong p password content (names : list string) :
  password <> Some p ->
  names <> [] ->
  readArchive password
    (map (fun name => (name, Aes256 p (content name))) names)
  = inl WrongPassword.
Proof.
  intros Hp Hnames. destruct names as [|name names];
    [now contradiction Hnames |].
  cbn [map readArchive]. unfold nextEntry. cbn [fst snd].
  destruct password as [q|]; [| reflexivity].
  destruct (q =? p) eqn:E; [| reflexivity].
  apply String.eqb_eq in E. subst q. now contradiction Hp.
Qed.

(** C3, on the adapters as the specification describes them (the engine
    of the sources takes no password): when a compression request carries
    a password,
    - the ZIP adapter stores every entry it writes encrypted with AES-256
      under that password, entry by entry;
    - every other adapter ignores the password: the archive is the one
      written without a password, its entries are in clear;
    - in either case the outcome of the operation is the outcome of the
      pipeline, so the password raises no error;
    - the ZIP archive is read back in full with the same password, and
      with any other password, or none, reading fails with WrongPassword,
      which is none of the errors of the engine. *)
Theorem password_sealed_by_zip_only Match ctx env content request p :
  Password request = Some p ->
  let written := compressRequest Match ctx env content request in
  let names := copiedNames (snd (Compress Match ctx env (options request))) in
  (Format (options request) = ".zip" ->
   snd written = map (fun name => (name, Aes256 p (content name))) names)
  /\ (Format (options request) <> ".zip" ->
      written
      = compressRequest Match ctx env content
          (mkCompressionRequest (options request) None)
      /\ snd written = map (fun name => (name, InClear (content name))) names)
  /\ fst written = fst (Compress Match ctx env (options request))
  /\ (Format (options request) = ".zip" ->
      readArchive (Some p) (snd written)
      = inr (map (fun name => (name, content name)) names)
      /\ (forall password,
            password <> Some p -> names <> [] ->
            readArchive password (snd written) = inl WrongPassword)
      /\ forall e, WrongPassword <> EngineError e).
Proof.
  intros Hp written names.
  assert (Hzip : Format (options request) = ".zip" ->
                 snd written
                 = map (fun name => (name, Aes256 p (content name))) names).
  { intros Hf. unfold written, compressRequest, sealEntry. cbn [snd].
    now rewrite Hp, Hf. }
  split; [exact Hzip |]. split; [| split; [reflexivity |]].
  - intros Hf. apply String.eqb_neq in Hf.
    unfold written, compressRequest, sealEntry. cbn [snd options Password].
    now rewrite Hp, Hf.
  - intros Hf. rewrite (Hzip Hf).
    split; [apply readArchive_sealed |].
    split; [| discriminate].
    intros password Hwrong Hnames. now apply readArchive_wrong.
Qed.

(** The statement at work: the sample file zipped with the password
    [secret] is stored encrypted, and does not open with [wrong]. *)
Lemma password_sealed_by_zip_only_witness :
  snd (compressRequest suffixGlob background sampleEnv (fun _ => "hello")
         (mkCompressionRequest sampleZipOptions (Some "secret")))
  = [("a.txt", Aes256 "secret" "hello")]
  /\ readArchive (Some "wrong") [("a.txt", Aes256 "secret" "hello")]
     = inl WrongPassword.
Proof.
  destruct (password_sealed_by_zip_only suffixGlob background sampleEnv
              (fun _ => "hello")
              (mkCompressionRequest sampleZipOptions (Some "secret"))
              "secret" eq_refl)
    as (Hzip & _ & _ & Hread).
  split; [exact (Hzip eq_refl) |].
  destruct (Hread eq_refl) as (_ & Hwrong & _).
  exact (Hwrong (Some "wrong") ltac:(discriminate)
           ltac:(vm_compute; discriminate)).
Defined.

(** ** What the caller is told *)

Lemma asked_notify opts k len name stats :
  Forall (asked (OnProgress opts) (OnStats opts))
    (notify opts k len name stats).
Proof.
  unfold notify.
  destruct (OnProgress opts), (OnStats opts); repeat constructor.
Qed.

Lemma asked_notifyX opts k len name stats :
  Forall (asked (xOnProgress opts) (xOnStats opts))
    (notifyX opts k len name stats).
Proof.
  unfold notifyX.
  destruct (xOnProgress opts), (xOnStats opts); repeat constructor.
Qed.

Lemma asked_work progress snapshot output name (work : list event) :
  Forall (worksOn output name) work -> Forall (asked progress snapshot) work.
Proof.
  intros H. eapply Forall_impl; [| exact H].
  intros e He. destruct e; cbn in *; solve [exact I | contradiction].
Qed.

Lemma compressZipLoop_asked ctx env opts baseDir len rest :
  forall i stats,
    Forall (asked (OnProgress opts) (OnStats opts))
      (snd (compressZipLoop ctx env opts baseDir len i rest stats)).
Proof.
  induction rest as [|file rest IH]; intros i stats; cbn [compressZipLoop].
  - constructor.
  - destruct (ctx i); [constructor |].
    pose proof (addFileToZip_works "" env file (relOrBase baseDir file)) as Hw.
    destruct (addFileToZip env file (relOrBase baseDir file)) as [[e|] evs].
    + cbn [snd]. apply Forall_app. split; [apply asked_notify |].
      eapply asked_work, Hw. reflexivity.
    + specialize (IH (S i)
                    (setProgress stats (Z.of_nat i + 1)
                       (relOrBase baseDir file))).
      destruct (compressZipLoop ctx env opts baseDir len (S i) rest _)
        as [[err stats2] evs2].
      cbn [snd] in *. apply Forall_app. split; [apply asked_notify |].
      apply Forall_app. split; [| exact IH].
      eapply asked_work, Hw. reflexivity.
Qed.

Lemma asked_asTar progress snapshot (tr : list event) :
  Forall (asked progress snapshot) tr ->
  Forall (asked progress snapshot) (map asTar tr).
Proof.
  induction 1 as [|e tr He _ IH]; cbn [map]; constructor; [| exact IH].
  destruct e; exact He.
Qed.

Lemma asked_closes progress snapshot (closes : list event) :
  Forall isClose closes -> Forall (asked progress snapshot) closes.
Proof.
  intros H. eapply Forall_impl; [| exact H].
  intros e He. destruct e; cbn in *; solve [exact I | contradiction].
Qed.

Lemma Compress_asked Match ctx env opts :
  Forall (asked (OnProgress opts) (OnStats opts))
    (snd (Compress Match ctx env opts)).
Proof.
  destruct (Compress Match ctx env opts) as [r tr] eqn:Hrun. cbn [snd].
  destruct (Compress_shape _ _ _ _ _ _ Hrun)
    as [(-> & _) | (fs & size & excluded & run & err & stats' & evs & _ & _
                    & Hfor & Hadapter & Hout)]; [constructor |].
  assert (Hevs : Forall (asked (OnProgress opts) (OnStats opts)) evs).
  { destruct (adapter_shape _ _ _ _ _ _ _ _ _ _ Hfor Hadapter)
      as [(-> & _) | [(-> & _) | (ztr & view & closes & Hloop & Hview & ->
                                  & Hcl)]];
      [constructor | repeat constructor |].
    constructor; [exact I |].
    apply Forall_app. split.
    - pose proof (compressZipLoop_asked ctx env opts
                    (filepath.Dir (Source opts))
                    (Z.of_nat (List.length fs)) fs 0
                    (initialStats fs size excluded)) as Hz.
      rewrite Hloop in Hz. cbn [snd] in Hz.
      destruct Hview as [-> | ->]; [now rewrite map_id | now apply asked_asTar].
    - apply Forall_app. split; [now apply asked_closes | repeat constructor]. }
  destruct Hout as [(e & _ & _ & ->) | (_ & -> & _)]; [exact Hevs |].
  apply Forall_app. split; [exact Hevs | repeat constructor].
Qed.

Lemma extractZipLoop_asked ctx env opts len rest :
  forall i stats,
    Forall (asked (xOnProgress opts) (xOnStats opts))
      (snd (extractZipLoop ctx env opts len i rest stats)).
Proof.
  induction rest as [|file rest IH]; intros i stats; cbn [extractZipLoop].
  - constructor.
  - destruct (ctx i); [constructor |].
    pose proof (extractZipEntry_works env opts file
                  (setProgressX stats (Z.of_nat i + 1) (zName file))) as Hw.
    destruct (extractZipEntry env opts file _) as [[e|stats2] evs].
    + cbn [snd]. apply Forall_app. split; [apply asked_notifyX |].
      eapply asked_work, Hw. reflexivity.
    + specialize (IH (S i) stats2).
      destruct (extractZipLoop ctx env opts len (S i) rest stats2)
        as [[err stats3] evs2].
      cbn [snd] in *. apply Forall_app. split; [apply asked_notifyX |].
      apply Forall_app. split; [| exact IH].
      eapply asked_work, Hw. reflexivity.
Qed.

Lemma extractTarLoop_asked ctx env opts last rest :
  forall i stats,
    Forall (asked (xOnProgress opts) (xOnStats opts))
      (snd (extractTarLoop ctx env opts i rest last stats)).
Proof.
  induction rest as [|header rest IH]; intros i stats; cbn [extractTarLoop].
  - destruct (ctx i); [| destruct last]; constructor.
  - destruct (ctx i); [constructor |].
    pose proof (extractTarEntry_works env opts header
                  (setProgressX stats (Z.of_nat i + 1) (hName header))) as Hw.
    destruct (extractTarEntry env opts header _) as [[e|stats2] evs].
    + cbn [snd]. apply Forall_app. split; [apply asked_notifyX |].
      eapply asked_work, Hw. reflexivity.
    + specialize (IH (S i) stats2).
      destruct (extractTarLoop ctx env opts (S i) rest last stats2)
        as [[err stats3] evs2].
      cbn [snd] in *. apply Forall_app. split; [apply asked_notifyX |].
      apply Forall_app. split; [| exact IH].
      eapply asked_work, Hw. reflexivity.
Qed.

Lemma Extract_asked ctx env opts :
  Forall (asked (xOnProgress opts) (xOnStats opts))
    (snd (Extract ctx env opts)).
Proof.
  set (Q := asked (xOnProgress opts) (xOnStats opts)).
  assert (Htar : forall codec fallible stats,
            Forall Q (snd (extractTarWith codec fallible ctx env opts stats))).
  { intros codec fallible stats. unfold extractTarWith, extractTarReader.
    destruct (OsOpen env (xSource opts)); [constructor |].
    destruct (if fallible then NewReader env codec else None);
      [constructor |].
    apply extractTarLoop_asked. }
  assert (Hzip : forall stats, Forall Q (snd (extractZip ctx env opts stats))).
  { intros stats. unfold extractZip.
    destruct (ZipOpenReader env (xSource opts));
      [apply extractZipLoop_asked | constructor]. }
  assert (Hres : forall r : option error * ExtractStats * list event,
            Forall Q (snd r) ->
            Forall Q
              (snd match r with
                   | (Some e0, _, evs) =>
                       ((None, Some e0), MkdirAll (xOutput opts) 493 :: evs)
                   | (None, stats', evs) =>
                       ((Some stats', None),
                        MkdirAll (xOutput opts) 493 :: evs)
                   end)).
  { intros [[[e0|] s] evs] Hr; cbn [snd] in *; constructor;
      solve [exact I | exact Hr]. }
  unfold Extract.
  destruct (Stat env (xSource opts)) as [info|]; [| constructor].
  destruct (DetectArchiveFormat (xSource opts) =? ""); [constructor |].
  destruct (OsMkdirAll env (xOutput opts)); [constructor |].
  repeat match goal with
         | |- context [if ?c then _ else _] => destruct c
         end;
    first [ apply Hres; first [apply Hzip | apply Htar]
          | repeat constructor ].
Qed.

(** C10, as amended: whenever [Compress] or [Extract] returns an error,
    the statistics it returns are nil; and whatever it returns, the counts
    it accumulates reach the caller through the callbacks the caller has
    set and in no other way: every call of [OnProgress] in a run is made
    with the progress callback set, and every snapshot is handed over with
    [OnStats] set, so that a caller who sets neither receives no count of
    a failed operation. *)
Theorem error_returns_no_stats :
  (forall Match ctx env opts,
     (snd (fst (Compress Match ctx env opts)) <> None ->
      fst (fst (Compress Match ctx env opts)) = None)
     /\ Forall (asked (OnProgress opts) (OnStats opts))
          (snd (Compress Match ctx env opts)))
  /\ (forall ctx env opts,
        (snd (fst (Extract ctx env opts)) <> None ->
         fst (fst (Extract ctx env opts)) = None)
        /\ Forall (asked (xOnProgress opts) (xOnStats opts))
             (snd (Extract ctx env opts))).
Proof.
  split.
  - intros Match ctx env opts. split; [| apply Compress_asked].
    unfold Compress.
    repeat break_match; cbn [fst snd]; intros H;
      solve [reflexivity | exfalso; apply H; reflexivity].
  - intros ctx env opts. split; [| apply Extract_asked].
    unfold Extract.
    repeat break_match; cbn [fst snd]; intros H;
      solve [reflexivity | exfalso; apply H; reflexivity].
Qed.

(** The statement at work: a cancelled compression hands back no
    statistics. *)
Lemma error_returns_no_stats_witness :
  fst (fst (Compress suffixGlob (cancelledAfter 0)
              (calmEnv (oneFile "/data/a.txt" 1000) [] [] 400)
              (mkCompressOptions "/data/a.txt" "/data/a.zip" ".zip" []
                 true true)))
  = None.
Proof.
  apply (proj1 (proj1 error_returns_no_stats suffixGlob (cancelledAfter 0)
                  (calmEnv (oneFile "/data/a.txt" 1000) [] [] 400)
                  (mkCompressOptions "/data/a.txt" "/data/a.zip" ".zip" []
                     true true))).
  vm_compute. discriminate.
Defined.

(** C10 as the specification states it fails.  The compression of the
    site, cancelled once its first file is in the archive, returns the
    cancellation error and nil statistics, and yet its caller, who has set
    [OnStats], has been handed the counts accumulated until then: one file
    of two processed, one path excluded, 1500 bytes in all.  Likewise the
    extraction that stops at the entry named to leave the output root has
    handed over the count of two entries and the 30 bytes extracted. *)
Lemma failed_run_hands_over_counts :
  fst (Compress suffixGlob (cancelledAfter 1) siteEnv siteOptions)
  = (None, Some ErrCancelled)
  /\ In (CallOnStats
           (mkCompressStats 2 1 1500 0 1 "site/a.txt" 0%float))
       (snd (Compress suffixGlob (cancelledAfter 1) siteEnv siteOptions))
  /\ fst (Extract background leavingEnv leavingOptions)
     = (None, Some (ErrIllegalPath "../evil"))
  /\ In (CallOnStatsX (mkExtractStats 2 2 50 30 "../evil"))
       (snd (Extract background leavingEnv leavingOptions)).
Proof.
  split; [reflexivity |]. split; [vm_compute; tauto |].
  split; [reflexivity |]. vm_compute. tauto.
Qed.

(** ** Formats: the menu, the switch of [Compress] and detection *)

Lemma adapter_iff_on_menu (format : string) :
  compressorFor format <> None
  <-> In format (map config.Extension config.GetArchiveFormats).
Proof.
  unfold compressorFor.
  cbn [map config.GetArchiveFormats config.Extension In]. split.
  - intros H.
    repeat match type of H with
           | context [if ?a =? ?b then _ else _] =>
               let E := fresh "E" in
               destruct (a =? b) eqn:E;
               [apply String.eqb_eq in E; auto 10 |]
           end.
    now contradiction H.
  - intros H.
    repeat (destruct H as [<- | H]; [cbn; discriminate |]). destruct H.
Qed.

Lemma detect_output_path (f : config.ArchiveFormat) (selectedPath : string) :
  In f config.GetArchiveFormats ->
  DetectArchiveFormat (outputPathFor selectedPath f) = config.Extension f.
Proof.
  intros Hin. unfold outputPathFor, DetectArchiveFormat.
  rewrite ToLower_app. cbn [In config.GetArchiveFormats] in Hin.
  repeat (destruct Hin as [<- | Hin];
          [match goal with
           | |- context [strings.ToLower (config.Extension ?g)] =>
               let v :=
                 eval vm_compute in (strings.ToLower (config.Extension g))
               in change (strings.ToLower (config.Extension g)) with v
           end;
           cbn [config.Extension];
           repeat match goal with
                  | |- context [strings.HasSuffix (?a ++ ?b) ?suffix] =>
                      first
                        [ rewrite (HasSuffix_app a b)
                        | rewrite (suffix_differs 2 a b suffix)
                            by (vm_compute; first [lia | discriminate]) ]
                  end;
           reflexivity |]).
  destruct Hin.
Qed.

(** X11. The formats of the menu are the formats [Compress] has an adapter
    for, no more and no fewer; and the output path the interface builds
    for a format of the menu, the selected path followed by the
    extension, is detected as an archive of that very format, whatever
    the selected path is. *)
Theorem menu_formats_compress_and_come_back :
  (forall format,
     compressorFor format <> None
     <-> In format (map config.Extension config.GetArchiveFormats))
  /\ (forall f selectedPath,
        In f config.GetArchiveFormats ->
        DetectArchiveFormat (outputPathFor selectedPath f)
        = config.Extension f
        /\ IsArchiveFile (outputPathFor selectedPath f) = true).
Proof.
  split; [exact adapter_iff_on_menu |].
  intros f selectedPath Hin.
  pose proof (detect_output_path f selectedPath Hin) as Hdetect.
  split; [exact Hdetect |].
  unfold IsArchiveFile. rewrite Hdetect.
  cbn [In config.GetArchiveFormats] in Hin.
  repeat (destruct Hin as [<- | Hin]; [reflexivity |]). destruct Hin.
Qed.

(** The statement at work: a directory compressed as [.tar.xz]. *)
Lemma menu_formats_compress_and_come_back_witness :
  DetectArchiveFormat "/data/My.Project.tar.xz" = ".tar.xz"
  /\ IsArchiveFile "/data/My.Project.tar.xz" = true.
Proof.
  refine (proj2 menu_formats_compress_and_come_back
            (config.mkArchiveFormat "TAR.XZ" ".tar.xz"
               "压缩率最高，速度最慢")
            "/data/My.Project" _).
  cbn. auto 10.
Defined.

Lemma extractTarEntry_supported env opts header stats e evs :
  extractTarEntry env opts header stats = (inl e, evs) ->
  isUnsupportedArchive e = false.
Proof.
  unfold extractTarEntry.
  repeat break_match; intros H; try discriminate H;
    injection H as <- _; reflexivity.
Qed.

Lemma extractZipEntry_supported env opts file stats e evs :
  extractZipEntry env opts file stats = (inl e, evs) ->
  isUnsupportedArchive e = false.
Proof.
  unfold extractZipEntry.
  repeat break_match; intros H; try discriminate H;
    injection H as <- _; reflexivity.
Qed.

Lemma extractTarLoop_supported ctx env opts last rest :
  forall i stats e stats' tr,
    extractTarLoop ctx env opts i rest last stats = (Some e, stats', tr) ->
    isUnsupportedArchive e = false.
Proof.
  induction rest as [|header rest IH]; intros i stats e stats' tr;
    cbn [extractTarLoop].
  - destruct (ctx i); [| destruct last]; intros H; try discriminate H;
      injection H as <- _ _; reflexivity.
  - destruct (ctx i); [intros H; injection H as <- _ _; reflexivity |].
    destruct (extractTarEntry env opts header _) as [[e1|stats2] evs] eqn:E.
    + intros H. injection H as <- _ _.
      exact (extractTarEntry_supported _ _ _ _ _ _ E).
    + destruct (extractTarLoop ctx env opts (S i) rest last stats2)
        as [[err stats3] evs2] eqn:L.
      intros H. injection H as -> _ _. exact (IH _ _ _ _ _ L).
Qed.

Lemma extractZipLoop_supported ctx env opts len rest :
  forall i stats e stats' tr,
    extractZipLoop ctx env opts len i rest stats = (Some e, stats', tr) ->
    isUnsupportedArchive e = false.
Proof.
  induction rest as [|file rest IH]; intros i stats e stats' tr;
    cbn [extractZipLoop]; [discriminate |].
  destruct (ctx i); [intros H; injection H as <- _ _; reflexivity |].
  destruct (extractZipEntry env opts file _) as [[e1|stats2] evs] eqn:E.
  - intros H. injection H as <- _ _.
    exact (extractZipEntry_supported _ _ _ _ _ _ E).
  - destruct (extractZipLoop ctx env opts len (S i) rest stats2)
      as [[err stats3] evs2] eqn:L.
    intros H. injection H as -> _ _. exact (IH _ _ _ _ _ L).
Qed.

Lemma unsupported_error_is_early ctx env opts e :
  snd (fst (Extract ctx env opts)) = Some e ->
  isUnsupportedArchive e = true ->
  e = ErrUnsupportedArchive None
  /\ snd (Extract ctx env opts) = []
  /\ IsArchiveFile (xSource opts) = false
  /\ exists sourceInfo, Stat env (xSource opts) = Ok sourceInfo.
Proof.
  unfold Extract, IsArchiveFile.
  destruct (Stat env (xSource opts)) as [info|];
    [| cbn; intros H; injection H as <-; discriminate].
  destruct (DetectArchiveFormat (xSource opts) =? "") eqn:Hfmt.
  { cbn. intros H _. injection H as <-. eauto. }
  destruct (OsMkdirAll env (xOutput opts));
    [cbn; intros H; injection H as <-; discriminate |].
  assert (Htar : forall codec fallible stats e1 s t,
            extractTarWith codec fallible ctx env opts stats
            = (Some e1, s, t) ->
            isUnsupportedArchive e1 = false).
  { intros codec fallible stats e1 s t. unfold extractTarWith, extractTarReader.
    destruct (OsOpen env (xSource opts));
      [intros H; injection H as <- _ _; reflexivity |].
    destruct (if fallible then NewReader env codec else None);
      [intros H; injection H as <- _ _; reflexivity |].
    apply extractTarLoop_supported. }
  assert (Hzip : forall stats e1 s t,
            extractZip ctx env opts stats = (Some e1, s, t) ->
            isUnsupportedArchive e1 = false).
  { intros stats e1 s t. unfold extractZip.
    destruct (ZipOpenReader env (xSource opts));
      [| intros H; injection H as <- _ _; reflexivity].
    apply extractZipLoop_supported. }
  assert (Hres : forall (r : option error * ExtractStats * list event),
            (forall e1 s t, r = (Some e1, s, t) ->
                            isUnsupportedArchive e1 = false) ->
            snd (fst match r with
                     | (Some e1, _, evs) =>
                         ((None, Some e1), MkdirAll (xOutput opts) 493 :: evs)
                     | (None, s, evs) =>
                         ((Some s, None), MkdirAll (xOutput opts) 493 :: evs)
                     end) = Some e ->
            isUnsupportedArchive e = false).
  { intros [[[e1|] s] t] Hr; cbn; intros H; [| discriminate].
    injection H as <-. exact (Hr e1 s t eq_refl). }
  destruct (detect_range (xSource opts)) as [H0 | Hin].
  { rewrite H0 in Hfmt. discriminate. }
  unfold formatTags in Hin. cbn [In] in Hin.
  repeat (destruct Hin as [<- | Hin];
          [cbn [String.eqb Ascii.eqb Bool.eqb]; intros H Hu;
           apply Hres in H;
           [rewrite H in Hu; discriminate
           | first [exact (Hzip _) | exact (Htar _ _ _)]] |]).
  destruct Hin.
Qed.

(** X12. [Extract] reports an unsupported archive exactly when the source
    exists and its name is not that of an archive, and then before it has
    done anything: an unsupported-archive error comes with an empty
    trace, names no format, and means that the source exists under a name
    that is no archive's; and every existing source with such a name gets
    that error.  The default branch of the switch, which names the format
    in the error, is never taken, and no adapter returns such an error,
    because every format [DetectArchiveFormat] answers has an adapter. *)
Theorem unsupported_archive_only_by_name ctx env opts :
  (forall e,
     snd (fst (Extract ctx env opts)) = Some e ->
     isUnsupportedArchive e = true ->
     e = ErrUnsupportedArchive None
     /\ snd (Extract ctx env opts) = []
     /\ IsArchiveFile (xSource opts) = false
     /\ exists sourceInfo, Stat env (xSource opts) = Ok sourceInfo)
  /\ (forall sourceInfo,
        Stat env (xSource opts) = Ok sourceInfo ->
        IsArchiveFile (xSource opts) = false ->
        Extract ctx env opts
        = ((None, Some (ErrUnsupportedArchive None)), [])).
Proof.
  split; [intros e; apply unsupported_error_is_early |].
  intros sourceInfo Hstat Hname. unfold Extract. rewrite Hstat.
  unfold IsArchiveFile in Hname. apply negb_false_iff in Hname.
  now rewrite Hname.
Qed.

(** The statement at work: a text file given to [Extract]. *)
Lemma unsupported_archive_only_by_name_witness :
  Extract background (calmEnv (oneFile "notes.txt" 10) [] [] 0)
    (mkExtractOptions "notes.txt" "/out" false false)
  = ((None, Some (ErrUnsupportedArchive None)), []).
Proof.
  exact (proj2 (unsupported_archive_only_by_name background
                  (calmEnv (oneFile "notes.txt" 10) [] [] 0)
                  (mkExtractOptions "notes.txt" "/out" false false))
           (File (Some 10%Z)) eq_refl eq_refl).
Defined.

(** ** Collection over any tree *)

(** What every call of the callback preserves, the walk preserves. *)
Lemma walkDir_preserves {S : Type}
  (fn : string -> node -> option oserr -> S -> walk_ctl * S)
  (I : S -> Prop) :
  (forall path d err st, I st -> I (snd (fn path d err st))) ->
  forall d path st, I st -> I (snd (walkDir fn path d st)).
Proof.
  intros Hfn.
  induction d as [info | size readErr entries IH] using node_ind_entries;
    intros path st Hst; cbn [walkDir].
  - pose proof (Hfn path (File info) None st Hst) as H1.
    destruct (fn path (File info) None st) as [[| |e] st1]; exact H1.
  - pose proof (Hfn path (Dir size readErr entries) None st Hst) as H1.
    destruct (fn path (Dir size readErr entries) None st) as [[| |e] st1];
      cbn [snd IsDir] in *; try exact H1.
    assert (Hloop : forall es st0,
              Forall (fun e => forall path st,
                        I st -> I (snd (walkDir fn path (snd e) st))) es ->
              I st0 ->
              I (snd ((fix walkEntries (es : list (string * node)) (st : S)
                         {struct es} : walk_ctl * S :=
                         match es with
                         | [] => (Continue, st)
                         | (name, d1) :: es' =>
                             match
                               walkDir fn (filepath.Join [path; name]) d1 st
                             with
                             | (Continue, st') => walkEntries es' st'
                             | (SkipDir, st') => (Continue, st')
                             | (Abort e, st') => (Abort e, st')
                             end
                         end) es st0))).
    { induction es as [|[name d1] es IHes]; intros st0 Hall Hst0.
      - exact Hst0.
      - inversion Hall as [|x l Hd1 Hes]; subst. cbn [snd] in Hd1.
        pose proof (Hd1 (filepath.Join [path; name]) st0 Hst0) as H2.
        destruct (walkDir fn (filepath.Join [path; name]) d1 st0)
          as [[| |e] st2]; cbn [snd] in *; try exact H2.
        now apply IHes. }
    destruct readErr as [e|]; [| now apply Hloop].
    pose proof (Hfn path (Dir size (Some e) entries) (Some e) st1 H1) as H2.
    destruct (fn path (Dir size (Some e) entries) (Some e) st1)
      as [[| |e'] st2]; cbn [snd] in *; try exact H2.
    now apply Hloop.
Qed.

(** X13. Over any tree, readable or not: when the source is a directory,
    no path [collectFiles] returns is excluded, neither by its path
    relative to the parent of the source nor by its full path, and the
    excluded count is not negative.  When the source is a single file the
    patterns are not consulted: the file is collected even when a
    pattern matches it, and nothing is counted as excluded. *)
Theorem collected_paths_are_not_excluded
  Match env source excludes sourceInfo :
  Stat env source = Ok sourceInfo ->
  (IsDir sourceInfo = true ->
   let '(fs, _, excluded, _) := collectFiles Match env source excludes in
   Forall (fun p => excludedPath Match source excludes p = false) fs
   /\ (0 <= excluded)%Z)
  /\ (IsDir sourceInfo = false ->
      collectFiles Match env source excludes
      = ([source], Size sourceInfo, 0%Z, None)).
Proof.
  intros Hstat. unfold collectFiles. rewrite Hstat. split; intros Hdir;
    rewrite Hdir; cbn [negb]; [| reflexivity].
  set (I := fun c : collected =>
              Forall (fun p => excludedPath Match source excludes p = false)
                (files c)
              /\ (0 <= excludedCount c)%Z).
  assert (Hfn : forall path d err c,
            I c -> I (snd (collectFn Match source excludes path d err c))).
  { intros path d err c [Hfs Hex]. unfold collectFn.
    destruct err as [e|]; [now split |].
    fold (excludedPath Match source excludes path).
    destruct (excludedPath Match source excludes path) eqn:E.
    - destruct (IsDir d); (split; cbn; [assumption | lia]).
    - destruct (negb (IsDir d)); [| now split].
      split; cbn; [| assumption].
      apply Forall_app. split; [assumption |]. now constructor. }
  assert (H0 : I (mkCollected [] 0 0)) by (split; cbn; [constructor | lia]).
  unfold WalkDir.
  assert (Hwalk : I (snd match Lstat env source with
                         | Fail e =>
                             collectFn Match source excludes source
                               (File None) (Some e) (mkCollected [] 0 0)
                         | Ok d =>
                             walkDir (collectFn Match source excludes) source
                               d (mkCollected [] 0 0)
                         end)).
  { destruct (Lstat env source) as [d|e];
      [now apply walkDir_preserves | now apply Hfn]. }
  destruct (match Lstat env source with
            | Fail e => _
            | Ok d => _
            end) as [ctl c].
  cbn [snd] in Hwalk. destruct ctl; exact Hwalk.
Qed.

(** The statement at work: a log file given as the source is collected
    although the pattern [*.log] matches it. *)
Lemma collected_paths_are_not_excluded_witness :
  excludedPath suffixGlob "/data/a.log" ["*.log"] "/data/a.log" = true
  /\ collectFiles suffixGlob (calmEnv (oneFile "/data/a.log" 10) [] [] 0)
       "/data/a.log" ["*.log"]
     = (["/data/a.log"], 10%Z, 0%Z, None).
Proof.
  split; [reflexivity |].
  exact (proj2 (collected_paths_are_not_excluded suffixGlob
                  (calmEnv (oneFile "/data/a.log" 10) [] [] 0)
                  "/data/a.log" ["*.log"] (File (Some 10%Z)) eq_refl)
           eq_refl).
Defined.

(** ** The exclusion tables *)

Lemma shouldExclude_same_patterns Match path (l1 l2 : list string) :
  (forall p, In p l1 <-> In p l2) ->
  shouldExclude Match path l1 = shouldExclude Match path l2.
Proof.
  intros Hsame. unfold shouldExclude.
  pose proof (excludeLoop_iff Match path l1) as H1.
  pose proof (excludeLoop_iff Match path l2) as H2.
  assert (H : excludeLoop Match path (filepath.Base path) l1 = true
              <-> excludeLoop Match path (filepath.Base path) l2 = true).
  { rewrite H1, H2. split; intros (p & Hin & Hp); exists p;
      (split; [now apply Hsame | assumption]). }
  destruct (excludeLoop Match path (filepath.Base path) l1),
    (excludeLoop Match path (filepath.Base path) l2); try reflexivity.
  - symmetry. now apply H.
  - now apply H.
Qed.

Lemma collectExcludes_flat (cats : list config.ExcludeCategory) :
  forall excludes,
    tui.collectExcludes cats excludes
    = (excludes
       ++ flat_map (fun cat => if config.Selected cat
                               then config.Patterns cat else []) cats)%list.
Proof.
  induction cats as [|cat cats IH]; intros excludes;
    cbn [tui.collectExcludes flat_map].
  - now rewrite app_nil_r.
  - rewrite IH. destruct (config.Selected cat); [| reflexivity].
    now rewrite app_assoc.
Qed.

Lemma In_existsb (p : string) (l : list string) :
  existsb (String.eqb p) l = true <-> In p l.
Proof.
  rewrite existsb_exists. split.
  - intros (x & Hin & Heq). apply String.eqb_eq in Heq. now subst.
  - intros Hin. exists p. split; [assumption | apply String.eqb_refl].
Qed.

Lemma incl_forallb (a b : list string) :
  forallb (fun p => existsb (String.eqb p) b) a = true -> incl a b.
Proof.
  rewrite forallb_forall. intros H p Hin. apply In_existsb. now apply H.
Qed.

Lemma default_tables_agree (p : string) :
  In p (tui.collectExcludes config.GetExcludeCategories [])
  <-> In p config.DefaultExcludes.
Proof.
  split; apply incl_forallb; vm_compute; reflexivity.
Qed.

(** X14. The answer of [shouldExclude] depends on which patterns the list
    holds, not on their order nor on repetitions.  The patterns
    [startCompress] gathers from the categories as [GetExcludeCategories]
    delivers them (all selected) are those of [DefaultExcludes], so both
    lists exclude the same paths. *)
Theorem default_selection_excludes_like_default_list Match path :
  (forall l1 l2,
     (forall p, In p l1 <-> In p l2) ->
     shouldExclude Match path l1 = shouldExclude Match path l2)
  /\ (forall p,
        In p (tui.collectExcludes config.GetExcludeCategories [])
        <-> In p config.DefaultExcludes)
  /\ shouldExclude Match path
       (tui.collectExcludes config.GetExcludeCategories [])
     = shouldExclude Match path config.DefaultExcludes.
Proof.
  split; [apply shouldExclude_same_patterns |].
  split; [apply default_tables_agree |].
  apply shouldExclude_same_patterns, default_tables_agree.
Qed.

(** The statement at work: a repeated pattern and another order. *)
Lemma default_selection_excludes_like_default_list_witness :
  shouldExclude suffixGlob "proj/build/x.o" ["*.log"; "build"; "*.log"]
  = shouldExclude suffixGlob "proj/build/x.o" ["build"; "*.log"].
Proof.
  apply (proj1 (default_selection_excludes_like_default_list suffixGlob
                  "proj/build/x.o")).
  intros p. cbn. tauto.
Defined.

(** ** The language of the interface *)

Lemma namesChinese_iff (val : string) :
  strings.HasPrefix (strings.ToLower val) "zh"
  || strings.Contains (strings.ToLower val) "chinese"
  || strings.Contains (strings.ToLower val) "china" = true
  <-> namesChinese val.
Proof.
  unfold namesChinese. cbv zeta.
  rewrite !orb_true_iff, HasPrefix_iff, !Contains_iff. tauto.
Qed.

Lemma empty_names_nothing : ~ namesChinese "".
Proof.
  rewrite <- namesChinese_iff. cbn. discriminate.
Qed.

Lemma detectLoop_iff Getenv (envVars : list string) :
  i18n.detectLoop Getenv envVars = i18n.LangZH
  <-> exists v, In v envVars /\ namesChinese (Getenv v).
Proof.
  induction envVars as [|env rest IH]; cbn [i18n.detectLoop In].
  - split; [discriminate | intros (v & [] & _)].
  - pose proof (namesChinese_iff (Getenv env)) as Hn.
    destruct (Getenv env =? "") eqn:Hempty; cbn [negb].
    + apply String.eqb_eq in Hempty. rewrite IH. split.
      * intros (v & Hin & Hv). eauto.
      * intros (v & [<- | Hin] & Hv); [| eauto].
        rewrite Hempty in Hv. now apply empty_names_nothing in Hv.
    + destruct (strings.HasPrefix (strings.ToLower (Getenv env)) "zh"
                || strings.Contains (strings.ToLower (Getenv env)) "chinese"
                || strings.Contains (strings.ToLower (Getenv env)) "china").
      * split; [| reflexivity]. intros _. exists env.
        split; [now left | now apply Hn].
      * rewrite IH. split.
        -- intros (v & Hin & Hv). eauto.
        -- intros (v & [<- | Hin] & Hv); [| eauto].
           apply Hn in Hv. discriminate.
Qed.

Lemma detectLoop_range Getenv (envVars : list string) :
  i18n.detectLoop Getenv envVars = i18n.LangZH
  \/ i18n.detectLoop Getenv envVars = i18n.LangEN.
Proof.
  induction envVars as [|env rest IH]; cbn [i18n.detectLoop]; [now right |].
  destruct (negb (Getenv env =? "")); [| exact IH].
  destruct (_ || _); [now left | exact IH].
Qed.

(** X15. When the values of the four locale variables are strings of
    ASCII bytes, the language is Chinese exactly when at least one of the
    values names Chinese; which of them does, and what the variables read
    before it hold, plays no role, so a variable that names another
    language does not take precedence over a later one.  In every other
    case the language is English, and [T] serves the Chinese table after
    [Init] in the first case only. *)
Theorem chinese_iff_some_variable_names_it Getenv :
  (forall v, In v localeVariables -> strings.isASCII (Getenv v) = true) ->
  (i18n.detectSystemLanguage Getenv = i18n.LangZH
   <-> exists v, In v localeVariables /\ namesChinese (Getenv v))
  /\ (i18n.detectSystemLanguage Getenv <> i18n.LangZH ->
      i18n.detectSystemLanguage Getenv = i18n.LangEN)
  /\ (forall currentLang,
        i18n.T (i18n.Init Getenv currentLang) = i18n.messagesZH
        <-> exists v, In v localeVariables /\ namesChinese (Getenv v)).
Proof.
  intros _. unfold i18n.detectSystemLanguage.
  pose proof (detectLoop_iff Getenv localeVariables) as Hiff.
  fold localeVariables.
  split; [exact Hiff |]. split.
  - intros Hne. now destruct (detectLoop_range Getenv localeVariables).
  - intros currentLang. rewrite <- Hiff.
    unfold i18n.Init, i18n.SetLanguage, i18n.T, i18n.detectSystemLanguage.
    fold localeVariables.
    destruct (detectLoop_range Getenv localeVariables) as [-> | ->];
      unfold i18n.LangZH, i18n.LangEN; cbn; split; congruence.
Qed.

(** The statement at work: [LANGUAGE] is English, [LANG] is Chinese. *)
Lemma chinese_iff_some_variable_names_it_witness :
  i18n.detectSystemLanguage sampleGetenv = i18n.LangZH.
Proof.
  refine (proj2 (proj1 (chinese_iff_some_variable_names_it sampleGetenv _))
            _).
  - intros v Hin. cbn in Hin.
    repeat (destruct Hin as [<- | Hin]; [reflexivity |]). destruct Hin.
  - exists "LANG". split; [cbn; auto |].
    left. now exists "_cn.utf-8".
Defined.

(** ** The file screen *)

Lemma loadEntry_fold (dir : string) (listed : list tui.DirEntry) :
  forall dirs archives files,
    fold_left (fun acc entry => tui.loadEntry dir entry acc) listed
      (dirs, archives, files)
    = ((dirs ++ filter tui.isDir
                  (map (entryOf dir) (filter listable listed)))%list,
       (archives ++ filter tui.isArchive
                      (map (entryOf dir) (filter listable listed)))%list,
       (files ++ filter plainFile
                   (map (entryOf dir) (filter listable listed)))%list).
Proof.
  induction listed as [|entry listed IH]; intros dirs archives files;
    cbn [fold_left filter map].
  - now rewrite !app_nil_r.
  - assert (Hstep : tui.loadEntry dir entry (dirs, archives, files)
                    = if listable entry
                      then ((dirs ++ filter tui.isDir [entryOf dir entry])%list,
                            (archives
                             ++ filter tui.isArchive [entryOf dir entry])%list,
                            (files ++ filter plainFile [entryOf dir entry])%list)
                      else (dirs, archives, files)).
    { unfold tui.loadEntry, listable, plainFile, entryOf.
      destruct (strings.HasPrefix (tui.deName entry) "."),
        (tui.deInfo entry), (tui.deIsDir entry),
        (IsArchiveFile (tui.deName entry));
        cbn; rewrite ?app_nil_r; reflexivity. }
    rewrite Hstep. destruct (listable entry); [| apply IH].
    rewrite IH, <- !app_assoc. cbn [map].
    assert (Hcons : forall f (e : tui.fileEntry) rest,
              (filter f [e] ++ filter f rest)%list = filter f (e :: rest)).
    { intros f e rest. cbn. now destruct (f e). }
    now rewrite !Hcons.
Qed.

(** X16. [loadEntries] shows the entries of the directory that are not
    hidden and have file information, each once, in three groups that
    keep the order of the directory: directories, archives and plain
    files when compressing, archives first when extracting; only a file
    whose name is that of an archive counts as one; and the cursor is put
    on the first line.  When the directory cannot be read the list is
    empty and the cursor stays where it was. *)
Theorem file_screen_groups_visible_entries w m :
  (forall cause,
     tui.ReadDir w (tui.cwd m) = Fail cause ->
     tui.entries (tui.loadEntries w m) = []
     /\ tui.cursor (tui.loadEntries w m) = tui.cursor m)
  /\ (forall listed,
        tui.ReadDir w (tui.cwd m) = Ok listed ->
        let shown := map (entryOf (tui.cwd m)) (filter listable listed) in
        tui.cursor (tui.loadEntries w m) = 0%Z
        /\ tui.entries (tui.loadEntries w m)
           = match tui.mode m with
             | tui.modeCompress =>
                 (filter tui.isDir shown ++ filter tui.isArchive shown
                  ++ filter plainFile shown)%list
             | tui.modeExtract =>
                 (filter tui.isArchive shown ++ filter tui.isDir shown
                  ++ filter plainFile shown)%list
             end).
Proof.
  split.
  - intros cause Hread. unfold tui.loadEntries.
    cbn [tui.cwd tui.set_entries]. now rewrite Hread.
  - intros listed Hread shown. unfold tui.loadEntries.
    cbn [tui.cwd tui.set_entries tui.mode]. rewrite Hread, loadEntry_fold.
    fold shown. cbn [app].
    destruct (tui.mode m); cbn; rewrite <- app_assoc; auto.
Qed.

(** The statement at work on the sample directory, when extracting. *)
Lemma file_screen_groups_visible_entries_witness :
  map tui.name
    (tui.entries
       (tui.loadEntries sampleWorld
          (tui.set_mode (tui.newModel sampleWorld) tui.modeExtract)))
  = ["old.tar.gz"; "src"; "notes.txt"].
Proof.
  rewrite (proj2 (proj2 (file_screen_groups_visible_entries sampleWorld
                           (tui.set_mode (tui.newModel sampleWorld)
                              tui.modeExtract))
                    sampleListing eq_refl)).
  reflexivity.
Defined.

(** ** The name of the extraction directory *)

Lemma string_of_app (a b : list ascii) :
  string_of_list_ascii (a ++ b)
  = string_of_list_ascii a ++ string_of_list_ascii b.
Proof. induction a as [|c a IH]; cbn; [reflexivity | now rewrite IH]. Qed.

(** What the scan of [Ext] answers is empty, or starts with a dot and is
    the end of the string scanned. *)
Lemma ext_scan_suffix (reversed : list ascii) :
  forall acc,
    filepath.ext_scan reversed acc = ""
    \/ exists front tail,
         filepath.ext_scan reversed acc = String "." tail
         /\ string_of_list_ascii (rev reversed) ++ acc
            = front ++ String "." tail.
Proof.
  induction reversed as [|c rest IH]; intros acc; cbn [filepath.ext_scan].
  - now left.
  - destruct (Ascii.eqb c "/"); [now left |].
    destruct (Ascii.eqb c ".") eqn:Hdot.
    + apply Ascii.eqb_eq in Hdot. subst c. right.
      exists (string_of_list_ascii (rev rest)), acc. split; [reflexivity |].
      cbn [rev]. now rewrite string_of_app, append_assoc.
    + destruct (IH (String c acc)) as [H | (front & tail & H1 & H2)];
        [now left |].
      right. exists front, tail. split; [exact H1 |].
      cbn [rev]. now rewrite string_of_app, append_assoc.
Qed.

Lemma Ext_suffix (s : string) :
  filepath.Ext s = ""
  \/ exists front tail,
       filepath.Ext s = String "." tail /\ s = front ++ String "." tail.
Proof.
  unfold filepath.Ext.
  destruct (ext_scan_suffix (rev (list_ascii_of_string s)) "")
    as [H | (front & tail & H1 & H2)]; [now left |].
  right. exists front, tail. split; [exact H1 |].
  now rewrite rev_involutive, string_of_list_ascii_of_string, append_nil_r
    in H2.
Qed.

Lemma TrimSuffix_app (front suffix : string) :
  strings.TrimSuffix (front ++ suffix) suffix = front.
Proof.
  unfold strings.TrimSuffix. rewrite HasSuffix_app, length_append.
  replace (String.length front + String.length suffix
           - String.length suffix)%nat
    with (String.length front) by lia.
  apply substring_head.
Qed.

Lemma HasPrefix_dot (c : ascii) (rest : string) :
  strings.HasPrefix (String c rest) "." = Ascii.eqb c ".".
Proof.
  unfold strings.HasPrefix. cbn.
  assert (H0 : substring 0 0 rest = "") by now destruct rest.
  rewrite H0. cbn. now destruct (Ascii.eqb c ".").
Qed.

Lemma stops_empty : tui.stops "" = true.
Proof. reflexivity. Qed.

(** One turn of the loop: either the test ends it, or a suffix that starts
    with a dot is cut off. *)
Lemma strip_turn (s : string) :
  tui.stops (filepath.Ext s) = true
  \/ exists front tail,
       tui.stops (filepath.Ext s) = false
       /\ s = front ++ String "." tail
       /\ strings.TrimSuffix s (filepath.Ext s) = front.
Proof.
  destruct (Ext_suffix s) as [H | (front & tail & H1 & H2)].
  - left. rewrite H. apply stops_empty.
  - destruct (tui.stops (filepath.Ext s)) eqn:Hstop; [now left |].
    right. exists front, tail. split; [reflexivity |].
    split; [exact H2 |]. rewrite H1. rewrite H2 at 1. apply TrimSuffix_app.
Qed.

Lemma stripLoop_ends (fuel : nat) :
  forall s,
    (String.length s < fuel)%nat ->
    exists stripped removed,
      tui.stripLoop fuel s = Some stripped
      /\ s = stripped ++ removed
      /\ tui.stops (filepath.Ext stripped) = true
      /\ (stripped = s <-> tui.stops (filepath.Ext s) = true)
      /\ (s <> "" -> strings.HasPrefix s "." = false -> stripped <> "").
Proof.
  induction fuel as [|fuel IH]; intros s Hlen; [lia |].
  cbn [tui.stripLoop].
  destruct (strip_turn s) as [Hstop | (front & tail & Hstop & Hs & Htrim)];
    rewrite Hstop.
  - exists s, "". rewrite append_nil_r. repeat split; auto.
  - rewrite Htrim.
    assert (Hshort : (String.length front < String.length s)%nat).
    { rewrite Hs, length_append. cbn [String.length]. lia. }
    destruct (IH front ltac:(lia))
      as (stripped & removed & Hrun & Hfront & Hend & _ & Hne).
    exists stripped, (removed ++ String "." tail).
    split; [exact Hrun |].
    split; [now rewrite <- append_assoc, <- Hfront |].
    split; [exact Hend |]. split.
    + split; [| congruence]. intros ->.
      apply (f_equal String.length) in Hfront.
      rewrite length_append in Hfront. lia.
    + intros Hs0 Hdot. rewrite Hs in Hdot. destruct front as [|c front].
      * cbn [append] in Hdot. rewrite HasPrefix_dot in Hdot.
        discriminate Hdot.
      * cbn [append] in Hdot. rewrite HasPrefix_dot in Hdot.
        apply Hne; [discriminate | now rewrite HasPrefix_dot].
Qed.

Lemma ext_scan_app (l1 l2 : list ascii) :
  forall acc,
    filepath.ext_scan l1 acc <> "" ->
    filepath.ext_scan (l1 ++ l2) acc = filepath.ext_scan l1 acc.
Proof.
  induction l1 as [|c l1 IH]; intros acc; cbn [filepath.ext_scan app].
  - intros H. now contradiction H.
  - destruct (Ascii.eqb c "/"); [intros H; now contradiction H |].
    destruct (Ascii.eqb c "."); [reflexivity | apply IH].
Qed.

Lemma Ext_app (front suffix : string) :
  filepath.Ext suffix <> "" ->
  filepath.Ext (front ++ suffix) = filepath.Ext suffix.
Proof.
  unfold filepath.Ext. intros H.
  rewrite list_ascii_app, rev_app_distr. now apply ext_scan_app.
Qed.

Lemma archive_extension_is_stripped (s : string) :
  IsArchiveFile s = true -> strings.ToLower s = s ->
  strings.HasSuffix s ".tzst" = false ->
  tui.stops (filepath.Ext s) = false.
Proof.
  unfold IsArchiveFile. intros Harch Hlower Htzst.
  assert (Hknown : DetectArchiveFormat s <> "").
  { intros H. rewrite H in Harch. discriminate. }
  apply detect_known_iff in Hknown.
  destruct Hknown as (suffix & front & Hin & Hs). rewrite Hlower in Hs.
  subst s. unfold recognizedSuffixes in Hin. cbn [In] in Hin.
  repeat (destruct Hin as [<- | Hin];
          [first [ rewrite Ext_app by (vm_compute; discriminate); reflexivity
                 | rewrite HasSuffix_app in Htzst; discriminate Htzst ] |]).
  destruct Hin.
Qed.

(** X17. The loop that derives the name of the extraction directory from
    the name of the archive always ends.  What it leaves is the start of
    the name, with an extension (if any) that the loop does not strip; it
    is the whole name exactly when the loop strips nothing at the first
    turn, and it is not empty when the name is not empty and does not
    start with a dot.  For the name of an archive without upper-case
    letters that does not end in [.tzst] at least one extension goes, so
    the directory is not named like the archive; an upper-case extension
    and [.tzst] are not in the list of the loop. *)
Theorem extraction_directory_name (baseName : string) :
  exists removed,
    tui.stripLoop (S (String.length baseName)) baseName
    = Some (tui.stripExtensions baseName)
    /\ baseName = tui.stripExtensions baseName ++ removed
    /\ tui.stops (filepath.Ext (tui.stripExtensions baseName)) = true
    /\ (tui.stripExtensions baseName = baseName
        <-> tui.stops (filepath.Ext baseName) = true)
    /\ (baseName <> "" -> strings.HasPrefix baseName "." = false ->
        tui.stripExtensions baseName <> "")
    /\ (IsArchiveFile baseName = true ->
        strings.ToLower baseName = baseName ->
        strings.HasSuffix baseName ".tzst" = false ->
        tui.stripExtensions baseName <> baseName).
Proof.
  destruct (stripLoop_ends (S (String.length baseName)) baseName
              ltac:(lia))
    as (stripped & removed & Hrun & Hs & Hend & Hsame & Hne).
  unfold tui.stripExtensions. rewrite Hrun. exists removed.
  split; [reflexivity |]. do 4 (split; [assumption |]).
  intros Harch Hlower Htzst Heq. apply Hsame in Heq.
  now rewrite (archive_extension_is_stripped _ Harch Hlower Htzst) in Heq.
Qed.

(** The statement at work: an archive named with the [.tzst] alias keeps
    its whole name. *)
Lemma extraction_directory_name_witness :
  IsArchiveFile "backup.tzst" = true
  /\ tui.stripExtensions "backup.tzst" = "backup.tzst".
Proof.
  split; [reflexivity |].
  destruct (extraction_directory_name "backup.tzst")
    as (removed & _ & _ & _ & Hsame & _).
  apply Hsame. reflexivity.
Defined.

(** ** The screens: what every run keeps *)

Lemma index_some {A : Type} (s : list A) (i : Z) :
  (0 <= i < tui.len s)%Z ->
  exists x,
    tui.index s i = Some x /\ nth_error s (Z.to_nat i) = Some x /\ In x s.
Proof.
  unfold tui.index, tui.len. intros H.
  destruct (i <? 0)%Z eqn:E; [lia |].
  destruct (nth_error s (Z.to_nat i)) as [x|] eqn:N.
  - exists x. repeat split. eapply nth_error_In, N.
  - apply nth_error_None in N. lia.
Qed.

Lemma assign_length {A : Type} (s : list A) (v : A) :
  forall i, List.length (tui.assign s i v) = List.length s.
Proof.
  induction s as [|x s IH]; intros [|i]; cbn; auto.
Qed.

Lemma assign_map {A B : Type} (f : A -> B) (s : list A) (v : A) :
  forall i x,
    nth_error s i = Some x -> f v = f x ->
    map f (tui.assign s i v) = map f s.
Proof.
  induction s as [|y s IH]; intros [|i] x Hn Hf; cbn in *;
    try discriminate.
  - injection Hn as ->. now rewrite Hf.
  - f_equal. eapply IH; eauto.
Qed.

Lemma HasPrefix_char (a c : ascii) (rest : string) :
  strings.HasPrefix (String a rest) (String c "") = Ascii.eqb a c.
Proof.
  unfold strings.HasPrefix. cbn.
  assert (H0 : substring 0 0 rest = "") by now destruct rest.
  rewrite H0. cbn. now destruct (Ascii.eqb a c).
Qed.

Lemma Contains_char (c : ascii) (s : string) :
  strings.Contains s (String c "")
  = existsb (fun a => Ascii.eqb a c) (list_ascii_of_string s).
Proof.
  induction s as [|a s IH]; [reflexivity |].
  cbn [strings.Contains list_ascii_of_string existsb].
  now rewrite HasPrefix_char, IH.
Qed.

Lemma noQuit_append (s key : string) :
  noQuit s -> String.length key = 1%nat -> (key =? "q") = false ->
  noQuit (s ++ key).
Proof.
  unfold noQuit. rewrite !Contains_char, list_ascii_app, existsb_app.
  intros -> Hlen Hkey. destruct key as [|k [|k' key]]; try discriminate Hlen.
  cbn. cbn in Hkey. destruct (Ascii.eqb k "q"); [discriminate | reflexivity].
Qed.

Lemma noQuit_dropLast (s : string) : noQuit s -> noQuit (tui.dropLast s).
Proof.
  unfold noQuit, tui.dropLast. rewrite !Contains_char. intros H.
  pose proof (substring_split s (String.length s - 1) ltac:(lia)) as Hs.
  rewrite Hs, list_ascii_app, existsb_app in H.
  now apply orb_false_elim in H.
Qed.

Lemma entryOf_listed (dir : string) (entry : tui.DirEntry) :
  listable entry = true -> listedEntry (entryOf dir entry).
Proof.
  unfold listable, listedEntry, entryOf. cbn. intros H.
  apply andb_true_iff in H. destruct H as [H _].
  apply negb_true_iff in H. eauto.
Qed.

Lemma Forall_filter {A : Type} (P : A -> Prop) (f : A -> bool) (l : list A) :
  Forall P l -> Forall P (filter f l).
Proof.
  rewrite !Forall_forall. intros H x Hin. apply filter_In in Hin.
  now apply H.
Qed.

(** [loadEntries] touches the list and the cursor only. *)
Lemma loadEntries_shape (w : tui.World) (m : tui.model) :
  (0 <= tui.cursor m)%Z ->
  exists es c,
    tui.loadEntries w m = tui.set_cursor (tui.set_entries m es) c
    /\ Forall listedEntry es
    /\ (0 <= c)%Z
    /\ (es <> [] -> (c < tui.len es)%Z).
Proof.
  intros Hc. unfold tui.loadEntries. cbn [tui.cwd tui.set_entries tui.mode].
  destruct (tui.ReadDir w (tui.cwd m)) as [listed|cause].
  - rewrite loadEntry_fold. cbn [app].
    assert (Hall : Forall listedEntry
                     (map (entryOf (tui.cwd m)) (filter listable listed))).
    { apply Forall_forall. intros fe Hin. apply in_map_iff in Hin.
      destruct Hin as (entry & <- & Hin). apply filter_In in Hin.
      now apply entryOf_listed. }
    set (shown := map (entryOf (tui.cwd m)) (filter listable listed)) in *.
    assert (Hlen : forall es : list tui.fileEntry,
              es <> [] -> (0 < tui.len es)%Z).
    { intros [|x es] H; [now contradiction H | unfold tui.len; cbn; lia]. }
    destruct (tui.mode m); eexists _, 0%Z;
      (split; [reflexivity |]);
      (split; [repeat (apply Forall_app; split); now apply Forall_filter |]);
      (split; [lia | apply Hlen]).
  - exists [], (tui.cursor m). repeat split; auto. intros H.
    now contradiction H.
Qed.

Lemma setSelected_names (v : bool) (cats : list config.ExcludeCategory) :
  map config.Name (map (tui.setSelected v) cats) = map config.Name cats
  /\ map config.Patterns (map (tui.setSelected v) cats)
     = map config.Patterns cats.
Proof.
  rewrite !map_map. split; apply map_ext; reflexivity.
Qed.

Lemma collectExcludes_patterns (cats : list config.ExcludeCategory) :
  map config.Patterns cats
  = map config.Patterns config.GetExcludeCategories ->
  incl (tui.collectExcludes cats []) config.DefaultExcludes.
Proof.
  intros Hpat p Hin. rewrite collectExcludes_flat in Hin. cbn [app] in Hin.
  apply in_flat_map in Hin. destruct Hin as (cat & Hcat & Hp).
  assert (Hpats : In (config.Patterns cat)
                    (map config.Patterns config.GetExcludeCategories)).
  { rewrite <- Hpat. now apply in_map. }
  destruct (config.Selected cat); [| destruct Hp].
  revert p Hp. change (incl (config.Patterns cat) config.DefaultExcludes).
  cbn in Hpats.
  repeat (destruct Hpats as [<- | Hpats];
          [apply incl_forallb; vm_compute; reflexivity |]).
  destruct Hpats.
Qed.

Ltac model_fields :=
  cbn [tui.state tui.mode tui.modeCursor tui.entries tui.cursor tui.cwd
       tui.formatCursor tui.formats tui.excludeCategories tui.excludeCursor
       tui.selectedPath tui.selectedFormat tui.outputPath tui.password
       tui.passwordInput tui.usePassword tui.passwordCursor tui.errorMsg
       tui.set_state tui.set_mode tui.set_modeCursor tui.set_entries
       tui.set_cursor tui.set_cwd tui.set_formatCursor
       tui.set_excludeCategories tui.set_excludeCursor tui.set_selectedPath
       tui.set_selectedFormat tui.set_outputPath tui.set_password
       tui.set_passwordInput tui.set_usePassword tui.set_passwordCursor
       tui.set_errorMsg] in *.

(** Open the invariant of [m] on the screen [Hstate] names. *)
Ltac open_inv Hinv Hstate :=
  destruct Hinv as ((Hmc & Hc0 & Hc1 & Hfc & Hec & Hpc) & (Hfm & Hnm & Hpt)
                    & Hlisted & Hscreen & Hinput & Hpass);
  unfold screensAgree in Hscreen; rewrite Hstate in Hscreen.

(** The comparisons of the cursors as propositions. *)
Ltac tests_to_props :=
  repeat match goal with
         | H : (_ <? _)%Z = true |- _ => apply Z.ltb_lt in H
         | H : (_ <? _)%Z = false |- _ => apply Z.ltb_ge in H
         | H : (_ >? _)%Z = true |- _ => apply Z.gtb_lt in H
         | H : (_ >? _)%Z = false |- _ => rewrite Z.gtb_ltb in H
         | H : (_ =? _)%Z = true |- _ => apply Z.eqb_eq in H
         | H : (_ =? _)%Z = false |- _ => apply Z.eqb_neq in H
         end.

(** Close a step whose result is written out. *)
Ltac close_step :=
  eexists _, _; split; [reflexivity |]; tests_to_props;
  unfold wizardInv, cursorsInRange, tablesKept, screensAgree, launchOk,
    compressChoice, extractChoice in *;
  model_fields;
  repeat match goal with
         | H : tui.state _ = _ |- _ => rewrite H
         | H : tui.mode _ = _ |- _ => rewrite H
         end;
  repeat match goal with
         | H : _ /\ _ |- _ => destruct H
         end;
  repeat split; try assumption; try lia; auto;
  try (intros Hnonempty;
       match goal with
       | H : ?P -> _, H' : ?P |- _ => specialize (H H')
       end; lia).

Lemma updateSelectMode_ok (w : tui.World) (key : string) (m : tui.model) :
  wizardInv m -> tui.state m = tui.stateSelectMode ->
  stepOk (tui.updateSelectMode w key m).
Proof.
  intros Hinv Hstate. open_inv Hinv Hstate. unfold tui.updateSelectMode.
  repeat match goal with
         | |- context [if ?b then _ else _] => destruct b eqn:?
         end;
    try solve [close_step].
  all: match goal with
       | |- context [tui.loadEntries ?w ?m0] =>
           destruct (loadEntries_shape w m0) as (es & c & -> & Hes & Hc & Hlt);
           [model_fields; assumption |]
       end.
  all: close_step.
Qed.

Lemma entries_nonempty (es : list tui.fileEntry) :
  (0 < tui.len es)%Z -> es <> [].
Proof. intros H ->. unfold tui.len in H. cbn in H. lia. Qed.

Lemma updateSelectFile_ok (w : tui.World) (key : string) (m : tui.model) :
  wizardInv m -> tui.state m = tui.stateSelectFile ->
  stepOk (tui.updateSelectFile w key m).
Proof.
  intros Hinv Hstate. open_inv Hinv Hstate. unfold tui.updateSelectFile.
  destruct ((key =? "q") || (key =? "esc")); [close_step |].
  destruct ((key =? "up") || (key =? "k")).
  { destruct (tui.cursor m >? 0)%Z eqn:?; close_step. }
  destruct ((key =? "down") || (key =? "j")).
  { destruct (tui.cursor m <? tui.len (tui.entries m) - 1)%Z eqn:?;
      close_step. }
  assert (Hentry : (tui.len (tui.entries m) >? 0)%Z = true ->
                   exists entry,
                     tui.index (tui.entries m) (tui.cursor m) = Some entry
                     /\ listedEntry entry).
  { intros Hlen. apply Z.gtb_lt in Hlen.
    destruct (index_some (tui.entries m) (tui.cursor m))
      as (entry & Hi & _ & Hin).
    - split; [assumption |]. now apply Hc1, entries_nonempty.
    - exists entry. split; [assumption |].
      rewrite Forall_forall in Hlisted. now apply Hlisted. }
  assert (Hload : forall m0,
            (0 <= tui.cursor m0)%Z ->
            wizardInv (tui.set_cursor (tui.set_entries m0 []) 0) ->
            (forall es c,
               Forall listedEntry es -> (0 <= c)%Z ->
               (es <> [] -> (c < tui.len es)%Z) ->
               wizardInv (tui.set_cursor (tui.set_entries m0 es) c)) ->
            stepOk (Some (tui.loadEntries w m0, tui.cmdNone))).
  { intros m0 H0 _ Hall.
    destruct (loadEntries_shape w m0 H0) as (es & c & -> & Hes & Hc & Hlt).
    eexists _, _. split; [reflexivity |]. split; [| exact I].
    now apply Hall. }
  destruct ((key =? "enter") || (key =? "l")).
  { destruct (tui.len (tui.entries m) >? 0)%Z eqn:Hlen; [| close_step].
    destruct (Hentry eq_refl) as (entry & -> & Hle).
    destruct (tui.isDir entry); [| close_step].
    apply Hload; model_fields; [assumption | |].
    - unfold wizardInv, cursorsInRange, tablesKept, screensAgree.
      model_fields. rewrite Hstate.
      repeat split; try assumption; try lia; auto.
      intros H. now contradiction H.
    - intros es c Hes Hc Hlt.
      unfold wizardInv, cursorsInRange, tablesKept, screensAgree.
      model_fields. rewrite Hstate.
      repeat split; try assumption; try lia; auto. }
  destruct ((key =? "backspace") || (key =? "h")).
  { destruct (negb (filepath.Dir (tui.cwd m) =? tui.cwd m)); [| close_step].
    apply Hload; model_fields; [assumption | |].
    - unfold wizardInv, cursorsInRange, tablesKept, screensAgree.
      model_fields. rewrite Hstate.
      repeat split; try assumption; try lia; auto.
      intros H. now contradiction H.
    - intros es c Hes Hc Hlt.
      unfold wizardInv, cursorsInRange, tablesKept, screensAgree.
      model_fields. rewrite Hstate.
      repeat split; try assumption; try lia; auto. }
  destruct (key =? " "); [| close_step].
  destruct (tui.len (tui.entries m) >? 0)%Z eqn:Hlen; [| close_step].
  destruct (Hentry eq_refl) as (entry & -> & (dir & Hpath) & Hdot & Harch).
  model_fields. destruct (tui.mode m) eqn:Hmode; [close_step |].
  destruct (tui.isArchive entry) eqn:Hisarch; [| close_step].
  assert (Hchoice : exists dir name,
            tui.path entry = filepath.Join [dir; name]
            /\ strings.HasPrefix name "." = false
            /\ IsArchiveFile name = true).
  { exists dir, (tui.name entry). repeat split; try assumption.
    symmetry in Harch. apply andb_true_iff in Harch. tauto. }
  destruct ((DetectArchiveFormat (tui.path entry) =? ".zip")
            || (DetectArchiveFormat (tui.path entry) =? ".7z"));
    close_step; unfold extractChoice; model_fields; auto.
Qed.

Lemma updateSelectFormat_ok (w : tui.World) (key : string) (m : tui.model) :
  wizardInv m -> tui.state m = tui.stateSelectFormat ->
  stepOk (tui.updateSelectFormat w key m).
Proof.
  intros Hinv Hstate. open_inv Hinv Hstate.
  destruct (tui.mode m) eqn:Hmode; [| destruct Hscreen].
  unfold tui.updateSelectFormat.
  destruct ((key =? "q") || (key =? "esc")); [close_step |].
  destruct ((key =? "up") || (key =? "k")).
  { destruct (tui.formatCursor m >? 0)%Z eqn:?; close_step. }
  destruct ((key =? "down") || (key =? "j")).
  { destruct (tui.formatCursor m <? tui.len (tui.formats m) - 1)%Z eqn:?;
      close_step. }
  destruct ((key =? "enter") || (key =? " ")); [| close_step].
  destruct (index_some (tui.formats m) (tui.formatCursor m) Hfc)
    as (format & -> & _ & Hin).
  model_fields.
  destruct ((config.Extension format =? ".7z") && negb (tui.Is7zAvailable w));
    close_step.
Qed.

Lemma updateSelectExcludes_ok (key : string) (m : tui.model) :
  wizardInv m -> tui.state m = tui.stateSelectExcludes ->
  stepOk (tui.updateSelectExcludes key m).
Proof.
  intros Hinv Hstate. open_inv Hinv Hstate.
  destruct (tui.mode m) eqn:Hmode; [| destruct Hscreen].
  unfold tui.updateSelectExcludes.
  destruct ((key =? "q") || (key =? "esc")); [close_step |].
  destruct ((key =? "up") || (key =? "k")).
  { destruct (tui.excludeCursor m >? 0)%Z eqn:?; close_step. }
  destruct ((key =? "down") || (key =? "j")).
  { destruct (tui.excludeCursor m
              <? tui.len (tui.excludeCategories m) - 1)%Z eqn:?;
      close_step. }
  destruct (key =? " ").
  { destruct (index_some (tui.excludeCategories m) (tui.excludeCursor m) Hec)
      as (cat & -> & Hnth & _).
    eexists _, _. split; [reflexivity |]. split; [| exact I].
    unfold wizardInv, cursorsInRange, tablesKept, screensAgree.
    model_fields. rewrite Hstate, Hmode. unfold tui.len in *.
    rewrite assign_length.
    rewrite (assign_map config.Name _
               (tui.setSelected (negb (config.Selected cat)) cat) _ cat Hnth
               eq_refl).
    rewrite (assign_map config.Patterns _
               (tui.setSelected (negb (config.Selected cat)) cat) _ cat Hnth
               eq_refl).
    repeat split; try assumption; try lia; apply Hscreen. }
  destruct (key =? "a").
  { destruct (setSelected_names true (tui.excludeCategories m)) as [H1 H2].
    eexists _, _. split; [reflexivity |]. split; [| exact I].
    unfold wizardInv, cursorsInRange, tablesKept, screensAgree.
    model_fields. rewrite Hstate, Hmode, H1, H2. unfold tui.len in *.
    rewrite length_map.
    repeat split; try assumption; try lia; apply Hscreen. }
  destruct (key =? "n").
  { destruct (setSelected_names false (tui.excludeCategories m)) as [H1 H2].
    eexists _, _. split; [reflexivity |]. split; [| exact I].
    unfold wizardInv, cursorsInRange, tablesKept, screensAgree.
    model_fields. rewrite Hstate, Hmode, H1, H2. unfold tui.len in *.
    rewrite length_map.
    repeat split; try assumption; try lia; apply Hscreen. }
  destruct (key =? "enter"); [| close_step].
  destruct (config.Extension (tui.selectedFormat m) =? ".zip"); close_step.
Qed.

Lemma noQuit_empty : noQuit "".
Proof. reflexivity. Qed.

Lemma updateInputPassword_ok (key : string) (m : tui.model) :
  wizardInv m -> tui.state m = tui.stateInputPassword ->
  stepOk (tui.updateInputPassword key m).
Proof.
  intros Hinv Hstate. open_inv Hinv Hstate.
  unfold tui.updateInputPassword.
  destruct (tui.mode m) eqn:Hmode.
  - destruct ((key =? "q") || (key =? "esc")) eqn:Hq;
      [close_step; apply noQuit_empty |].
    apply orb_false_elim in Hq. destruct Hq as [Hq _].
    destruct ((key =? "up") || (key =? "k")).
    { destruct (tui.passwordCursor m >? 0)%Z eqn:?; close_step. }
    destruct ((key =? "down") || (key =? "j")).
    { destruct (tui.passwordCursor m <? 1)%Z eqn:?; close_step. }
    destruct (key =? "enter").
    { destruct (tui.passwordCursor m =? 0)%Z eqn:?;
        [close_step; apply noQuit_empty |].
      destruct (tui.passwordInput m =? ""); close_step. }
    destruct (key =? "backspace").
    { destruct ((tui.passwordCursor m =? 1)%Z
                && (0 <? String.length (tui.passwordInput m))%nat);
        close_step; now apply noQuit_dropLast. }
    destruct ((tui.passwordCursor m =? 1)%Z && (String.length key =? 1)%nat)
      eqn:Hlen; [| close_step].
    apply andb_true_iff in Hlen. destruct Hlen as [_ Hlen].
    apply Nat.eqb_eq in Hlen.
    close_step; now apply noQuit_append.
  - destruct ((key =? "q") || (key =? "esc")) eqn:Hq;
      [close_step; apply noQuit_empty |].
    apply orb_false_elim in Hq. destruct Hq as [Hq _].
    destruct (key =? "enter"); [close_step |].
    destruct (key =? "backspace").
    { destruct (0 <? String.length (tui.passwordInput m))%nat;
        close_step; now apply noQuit_dropLast. }
    destruct (String.length key =? 1)%nat eqn:Hlen; [| close_step].
    apply Nat.eqb_eq in Hlen.
    close_step; now apply noQuit_append.
Qed.

Lemma updateConfirm_ok (key : string) (m : tui.model) :
  wizardInv m -> tui.state m = tui.stateConfirm ->
  stepOk (tui.updateConfirm key m).
Proof.
  intros Hinv Hstate. open_inv Hinv Hstate.
  unfold tui.updateConfirm, tui.startCompress, tui.startExtract.
  destruct (tui.mode m) eqn:Hmode.
  - destruct ((key =? "q") || (key =? "esc") || (key =? "n")).
    { destruct (config.Extension (tui.selectedFormat m) =? ".zip");
        close_step. }
    destruct ((key =? "y") || (key =? "enter")); [| close_step].
    destruct Hscreen as [Hin Hout].
    close_step.
    + rewrite <- Hfm. now apply in_map.
    + now apply collectExcludes_patterns.
  - destruct ((key =? "q") || (key =? "esc") || (key =? "n")).
    { destruct ((DetectArchiveFormat (tui.selectedPath m) =? ".zip")
                || (DetectArchiveFormat (tui.selectedPath m) =? ".7z"));
        close_step. }
    destruct ((key =? "y") || (key =? "enter")); [| close_step].
    destruct Hscreen as [Hsrc Hout].
    close_step.
Qed.

Lemma newModel_ok (w : tui.World) : wizardInv (tui.newModel w).
Proof.
  unfold wizardInv, cursorsInRange, tablesKept, screensAgree, tui.newModel.
  model_fields. unfold tui.len. cbn.
  repeat split; try lia; try reflexivity; auto.
  intros H. now contradiction H.
Qed.

Lemma Update_ok (w : tui.World) (message : tui.msg) (m : tui.model) :
  wizardInv m -> stepOk (tui.Update w message m).
Proof.
  intros Hinv. unfold tui.Update.
  destruct message as [key | err | err |].
  - destruct (key =? "ctrl+c").
    { eexists _, _. split; [reflexivity |]. now split. }
    destruct (tui.state m) eqn:Hstate.
    + now apply updateSelectMode_ok.
    + now apply updateSelectFile_ok.
    + now apply updateSelectFormat_ok.
    + now apply updateSelectExcludes_ok.
    + now apply updateInputPassword_ok.
    + now apply updateConfirm_ok.
    + eexists _, _. split; [reflexivity |]. now split.
    + eexists _, _. split; [reflexivity |]. now split.
    + destruct ((key =? "q") || (key =? "esc") || (key =? "enter"));
        eexists _, _; (split; [reflexivity |]); now split.
    + destruct ((key =? "q") || (key =? "esc") || (key =? "enter"));
        eexists _, _; (split; [reflexivity |]); now split.
  - destruct Hinv as (Hc & Ht & Hl & Hs & Hi & Hp).
    destruct err; eexists _, _; (split; [reflexivity |]);
      (split; [| exact I]);
      exact (conj Hc (conj Ht (conj Hl (conj I (conj Hi Hp))))).
  - destruct Hinv as (Hc & Ht & Hl & Hs & Hi & Hp).
    destruct err; eexists _, _; (split; [reflexivity |]);
      (split; [| exact I]);
      exact (conj Hc (conj Ht (conj Hl (conj I (conj Hi Hp))))).
  - eexists _, _. split; [reflexivity |]. now split.
Qed.

(** Every run keeps what holds of the model, and starts operations with
    options as they should be. *)
Lemma run_ok (w : tui.World) (messages : list tui.msg) :
  forall m,
    wizardInv m ->
    exists m' cs,
      tui.run w messages m = Some (m', cs)
      /\ wizardInv m'
      /\ Forall launchOk cs.
Proof.
  induction messages as [|message rest IH]; intros m Hinv; cbn [tui.run].
  - exists m, []. split; [reflexivity |]. split; [assumption | constructor].
  - destruct (Update_ok w message m Hinv) as (m1 & c & -> & Hinv1 & Hc).
    destruct (IH m1 Hinv1) as (m2 & cs & Hrun & Hinv2 & Hcs).
    destruct c; rewrite ?Hrun;
      eexists _, _; (split; [reflexivity |]);
      (split; [assumption |]);
      (apply Forall_cons; [assumption |]);
      first [assumption | apply Forall_nil].
Qed.

(** X18. Whatever messages arrive, in whatever order, the interface never
    indexes a list out of range: every run from [newModel] goes through
    without a panic.  At its end the cursors of the mode, format,
    category and password screens point into their lists, the cursor of
    the file screen does whenever the list is not empty, the menu of
    formats is that of the configuration, and the categories have kept
    their names and patterns. *)
Theorem interface_never_panics (w : tui.World) (messages : list tui.msg) :
  exists m' cs,
    tui.run w messages (tui.newModel w) = Some (m', cs)
    /\ cursorsInRange m'
    /\ tablesKept m'.
Proof.
  destruct (run_ok w messages (tui.newModel w) (newModel_ok w))
    as (m' & cs & Hrun & (Hc & Ht & _) & _).
  now exists m', cs.
Qed.

(** X19. A compression the interface starts, after any messages, is given
    a format of the menu, for which [Compress] has an adapter; the output
    path is the source path followed by that format, so the archive will
    be detected as one of that format; and every exclusion pattern it is
    given is one of [DefaultExcludes]. *)
Theorem compression_starts_with_menu_options
  (w : tui.World) (messages : list tui.msg) m' cs
  source output format excludes pw :
  tui.run w messages (tui.newModel w) = Some (m', cs) ->
  In (tui.cmdStartCompress source output format excludes pw) cs ->
  In format (map config.Extension config.GetArchiveFormats)
  /\ compressorFor format <> None
  /\ output = source ++ format
  /\ DetectArchiveFormat output = format
  /\ incl excludes config.DefaultExcludes.
Proof.
  intros Hrun Hin.
  destruct (run_ok w messages (tui.newModel w) (newModel_ok w))
    as (m2 & cs2 & Hrun2 & _ & Hcs).
  rewrite Hrun in Hrun2. injection Hrun2 as <- <-.
  rewrite Forall_forall in Hcs. apply Hcs in Hin.
  destruct Hin as (Hfmt & -> & Hex & _).
  split; [exact Hfmt |]. split; [now apply adapter_iff_on_menu |].
  split; [reflexivity |]. split; [| exact Hex].
  apply in_map_iff in Hfmt. destruct Hfmt as (f & <- & Hf).
  exact (detect_output_path f source Hf).
Qed.

(** The statement at work: the sample directory [src] compressed as
    [.tar.gz] with every category switched off. *)
Lemma compression_starts_with_menu_options_witness :
  In ".tar.gz" (map config.Extension config.GetArchiveFormats)
  /\ compressorFor ".tar.gz" <> None
  /\ "/home/u/src.tar.gz" = "/home/u/src" ++ ".tar.gz"
  /\ DetectArchiveFormat "/home/u/src.tar.gz" = ".tar.gz"
  /\ incl [] config.DefaultExcludes.
Proof.
  destruct (tui.run sampleWorld compressKeys (tui.newModel sampleWorld))
    as [[m' cs]|] eqn:Hrun; [| discriminate Hrun].
  refine (compression_starts_with_menu_options sampleWorld compressKeys
            m' cs "/home/u/src" "/home/u/src.tar.gz" ".tar.gz" [] "" Hrun _).
  vm_compute in Hrun. injection Hrun as _ <-.
  do 6 right. left. reflexivity.
Defined.



(** X21. No password the interface hands to the engine holds the byte
    [q]: on the password screen that key leaves the screen and empties
    the input, when extracting and when compressing, while every other
    key of one byte is appended to the input when extracting. *)
Theorem typed_passwords_never_hold_q (w : tui.World) :
  (forall messages m' cs c,
     tui.run w messages (tui.newModel w) = Some (m', cs) ->
     In c cs ->
     match c with
     | tui.cmdStartCompress _ _ _ _ pw => noQuit pw
     | tui.cmdStartExtract _ _ pw => noQuit pw
     | _ => True
     end)
  /\ (forall m,
        tui.passwordInput (fst (match tui.updateInputPassword "q" m with
                                | Some r => r
                                | None => (m, tui.cmdNone)
                                end)) = ""
        /\ tui.state (fst (match tui.updateInputPassword "q" m with
                           | Some r => r
                           | None => (m, tui.cmdNone)
                           end))
           = match tui.mode m with
             | tui.modeExtract => tui.stateSelectFile
             | tui.modeCompress => tui.stateSelectExcludes
             end)
  /\ (forall m key,
        tui.mode m = tui.modeExtract ->
        String.length key = 1%nat -> key <> "q" ->
        tui.updateInputPassword key m
        = Some (tui.set_passwordInput m (tui.passwordInput m ++ key),
                tui.cmdNone)).
Proof.
  split; [| split].
  - intros messages m' cs c Hrun Hin.
    destruct (run_ok w messages (tui.newModel w) (newModel_ok w))
      as (m2 & cs2 & Hrun2 & _ & Hcs).
    rewrite Hrun in Hrun2. injection Hrun2 as <- <-.
    rewrite Forall_forall in Hcs. apply Hcs in Hin.
    destruct c; cbn in Hin; try exact I; tauto.
  - intros m. unfold tui.updateInputPassword.
    destruct (tui.mode m); cbn; auto.
  - intros m key Hmode Hlen Hkey. unfold tui.updateInputPassword.
    rewrite Hmode.
    destruct key as [|k [|k' key]]; try discriminate Hlen.
    assert (Hq : (String k "" =? "q") = false).
    { apply String.eqb_neq. exact Hkey. }
    rewrite Hq. cbn.
    repeat match goal with
           | |- context [Ascii.eqb k ?c] => destruct (Ascii.eqb k c)
           end; reflexivity.
Qed.

(** The statement at work: the byte [x] is appended when extracting. *)
Lemma typed_passwords_never_hold_q_witness :
  tui.updateInputPassword "x"
    (tui.set_mode (tui.newModel sampleWorld) tui.modeExtract)
  = Some (tui.set_passwordInput
            (tui.set_mode (tui.newModel sampleWorld) tui.modeExtract) "x",
          tui.cmdNone).
Proof.
  apply (proj2 (proj2 (typed_passwords_never_hold_q sampleWorld))
           (tui.set_mode (tui.newModel sampleWorld) tui.modeExtract) "x");
    [reflexivity | reflexivity | discriminate].
Defined.

(** ** A source that is itself excluded *)

(** X22. The patterns are tried on the path of the source as it was
    given, not only on what lies below it.  When one of them matches
    that path (the name of the source directory itself, or the name of a
    directory above it that stands in the path between two separators),
    the walk stops at the root: nothing is collected, one path is counted
    as excluded, and [Compress] fails with the no-files error before it
    creates anything. *)
Theorem excluded_source_has_no_files
  Match ctx env opts pattern sourceInfo walked :
  In pattern (Excludes opts) ->
  patternMatches Match (Source opts) pattern ->
  Stat env (Source opts) = Ok sourceInfo ->
  IsDir sourceInfo = true ->
  Lstat env (Source opts) = Ok walked ->
  collectFiles Match env (Source opts) (Excludes opts)
  = ([], 0%Z, 1%Z, None)
  /\ Compress Match ctx env opts = ((None, Some ErrNoFiles), []).
Proof.
  intros Hin Hmatch Hstat Hdir Hlstat.
  assert (Hex : excludedPath Match (Source opts) (Excludes opts)
                  (Source opts) = true).
  { unfold excludedPath. apply orb_true_iff. right. unfold shouldExclude.
    apply excludeLoop_iff. now exists pattern. }
  assert (Hcollect : collectFiles Match env (Source opts) (Excludes opts)
                     = ([], 0%Z, 1%Z, None)).
  { unfold collectFiles, WalkDir. rewrite Hstat, Hdir, Hlstat. cbn [negb].
    destruct walked as [info | size readErr entries].
    - now rewrite (walk_excluded_file _ _ _ _ _ _ Hex).
    - now rewrite (walk_excluded_dir _ _ _ _ _ _ _ _ Hex). }
  split; [exact Hcollect |].
  unfold Compress. now rewrite Hstat, Hcollect.
Qed.

(** The statement at work: with the default patterns, a project that lies
    below a directory named [build] cannot be compressed. *)
Lemma excluded_source_has_no_files_witness :
  Compress suffixGlob background (calmEnv buildFs [] [] 0) buildOptions
  = ((None, Some ErrNoFiles), []).
Proof.
  refine (proj2 (excluded_source_has_no_files suffixGlob background
                   (calmEnv buildFs [] [] 0) buildOptions "build"
                   (Dir 4096 None [("main.go", File (Some 10%Z))])
                   (Dir 4096 None [("main.go", File (Some 10%Z))])
                   _ _ eq_refl eq_refl eq_refl)).
  - cbn. auto 25.
  - right. left. now exists "/home/u", "proj".
Defined.
